(** * Clinic Management System: appointment scheduling

    A shallow embedding of the scheduling core of [CMS.py]
    ([AppointmentController], [AppointmentDB], the patient and doctor
    look-ups and [PatientController]) together with the library
    behaviour it relies on: [str.isdigit], [str.strip], [int],
    [datetime.strptime] and the value binding of the [sqlite3] module.

    Python text is a sequence of Unicode code points, taken to be
    encodable as UTF-8 (no lone surrogates), which is what SQLite stores.
    The character classes are those of CPython 3.11 (Unicode 14.0.0).
    Storage faults (I/O errors, an exhausted row-id space) are outside
    the model. *)

From Stdlib Require Import List ZArith NArith String Ascii Bool Lia.
From Stdlib Require Import Sorted Permutation DecimalString.
Import ListNotations.

Open Scope Z_scope.

(** ** Python text *)

Definition pychar := N.
Definition pystr := list pychar.

(** An ASCII literal of the source as Python text. *)
Definition str (s : string) : pystr :=
  map N_of_ascii (list_ascii_of_string s).

(** The code point of an ASCII character. *)
Definition chr (a : ascii) : pychar := N_of_ascii a.

Definition pystr_eqb (a b : pystr) : bool :=
  if list_eq_dec N.eq_dec a b then true else false.

Module Unicode.

Definition in_range (c : pychar) (r : N * N) : bool :=
  (fst r <=? c)%N && (c <=? snd r)%N.

Definition in_ranges (rs : list (N * N)) (c : pychar) : bool :=
  existsb (in_range c) rs.

(** General category Nd.  Every range starts at a digit zero, so the
    value of a digit is its offset in the range modulo ten. *)
Definition decimal_ranges : list (N * N) :=
  [(48, 57); (1632, 1641); (1776, 1785); (1984, 1993); (2406, 2415);
   (2534, 2543); (2662, 2671); (2790, 2799); (2918, 2927); (3046, 3055);
   (3174, 3183); (3302, 3311); (3430, 3439); (3558, 3567); (3664, 3673);
   (3792, 3801); (3872, 3881); (4160, 4169); (4240, 4249); (6112, 6121);
   (6160, 6169); (6470, 6479); (6608, 6617); (6784, 6793); (6800, 6809);
   (6992, 7001); (7088, 7097); (7232, 7241); (7248, 7257); (42528, 42537);
   (43216, 43225); (43264, 43273); (43472, 43481); (43504, 43513);
   (43600, 43609); (44016, 44025); (65296, 65305); (66720, 66729);
   (68912, 68921); (69734, 69743); (69872, 69881); (69942, 69951);
   (70096, 70105); (70384, 70393); (70736, 70745); (70864, 70873);
   (71248, 71257); (71360, 71369); (71472, 71481); (71904, 71913);
   (72016, 72025); (72784, 72793); (73040, 73049); (73120, 73129);
   (92768, 92777); (92864, 92873); (93008, 93017); (120782, 120831);
   (123200, 123209); (123632, 123641); (125264, 125273);
   (130032, 130041)]%N.

(** Numeric_Type=Digit without being decimal: superscripts, subscripts,
    circled and parenthesised digits and the like. *)
Definition digit_only_ranges : list (N * N) :=
  [(178, 179); (185, 185); (4969, 4977); (6618, 6618); (8304, 8304);
   (8308, 8313); (8320, 8329); (9312, 9320); (9332, 9340); (9352, 9360);
   (9450, 9450); (9461, 9469); (9471, 9471); (10102, 10110);
   (10112, 10120); (10122, 10130); (68160, 68163); (69216, 69224);
   (69714, 69722); (127232, 127242)]%N.

(** White space as [Py_UNICODE_ISSPACE] has it. *)
Definition space_ranges : list (N * N) :=
  [(9, 13); (28, 32); (133, 133); (160, 160); (5760, 5760); (8192, 8202);
   (8232, 8233); (8239, 8239); (8287, 8287); (12288, 12288)]%N.

Definition isdecimal (c : pychar) : bool := in_ranges decimal_ranges c.

Definition isdigit (c : pychar) : bool :=
  isdecimal c || in_ranges digit_only_ranges c.

Definition isspace (c : pychar) : bool := in_ranges space_ranges c.

(** [Py_UNICODE_TODECIMAL]. *)
Definition todecimal (c : pychar) : option Z :=
  match find (in_range c) decimal_ranges with
  | Some r => Some (Z.of_N ((c - fst r) mod 10))
  | None => None
  end.

End Unicode.

(** ** Exceptions and outcomes *)

Inductive exn : Type :=
| ValueError
| OverflowError
| IntegrityError.

Inductive outcome (A : Type) : Type :=
| Ret (a : A)
| Exc (e : exn).

Arguments Ret {A} a.
Arguments Exc {A} e.

(** ** [str] methods and [int] *)

(** [str.isdigit]: at least one character, and all of them digits. *)
Definition isdigit (s : pystr) : bool :=
  match s with
  | [] => false
  | _ => forallb Unicode.isdigit s
  end.

(** [str.isdecimal], which the program does not call: the tokens made
    of decimal digits only. *)
Definition isdecimal (s : pystr) : bool :=
  match s with
  | [] => false
  | _ => forallb Unicode.isdecimal s
  end.

Fixpoint lstrip (s : pystr) : pystr :=
  match s with
  | c :: s' => if Unicode.isspace c then lstrip s' else s
  | [] => []
  end.

Definition rstrip (s : pystr) : pystr := rev (lstrip (rev s)).

(** [str.strip()]. *)
Definition strip (s : pystr) : pystr := rstrip (lstrip s).

(** [sys.get_int_max_str_digits()], at its default. *)
Definition int_max_str_digits : nat := 4300.

Definition underscore : pychar := chr "_".
Definition plus_sign : pychar := chr "+".
Definition minus_sign : pychar := chr "-".

(** The digits of a base-ten literal, most significant first; a single
    underscore may separate two digits.  [acc] is the value read so far,
    [n] the number of digits read, [sep] whether the last character was
    an underscore. *)
Fixpoint int_digits (s : pystr) (acc : Z) (n : nat) (sep : bool)
  : option (Z * nat) :=
  match s with
  | [] => if sep then None else Some (acc, n)
  | c :: s' =>
      if N.eqb c underscore then
        if sep then None else int_digits s' acc n true
      else
        match Unicode.todecimal c with
        | Some d => int_digits s' (10 * acc + d) (S n) false
        | None => None
        end
  end.

Definition int_unsigned (s : pystr) : outcome Z :=
  match s with
  | [] => Exc ValueError
  | c :: _ =>
      if N.eqb c underscore then Exc ValueError
      else
        match int_digits s 0 0%nat false with
        | Some (v, n) =>
            if Nat.ltb int_max_str_digits n then Exc ValueError else Ret v
        | None => Exc ValueError
        end
  end.

(** [int(s)] for a string [s]: surrounding white space is skipped, one
    sign is allowed, any decimal digit of Unicode counts. *)
Definition py_int (s : pystr) : outcome Z :=
  match strip s with
  | c :: s' =>
      if N.eqb c plus_sign then int_unsigned s'
      else if N.eqb c minus_sign then
        match int_unsigned s' with
        | Ret v => Ret (- v)
        | Exc e => Exc e
        end
      else int_unsigned (c :: s')
  | [] => Exc ValueError
  end.

(** Sequencing of fallible computations. *)
Definition obind {A B : Type} (m : outcome A) (k : A -> outcome B)
  : outcome B :=
  match m with
  | Ret a => k a
  | Exc e => Exc e
  end.

Notation "x <~ m ; k" := (obind m (fun x => k))
  (at level 61, m at next level, right associativity).

(** ** [datetime.strptime(_, "%Y-%m-%d %H:%M")] *)

Module Strptime.

(** The format directives that occur in the program's format. *)
Inductive directive : Type := dY | dm | dd | dH | dM.

Definition directive_eqb (a b : directive) : bool :=
  match a, b with
  | dY, dY | dm, dm | dd, dd | dH, dH | dM, dM => true
  | _, _ => false
  end.

(** The fragment of regular expressions that the patterns of
    [_strptime.TimeRE] for these directives use. *)
Inductive regex : Type :=
| Lit (c : pychar)
| Cls (p : pychar -> bool)
| Seq (r1 r2 : regex)
| Alt (r1 r2 : regex)
| Plus (p : pychar -> bool)
| Group (g : directive) (r : regex).

Definition captures := list (directive * pystr).
Definition cont := pystr -> captures -> option (captures * pystr).

(** [p+], greedy: one character, then as many more as the rest of the
    pattern allows. *)
Fixpoint plus_match (p : pychar -> bool) (s : pystr) (env : captures)
  (k : cont) : option (captures * pystr) :=
  match s with
  | c :: s' =>
      if p c then
        match plus_match p s' env k with
        | Some r => Some r
        | None => k s' env
        end
      else None
  | [] => None
  end.

(** Backtracking match at the start of [s]: alternatives are tried
    from left to right and the first complete match wins.  The
    continuation receives the input that is left. *)
Fixpoint rmatch (r : regex) (s : pystr) (env : captures) (k : cont)
  : option (captures * pystr) :=
  match r with
  | Lit c =>
      match s with
      | a :: s' => if N.eqb a c then k s' env else None
      | [] => None
      end
  | Cls p =>
      match s with
      | a :: s' => if p a then k s' env else None
      | [] => None
      end
  | Seq r1 r2 => rmatch r1 s env (fun s' env' => rmatch r2 s' env' k)
  | Alt r1 r2 =>
      match rmatch r1 s env k with
      | Some x => Some x
      | None => rmatch r2 s env k
      end
  | Plus p => plus_match p s env k
  | Group g r1 =>
      rmatch r1 s env
        (fun s' env' =>
           k s' ((g, firstn (List.length s - List.length s') s) :: env'))
  end.

(** [re.match]: the first match and the input that follows it. *)
Definition re_match (r : regex) (s : pystr) : option (captures * pystr) :=
  rmatch r s [] (fun s' env => Some (env, s')).

Definition group (found : captures) (g : directive) : pystr :=
  match find (fun e => directive_eqb (fst e) g) found with
  | Some e => snd e
  | None => []
  end.

(** Character classes: [\d], [\s] and [[a-b]]. *)
Definition d : regex := Cls Unicode.isdecimal.
Definition rng (a b : ascii) : regex :=
  Cls (fun c => (chr a <=? c)%N && (c <=? chr b)%N).
Definition lit (a : ascii) : regex := Lit (chr a).

Fixpoint alts (r : regex) (rs : list regex) : regex :=
  match rs with
  | [] => r
  | r' :: rs' => Alt r (alts r' rs')
  end.

Fixpoint seqs (r : regex) (rs : list regex) : regex :=
  match rs with
  | [] => r
  | r' :: rs' => Seq r (seqs r' rs')
  end.

(** The entries of the [TimeRE] table. *)
Definition re_Y : regex := Group dY (seqs d [d; d; d]).
Definition re_m : regex :=
  Group dm (alts (Seq (lit "1") (rng "0" "2"))
              [Seq (lit "0") (rng "1" "9"); rng "1" "9"]).
Definition re_d : regex :=
  Group dd (alts (Seq (lit "3") (rng "0" "1"))
              [Seq (rng "1" "2") d; Seq (lit "0") (rng "1" "9");
               rng "1" "9"; Seq (lit " ") (rng "1" "9")]).
Definition re_H : regex :=
  Group dH (alts (Seq (lit "2") (rng "0" "3")) [Seq (rng "0" "1") d; d]).
Definition re_M : regex :=
  Group dM (alts (Seq (rng "0" "5") d) [d]).

(** [TimeRE.pattern("%Y-%m-%d %H:%M")]: the blank of the format
    becomes [\s+]. *)
Definition format_regex : regex :=
  seqs re_Y [lit "-"; re_m; lit "-"; re_d; Plus Unicode.isspace;
             re_H; lit ":"; re_M].

(** [datetime] values, to the minute. *)
Record datetime : Type := mk_datetime
  { year : Z; month : Z; day : Z; hour : Z; minute : Z }.

Definition is_leap (y : Z) : bool :=
  (y mod 4 =? 0) && (negb (y mod 100 =? 0) || (y mod 400 =? 0)).

Definition days_in_month (y m : Z) : Z :=
  if (m =? 2) && is_leap y then 29
  else nth (Z.to_nat m) [-1; 31; 28; 31; 30; 31; 30; 31; 31; 30; 31; 30; 31] 0.

(** [_check_date_fields] and [_check_time_fields]. *)
Definition check_date_fields (y m dy : Z) : bool :=
  (1 <=? y) && (y <=? 9999) && (1 <=? m) && (m <=? 12)
  && (1 <=? dy) && (dy <=? days_in_month y m).

Definition check_time_fields (h mi : Z) : bool :=
  (0 <=? h) && (h <=? 23) && (0 <=? mi) && (mi <=? 59).

(** [datetime.strptime(data, "%Y-%m-%d %H:%M")]; every failure is a
    [ValueError]. *)
Definition strptime (data : pystr) : outcome datetime :=
  match re_match format_regex data with
  | None => Exc ValueError
  | Some (found, rest) =>
      match rest with
      | _ :: _ => Exc ValueError
      | [] =>
          y <~ py_int (group found dY);
          m <~ py_int (group found dm);
          dy <~ py_int (group found dd);
          h <~ py_int (group found dH);
          mi <~ py_int (group found dM);
          if check_date_fields y m dy && check_time_fields h mi
          then Ret (mk_datetime y m dy h mi)
          else Exc ValueError
      end
  end.

End Strptime.

(** ** The store *)

(** The rows of the four tables, column by column; nullable columns are
    options. *)
Record user_row : Type := mk_user
  { u_id : Z; u_username : pystr; u_password_hash : pystr; u_role : pystr }.

Record patient_row : Type := mk_patient
  { p_id : Z; p_name : pystr; p_age : Z; p_gender : pystr;
    p_phone : option pystr; p_address : option pystr }.

Record doctor_row : Type := mk_doctor
  { d_id : Z; d_name : pystr; d_specialty : pystr }.

Record appointment_row : Type := mk_appointment
  { a_id : Z; a_patient_id : Z; a_doctor_id : Z; a_appt_datetime : pystr;
    a_reason : option pystr; a_status : pystr }.

(** The database file: the tables in insertion order and, for the two
    tables the program inserts into, the AUTOINCREMENT counter that
    [sqlite_sequence] keeps. *)
Record database : Type := mk_database
  { users : list user_row;
    patients : list patient_row;
    doctors : list doctor_row;
    appointments : list appointment_row;
    patients_seq : Z;
    appointments_seq : Z }.

(** What a repository call sends over its connection. *)
Inductive statement : Type :=
| SelectPatientById (pid : Z)
| SelectDoctorById (did : Z)
| CountScheduled (did : Z) (dt : pystr)
| InsertAppointment (pid did : Z) (dt reason : pystr)
| InsertPatient (name : pystr) (age : Z) (gender phone address : pystr).

(** The state a call runs in: the database and the journal of the
    repository calls made so far, oldest first. *)
Record world : Type := mk_world
  { db : database; journal : list statement }.

(** Programs: state passing with exceptions. *)
Definition prog (A : Type) : Type := world -> outcome A * world.

Definition ret {A : Type} (a : A) : prog A := fun w => (Ret a, w).

Definition raise {A : Type} (e : exn) : prog A := fun w => (Exc e, w).

Definition bind {A B : Type} (m : prog A) (k : A -> prog B) : prog B :=
  fun w =>
    match m w with
    | (Ret a, w') => k a w'
    | (Exc e, w') => (Exc e, w')
    end.

Definition lift {A : Type} (o : outcome A) : prog A := fun w => (o, w).

Notation "x <- m ;; k" := (bind m (fun x => k))
  (at level 61, m at next level, right associativity).
Notation "m ;; k" := (bind m (fun _ => k))
  (at level 61, right associativity).

(** [BaseRepository]: every call opens a connection and runs one
    statement on it. *)
Definition connect (st : statement) : prog unit :=
  fun w => (Ret tt, mk_world (db w) (journal w ++ [st])).

Definition query {A : Type} (f : database -> A) : prog A :=
  fun w => (Ret (f (db w)), w).

Definition update (f : database -> database) : prog unit :=
  fun w => (Ret tt, mk_world (f (db w)) (journal w)).

(** An [int] parameter must fit SQLite's 64-bit INTEGER. *)
Definition sqlite_int (z : Z) : bool :=
  (- 2 ^ 63 <=? z) && (z <? 2 ^ 63).

Definition bind_int (z : Z) : prog unit :=
  if sqlite_int z then ret tt else raise OverflowError.

(** The row id AUTOINCREMENT gives the next row: one more than the
    largest id the table ever held. *)
Definition next_rowid (ids : list Z) (seq : Z) : Z :=
  1 + fold_right Z.max seq ids.

(** *** [PatientDB] and [DoctorDB] *)

Definition get_patient_by_id (patient_id : Z) : prog (option patient_row) :=
  connect (SelectPatientById patient_id) ;;
  bind_int patient_id ;;
  query (fun d => find (fun r => p_id r =? patient_id) (patients d)).

Definition get_doctor_by_id (doctor_id : Z) : prog (option doctor_row) :=
  connect (SelectDoctorById doctor_id) ;;
  bind_int doctor_id ;;
  query (fun d => find (fun r => d_id r =? doctor_id) (doctors d)).

(** The CHECK constraints of the [patients] table. *)
Definition patient_checks (age : Z) (gender : pystr) : bool :=
  (0 <=? age)
  && (pystr_eqb gender (str "Male") || pystr_eqb gender (str "Female")).

(** The INSERT of [save_patient] on the tables. *)
Definition insert_patient (name : pystr) (age : Z)
  (gender phone address : pystr) (d : database) : database :=
  let id := next_rowid (map p_id (patients d)) (patients_seq d) in
  mk_database (users d)
    (patients d
       ++ [mk_patient id name age gender (Some phone) (Some address)])
    (doctors d) (appointments d) id (appointments_seq d).

Definition save_patient (name : pystr) (age : Z)
  (gender phone address : pystr) : prog unit :=
  connect (InsertPatient name age gender phone address) ;;
  bind_int age ;;
  ok <- query (fun _ => patient_checks age gender) ;;
  if ok then update (insert_patient name age gender phone address)
  else raise IntegrityError.

(** *** [AppointmentDB] *)

(** The WHERE clause of the availability query. *)
Definition scheduled_at (doctor_id : Z) (appt_datetime : pystr)
  (r : appointment_row) : bool :=
  (a_doctor_id r =? doctor_id)
  && pystr_eqb (a_appt_datetime r) appt_datetime
  && pystr_eqb (a_status r) (str "Scheduled").

Definition count_scheduled (doctor_id : Z) (appt_datetime : pystr)
  (d : database) : Z :=
  Z.of_nat
    (List.length (filter (scheduled_at doctor_id appt_datetime)
       (appointments d))).

Definition is_doctor_available (doctor_id : Z) (appt_datetime : pystr)
  : prog bool :=
  connect (CountScheduled doctor_id appt_datetime) ;;
  bind_int doctor_id ;;
  row <- query (fun d => Some (count_scheduled doctor_id appt_datetime d)) ;;
  ret (match row with
       | Some n => n =? 0
       | None => true
       end).

(** The foreign keys of the [appointments] table, which the connection
    enforces. *)
Definition foreign_keys (patient_id doctor_id : Z) (d : database) : bool :=
  existsb (fun r => p_id r =? patient_id) (patients d)
  && existsb (fun r => d_id r =? doctor_id) (doctors d).

(** The INSERT of [save_appointment] on the tables; the status column
    takes its default. *)
Definition insert_appointment (patient_id doctor_id : Z)
  (appt_datetime reason : pystr) (d : database) : database :=
  let id := next_rowid (map a_id (appointments d)) (appointments_seq d) in
  mk_database (users d) (patients d) (doctors d)
    (appointments d
       ++ [mk_appointment id patient_id doctor_id appt_datetime
             (Some reason) (str "Scheduled")])
    (patients_seq d) id.

Definition save_appointment (patient_id doctor_id : Z)
  (appt_datetime reason : pystr) : prog unit :=
  connect (InsertAppointment patient_id doctor_id appt_datetime reason) ;;
  bind_int patient_id ;;
  bind_int doctor_id ;;
  ok <- query (foreign_keys patient_id doctor_id) ;;
  if ok
  then update (insert_appointment patient_id doctor_id appt_datetime reason)
  else raise IntegrityError.

(** ** Controllers *)

(** A tuple or row is true when there is one. *)
Definition truthy {A : Type} (row : option A) : bool :=
  match row with
  | Some _ => true
  | None => false
  end.

(** *** [PatientController] *)

Definition validate_patient_data (name age gender : pystr)
  : outcome (bool * string) :=
  match strip name with
  | [] => Ret (false, "Name is required."%string)
  | _ :: _ =>
      if negb (isdigit age) then Ret (false, "Age must be a number."%string)
      else
        age_int <~ py_int age;
        if (age_int <? 0) || (120 <? age_int)
        then Ret (false, "Age must be between 0 and 120."%string)
        else if negb (pystr_eqb gender (str "Male")
                      || pystr_eqb gender (str "Female"))
        then Ret (false, "Gender must be Male or Female."%string)
        else Ret (true, ""%string)
  end.

Definition register_patient (name age gender phone address : pystr)
  : prog (bool * string) :=
  r <- lift (validate_patient_data name age gender) ;;
  if negb (fst r) then ret (false, snd r)
  else
    age_int <- lift (py_int age) ;;
    save_patient (strip name) age_int gender (strip phone) (strip address) ;;
    ret (true, "Patient registered successfully."%string).

(** *** [AppointmentController] *)

Definition validate_datetime (dt_str : pystr) : outcome (bool * string) :=
  match Strptime.strptime dt_str with
  | Ret _ => Ret (true, ""%string)
  | Exc ValueError =>
      Ret (false, "Invalid date/time format. Use: YYYY-MM-DD HH:MM"%string)
  | Exc e => Exc e
  end.

Definition schedule_appointment
  (patient_id doctor_id appt_datetime reason : pystr)
  : prog (bool * string) :=
  if negb (isdigit patient_id)
  then ret (false, "Patient ID must be a number."%string)
  else if negb (isdigit doctor_id)
  then ret (false, "Doctor ID must be a number."%string)
  else
    pid <- lift (py_int patient_id) ;;
    did <- lift (py_int doctor_id) ;;
    patient <- get_patient_by_id pid ;;
    if negb (truthy patient) then ret (false, "Patient not found."%string)
    else
      doctor <- get_doctor_by_id did ;;
      if negb (truthy doctor) then ret (false, "Doctor not found."%string)
      else
        r <- lift (validate_datetime appt_datetime) ;;
        if negb (fst r) then ret (false, snd r)
        else
          available <- is_doctor_available did appt_datetime ;;
          if negb available
          then ret (false,
                 "This doctor is not available at the selected time."%string)
          else
            save_appointment pid did appt_datetime (strip reason) ;;
            ret (true, "Appointment scheduled successfully."%string).

(** ** The program as a state machine *)

(** The two menu actions that write to the store. *)
Inductive action : Type :=
| Register (name age gender phone address : pystr)
| Schedule (patient_id doctor_id appt_datetime reason : pystr).

Definition run (a : action) : prog (bool * string) :=
  match a with
  | Register name age gender phone address =>
      register_patient name age gender phone address
  | Schedule patient_id doctor_id appt_datetime reason =>
      schedule_appointment patient_id doctor_id appt_datetime reason
  end.

(** The states the program reaches from a store whose [appointments]
    table has just been created. *)
Inductive reachable : world -> Prop :=
| reachable_fresh w : appointments (db w) = [] -> reachable w
| reachable_run w a : reachable w -> reachable (snd (run a w)).

(** ** Notions the properties are stated with *)

(** The check [schedule_appointment] makes on an id token: the
    [isdigit] guard, then [int].  [Ret None] is the guard's refusal. *)
Definition parse_identifier (token : pystr) : outcome (option Z) :=
  if negb (isdigit token) then Ret None
  else n <~ py_int token; Ret (Some n).

(** A token that [int] turns into an integer the store can hold. *)
Definition storable_id (token : pystr) : bool :=
  match py_int token with
  | Ret n => sqlite_int n
  | Exc _ => false
  end.

(** The six checks of the scheduling pipeline, in the order the
    specification lists them, and the message each one fails with. *)
Inductive check : Type :=
| PatientIdFormat
| DoctorIdFormat
| PatientExists
| DoctorExists
| DateTimeFormat
| Availability.

Definition check_order : list check :=
  [PatientIdFormat; DoctorIdFormat; PatientExists; DoctorExists;
   DateTimeFormat; Availability].

Definition message_of (c : check) : string :=
  match c with
  | PatientIdFormat => "Patient ID must be a number."
  | DoctorIdFormat => "Doctor ID must be a number."
  | PatientExists => "Patient not found."
  | DoctorExists => "Doctor not found."
  | DateTimeFormat => "Invalid date/time format. Use: YYYY-MM-DD HH:MM"
  | Availability => "This doctor is not available at the selected time."
  end.

Definition success_message : string := "Appointment scheduled successfully.".

(** Whether a check, taken on its own, passes for the given tokens in
    the given state. *)
Definition passes (patient_id doctor_id appt_datetime : pystr) (w : world)
  (c : check) : bool :=
  match c with
  | PatientIdFormat => isdigit patient_id
  | DoctorIdFormat => isdigit doctor_id
  | PatientExists =>
      match py_int patient_id with
      | Ret pid =>
          match fst (get_patient_by_id pid w) with
          | Ret row => truthy row
          | Exc _ => false
          end
      | Exc _ => false
      end
  | DoctorExists =>
      match py_int doctor_id with
      | Ret did =>
          match fst (get_doctor_by_id did w) with
          | Ret row => truthy row
          | Exc _ => false
          end
      | Exc _ => false
      end
  | DateTimeFormat =>
      match validate_datetime appt_datetime with
      | Ret r => fst r
      | Exc _ => false
      end
  | Availability =>
      match py_int doctor_id with
      | Ret did =>
          match fst (is_doctor_available did appt_datetime w) with
          | Ret b => b
          | Exc _ => false
          end
      | Exc _ => false
      end
  end.

(** The first check of the list that does not pass, and the result the
    pipeline gives for it. *)
Definition first_failure (patient_id doctor_id appt_datetime : pystr)
  (w : world) : option check :=
  find (fun c => negb (passes patient_id doctor_id appt_datetime w c))
    check_order.

Definition verdict (failure : option check) : bool * string :=
  match failure with
  | Some c => (false, message_of c)
  | None => (true, success_message)
  end.

(** The identifier contract as the specification words it: the check
    succeeds with a positive integer exactly on the non-empty tokens of
    decimal digits. *)
Definition identifier_contract (token : pystr) : Prop :=
  (exists n, parse_identifier token = Ret (Some n) /\ 0 < n)
  <-> isdecimal token = true.

(** *** The date and time pattern *)

Definition hyphen : pychar := chr "-".
Definition colon : pychar := chr ":".
Definition blank : pychar := chr " ".

Definition between (lo hi : ascii) (c : pychar) : bool :=
  (chr lo <=? c)%N && (c <=? chr hi)%N.

Definition ascii_digit (c : pychar) : bool := between "0" "9" c.

Definition digit_val (c : pychar) : Z := Z.of_N c - 48.

Definition two_digits (a b : pychar) : Z := 10 * digit_val a + digit_val b.

(** Length of a month of the Gregorian calendar. *)
Definition month_length (y m : Z) : Z :=
  if m =? 2 then
    if (y mod 400 =? 0) || ((y mod 4 =? 0) && negb (y mod 100 =? 0))
    then 29 else 28
  else if (m =? 4) || (m =? 6) || (m =? 9) || (m =? 11) then 30
  else 31.

(** The fixed pattern [YYYY-MM-DD HH:MM] as the specification words it:
    sixteen characters, zero-padded ASCII fields, month 01-12, day
    01-31, hour 00-23, minute 00-59, one blank, and a day that the
    month has. *)
Definition strict_pattern (t : pystr) : bool :=
  match t with
  | [y1; y2; y3; y4; s1; m1; m2; s2; d1; d2; s3; h1; h2; s4; n1; n2] =>
      forallb ascii_digit [y1; y2; y3; y4; m1; m2; d1; d2; h1; h2; n1; n2]
      && N.eqb s1 hyphen && N.eqb s2 hyphen && N.eqb s3 blank
      && N.eqb s4 colon
      && (1 <=? two_digits m1 m2) && (two_digits m1 m2 <=? 12)
      && (1 <=? two_digits d1 d2) && (two_digits d1 d2 <=? 31)
      && (two_digits h1 h2 <=? 23) && (two_digits n1 n2 <=? 59)
      && (two_digits d1 d2
          <=? month_length
                (100 * two_digits y1 y2 + two_digits y3 y4)
                (two_digits m1 m2))
  | _ => false
  end.

(** The date-time contract as the specification words it: a token is
    accepted exactly when it has the fixed pattern with calendar-valid
    fields. *)
Definition datetime_contract (t : pystr) : Prop :=
  validate_datetime t = Ret (true, ""%string) <-> strict_pattern t = true.

(** The year a token of the fixed pattern names. *)
Definition year_of (t : pystr) : Z :=
  match t with
  | y1 :: y2 :: y3 :: y4 :: _ => 100 * two_digits y1 y2 + two_digits y3 y4
  | _ => 0
  end.

(** The texts the five fields may have for [strptime]. *)
Definition year_text (f : pystr) : bool :=
  match f with
  | [_; _; _; _] => forallb Unicode.isdecimal f
  | _ => false
  end.

Definition month_text (f : pystr) : bool :=
  match f with
  | [a] => between "1" "9" a
  | [a; b] =>
      (N.eqb a (chr "1") && between "0" "2" b)
      || (N.eqb a (chr "0") && between "1" "9" b)
  | _ => false
  end.

Definition day_text (f : pystr) : bool :=
  match f with
  | [a] => between "1" "9" a
  | [a; b] =>
      (N.eqb a (chr "3") && between "0" "1" b)
      || (between "1" "2" a && Unicode.isdecimal b)
      || (N.eqb a (chr "0") && between "1" "9" b)
      || (N.eqb a blank && between "1" "9" b)
  | _ => false
  end.

Definition hour_text (f : pystr) : bool :=
  match f with
  | [a] => Unicode.isdecimal a
  | [a; b] =>
      (N.eqb a (chr "2") && between "0" "3" b)
      || (between "0" "1" a && Unicode.isdecimal b)
  | _ => false
  end.

Definition minute_text (f : pystr) : bool :=
  match f with
  | [a] => Unicode.isdecimal a
  | [a; b] => between "0" "5" a && Unicode.isdecimal b
  | _ => false
  end.

Definition blank_text (f : pystr) : bool :=
  match f with
  | [] => false
  | _ => forallb Unicode.isspace f
  end.

(** The tokens [strptime] reads with the program's format: the five
    fields in their texts, a run of white space between day and hour,
    a year from 1 on and a day that the month has. *)
Definition lenient_pattern (t : pystr) : Prop :=
  exists fY fm fd ws fH fM y m dy,
    t = fY ++ hyphen :: fm ++ hyphen :: fd ++ ws ++ fH ++ colon :: fM
    /\ year_text fY = true /\ month_text fm = true /\ day_text fd = true
    /\ blank_text ws = true /\ hour_text fH = true
    /\ minute_text fM = true
    /\ py_int fY = Ret y /\ py_int fm = Ret m /\ py_int fd = Ret dy
    /\ 1 <= y /\ dy <= Strptime.days_in_month y m.

(** *** A clinic to run examples in *)

(** The store [setup_database] leaves on a new file, after one patient
    has been registered. *)
Definition default_users : list user_row :=
  [mk_user 1 (str "admin")
     (str "240be518fabd2724ddb6f04eeb1da5967448d7e831c08c8fa822809f74c720a9")
     (str "admin");
   mk_user 2 (str "reception")
     (str "5d37ed314cf2b5c8462b52b12cd512e2ac4a180e75598da4f12bfb0dea6d0a67")
     (str "receptionist");
   mk_user 3 (str "doctor")
     (str "c3362e4da49c24d379b72152ae6c99f1fa035f52829dceed715a7bf8bb464b98")
     (str "doctor")].

Definition default_doctors : list doctor_row :=
  [mk_doctor 1 (str "Dr. Ahmed") (str "General");
   mk_doctor 2 (str "Dr. Sara") (str "Pediatrics");
   mk_doctor 3 (str "Dr. Omar") (str "Dermatology")].

Definition clinic : world :=
  mk_world
    (mk_database default_users
       [mk_patient 1 (str "Lina") 34 (str "Female") (Some (str "0599"))
          (Some [])]
       default_doctors [] 1 0)
    [].

(** U+00B2, superscript two: a digit that is not decimal. *)
Definition superscript_two : pystr := [178%N].

(** *** The paths through [schedule_appointment] *)

(** The journal after further repository calls. *)
Definition logged (w : world) (sts : list statement) : world :=
  mk_world (db w) (journal w ++ sts).

Definition patient_row_of (pid : Z) (w : world) : option patient_row :=
  find (fun r => p_id r =? pid) (patients (db w)).

Definition doctor_row_of (did : Z) (w : world) : option doctor_row :=
  find (fun r => d_id r =? did) (doctors (db w)).

(** [schedules p d t r w o w'] : the call with tokens [p], [d], [t] and
    reason [r] in state [w] ends with outcome [o] in state [w'].  One
    constructor per way through the function. *)
Inductive schedules (p d t r : pystr) (w : world)
  : outcome (bool * string) -> world -> Prop :=
| sch_patient_format :
    isdigit p = false ->
    schedules p d t r w (Ret (false, message_of PatientIdFormat)) w
| sch_doctor_format :
    isdigit p = true -> isdigit d = false ->
    schedules p d t r w (Ret (false, message_of DoctorIdFormat)) w
| sch_patient_int e :
    isdigit p = true -> isdigit d = true -> py_int p = Exc e ->
    schedules p d t r w (Exc e) w
| sch_doctor_int pid e :
    isdigit p = true -> isdigit d = true ->
    py_int p = Ret pid -> py_int d = Exc e ->
    schedules p d t r w (Exc e) w
| sch_patient_overflow pid did :
    isdigit p = true -> isdigit d = true ->
    py_int p = Ret pid -> py_int d = Ret did ->
    sqlite_int pid = false ->
    schedules p d t r w (Exc OverflowError)
      (logged w [SelectPatientById pid])
| sch_patient_missing pid did :
    isdigit p = true -> isdigit d = true ->
    py_int p = Ret pid -> py_int d = Ret did ->
    sqlite_int pid = true -> patient_row_of pid w = None ->
    schedules p d t r w (Ret (false, message_of PatientExists))
      (logged w [SelectPatientById pid])
| sch_doctor_overflow pid did prow :
    isdigit p = true -> isdigit d = true ->
    py_int p = Ret pid -> py_int d = Ret did ->
    sqlite_int pid = true -> patient_row_of pid w = Some prow ->
    sqlite_int did = false ->
    schedules p d t r w (Exc OverflowError)
      (logged w [SelectPatientById pid; SelectDoctorById did])
| sch_doctor_missing pid did prow :
    isdigit p = true -> isdigit d = true ->
    py_int p = Ret pid -> py_int d = Ret did ->
    sqlite_int pid = true -> patient_row_of pid w = Some prow ->
    sqlite_int did = true -> doctor_row_of did w = None ->
    schedules p d t r w (Ret (false, message_of DoctorExists))
      (logged w [SelectPatientById pid; SelectDoctorById did])
| sch_datetime_format pid did prow drow :
    isdigit p = true -> isdigit d = true ->
    py_int p = Ret pid -> py_int d = Ret did ->
    sqlite_int pid = true -> patient_row_of pid w = Some prow ->
    sqlite_int did = true -> doctor_row_of did w = Some drow ->
    validate_datetime t = Ret (false, message_of DateTimeFormat) ->
    schedules p d t r w (Ret (false, message_of DateTimeFormat))
      (logged w [SelectPatientById pid; SelectDoctorById did])
| sch_unavailable pid did prow drow :
    isdigit p = true -> isdigit d = true ->
    py_int p = Ret pid -> py_int d = Ret did ->
    sqlite_int pid = true -> patient_row_of pid w = Some prow ->
    sqlite_int did = true -> doctor_row_of did w = Some drow ->
    validate_datetime t = Ret (true, ""%string) ->
    count_scheduled did t (db w) <> 0 ->
    schedules p d t r w (Ret (false, message_of Availability))
      (logged w [SelectPatientById pid; SelectDoctorById did;
                 CountScheduled did t])
| sch_saved pid did prow drow :
    isdigit p = true -> isdigit d = true ->
    py_int p = Ret pid -> py_int d = Ret did ->
    sqlite_int pid = true -> patient_row_of pid w = Some prow ->
    sqlite_int did = true -> doctor_row_of did w = Some drow ->
    validate_datetime t = Ret (true, ""%string) ->
    count_scheduled did t (db w) = 0 ->
    schedules p d t r w (Ret (true, success_message))
      (mk_world (insert_appointment pid did t (strip r) (db w))
         (journal w
            ++ [SelectPatientById pid; SelectDoctorById did;
                CountScheduled did t;
                InsertAppointment pid did t (strip r)])).

(** [later w w'] : the program gets from state [w] to state [w'] by
    running actions. *)
Inductive later (w : world) : world -> Prop :=
| later_now : later w w
| later_run w' a : later w w' -> later w (snd (run a w')).

(** *** Helpers of the proofs *)

(** No range of the first list meets a range of the second. *)
Definition disjoint_ranges (rs1 rs2 : list (N * N)) : bool :=
  forallb
    (fun r1 =>
       forallb (fun r2 => (snd r1 <? fst r2)%N || (snd r2 <? fst r1)%N) rs2)
    rs1.

(** The value of a digit, zero for other characters. *)
Definition decimal_of (c : pychar) : Z :=
  match Unicode.todecimal c with
  | Some v => v
  | None => 0
  end.

(** The number a run of decimal digits writes, continuing from [acc]. *)
Definition digits_value (s : pystr) (acc : Z) : Z :=
  fold_left (fun a c => 10 * a + decimal_of c) s acc.

(** ** What the rows the program writes look like *)

(** An appointment row as [schedule_appointment] writes it, in a
    database [d]: status Scheduled, a date-time string that
    [validate_datetime] accepts, a reason without white space at its
    ends, and ids that SQLite holds and that name a patient and a doctor
    of [d]. *)
Definition appointment_ok (d : database) (a : appointment_row) : Prop :=
  a_status a = str "Scheduled"
  /\ validate_datetime (a_appt_datetime a) = Ret (true, ""%string)
  /\ (exists r, a_reason a = Some r /\ strip r = r)
  /\ sqlite_int (a_patient_id a) = true
  /\ sqlite_int (a_doctor_id a) = true
  /\ existsb (fun r => p_id r =? a_patient_id a) (patients d) = true
  /\ existsb (fun r => d_id r =? a_doctor_id a) (doctors d) = true.

(** A patient row as [register_patient] writes it: a name that is not
    empty and has no white space at its ends, an age from 0 to 120, a
    gender the table allows, phone and address without white space at
    their ends. *)
Definition patient_ok (p : patient_row) : Prop :=
  p_name p <> [] /\ strip (p_name p) = p_name p
  /\ 0 <= p_age p <= 120
  /\ (p_gender p = str "Male" \/ p_gender p = str "Female")
  /\ (exists t, p_phone p = Some t /\ strip t = t)
  /\ (exists t, p_address p = Some t /\ strip t = t).

(** Row ids grow along the table and stay within the counter. *)
Definition ids_increase (ids : list Z) (seq : Z) : Prop :=
  StronglySorted Z.lt ids /\ Forall (fun i => i <= seq) ids.

(** ** Listings *)

(** ORDER BY: insertion sort, [before x y] telling that [x] may come
    before [y]; rows that compare equal keep the order of the table.
    The statements of the listings are not entered in the journal. *)
Fixpoint insert_by {A : Type} (before : A -> A -> bool) (x : A) (l : list A)
  : list A :=
  match l with
  | [] => [x]
  | y :: l' => if before x y then x :: l else y :: insert_by before x l'
  end.

Definition order_by {A : Type} (before : A -> A -> bool) (l : list A)
  : list A :=
  fold_right (insert_by before) [] l.

(** The rows [list_patients] selects: id, name, age, gender. *)
Definition patient_line : Type := Z * pystr * Z * pystr.

Definition patient_line_of (r : patient_row) : patient_line :=
  (p_id r, p_name r, p_age r, p_gender r).

Definition patient_line_id (l : patient_line) : Z := fst (fst (fst l)).

(** [PatientDB.list_patients]: ORDER BY id DESC. *)
Definition list_patients : prog (list patient_line) :=
  query (fun d =>
    order_by (fun a b => patient_line_id b <=? patient_line_id a)
      (map patient_line_of (patients d))).

(** The rows [list_doctors] selects: id, name, specialty. *)
Definition doctor_line : Type := Z * pystr * pystr.

Definition doctor_line_of (r : doctor_row) : doctor_line :=
  (d_id r, d_name r, d_specialty r).

Definition doctor_line_id (l : doctor_line) : Z := fst (fst l).

(** [DoctorDB.list_doctors]: ORDER BY id. *)
Definition list_doctors : prog (list doctor_line) :=
  query (fun d =>
    order_by (fun a b => doctor_line_id a <=? doctor_line_id b)
      (map doctor_line_of (doctors d))).

(** Order of TEXT values: code point by code point, a prefix first. *)
Fixpoint text_compare (a b : pystr) : comparison :=
  match a, b with
  | [], [] => Eq
  | [], _ :: _ => Lt
  | _ :: _, [] => Gt
  | x :: a', y :: b' =>
      match N.compare x y with
      | Eq => text_compare a' b'
      | c => c
      end
  end.

Definition text_le (a b : pystr) : bool :=
  match text_compare a b with
  | Gt => false
  | _ => true
  end.

(** The rows [list_appointments] selects: the appointment's id, the
    patient's name, the doctor's name, the date-time string, the
    status. *)
Definition appointment_line : Type := Z * pystr * pystr * pystr * pystr.

Definition appointment_line_id (l : appointment_line) : Z :=
  fst (fst (fst (fst l))).

Definition appointment_line_datetime (l : appointment_line) : pystr :=
  snd (fst l).

(** The two JOINs: an appointment gives a row for each patient row and
    doctor row with its ids. *)
Definition joined_appointments (d : database) : list appointment_line :=
  flat_map
    (fun a =>
       flat_map
         (fun p =>
            map
              (fun dr =>
                 (a_id a, p_name p, d_name dr, a_appt_datetime a, a_status a))
              (filter (fun dr => d_id dr =? a_doctor_id a) (doctors d)))
         (filter (fun p => p_id p =? a_patient_id a) (patients d)))
    (appointments d).

(** [AppointmentDB.list_appointments]: ORDER BY appt_datetime DESC.  SQL
    leaves the order of rows with the same date-time open; here they
    keep the order of the table. *)
Definition list_appointments : prog (list appointment_line) :=
  query (fun d =>
    order_by
      (fun a b =>
         text_le (appointment_line_datetime b) (appointment_line_datetime a))
      (joined_appointments d)).

(** What any answer to the query of [list_appointments] is: the joined
    rows in some order with the date-times descending. *)
Definition appointments_listing (d : database)
  (rows : list appointment_line) : Prop :=
  Permutation rows (joined_appointments d)
  /\ StronglySorted
       (fun a b =>
          text_le (appointment_line_datetime b) (appointment_line_datetime a)
          = true)
       rows.

(** Primary keys: no two rows of a table have the same id. *)
Definition unique_keys (d : database) : Prop :=
  NoDup (map p_id (patients d))
  /\ NoDup (map d_id (doctors d))
  /\ NoDup (map a_id (appointments d)).

(** ** Accounts *)

(** *** [str.encode("utf-8")] and [hashlib.sha256] *)

Module Sha256.

(** [str.encode("utf-8")]: the bytes of each code point. *)
Definition utf8_char (c : pychar) : list N :=
  let tail (k : N) := N.lor 128 (N.land (N.shiftr c k) 63) in
  (if c <? 128 then [c]
   else if c <? 2048 then [N.lor 192 (N.shiftr c 6); tail 0]
   else if c <? 65536 then [N.lor 224 (N.shiftr c 12); tail 6; tail 0]
   else [N.lor 240 (N.shiftr c 18); tail 12; tail 6; tail 0])%N.

Definition utf8 (s : pystr) : list N := flat_map utf8_char s.

(** Words of 32 bits. *)
Definition ones : N := 4294967295.

Definition add (x y : N) : N := N.land (x + y) ones.

Definition rotr (n x : N) : N :=
  N.lor (N.shiftr x n) (N.land (N.shiftl x (32 - n)) ones).

Definition ch (x y z : N) : N :=
  N.lxor (N.land x y) (N.land (N.lxor x ones) z).

Definition maj (x y z : N) : N :=
  N.lxor (N.lxor (N.land x y) (N.land x z)) (N.land y z).

Definition bsig0 (x : N) : N :=
  N.lxor (N.lxor (rotr 2 x) (rotr 13 x)) (rotr 22 x).

Definition bsig1 (x : N) : N :=
  N.lxor (N.lxor (rotr 6 x) (rotr 11 x)) (rotr 25 x).

Definition ssig0 (x : N) : N :=
  N.lxor (N.lxor (rotr 7 x) (rotr 18 x)) (N.shiftr x 3).

Definition ssig1 (x : N) : N :=
  N.lxor (N.lxor (rotr 17 x) (rotr 19 x)) (N.shiftr x 10).

(** The round constants. *)
Definition K : list N :=
  [
   1116352408; 1899447441; 3049323471; 3921009573; 961987163; 1508970993;
   2453635748; 2870763221; 3624381080; 310598401; 607225278; 1426881987;
   1925078388; 2162078206; 2614888103; 3248222580; 3835390401; 4022224774;
   264347078; 604807628; 770255983; 1249150122; 1555081692; 1996064986;
   2554220882; 2821834349; 2952996808; 3210313671; 3336571891; 3584528711;
   113926993; 338241895; 666307205; 773529912; 1294757372; 1396182291;
   1695183700; 1986661051; 2177026350; 2456956037; 2730485921; 2820302411;
   3259730800; 3345764771; 3516065817; 3600352804; 4094571909; 275423344;
   430227734; 506948616; 659060556; 883997877; 958139571; 1322822218;
   1537002063; 1747873779; 1955562222; 2024104815; 2227730452; 2361852424;
   2428436474; 2756734187; 3204031479; 3329325298
  ]%N.

(** The eight working variables, and the hash value between blocks. *)
Record registers : Type := mk_registers
  { ra : N; rb : N; rc : N; rd : N; re : N; rf : N; rg : N; rh : N }.

Definition H0 : registers :=
  mk_registers 1779033703 3144134277 1013904242 2773480762
    1359893119 2600822924 528734635 1541459225.

(** The message with its padding: a one bit, zeros up to 56 bytes modulo
    64, the length in bits on eight bytes. *)
Definition be_bytes (n : nat) (x : N) : list N :=
  map (fun i => N.land (N.shiftr x (8 * N.of_nat i)) 255) (rev (seq 0 n)).

Definition pad (msg : list N) : list N :=
  let l := N.of_nat (List.length msg) in
  let zeros := ((119 - l mod 64) mod 64)%N in
  msg ++ [128%N] ++ repeat 0%N (N.to_nat zeros) ++ be_bytes 8 (8 * l).

(** Big-endian words of the bytes. *)
Fixpoint words (bs : list N) : list N :=
  match bs with
  | b0 :: b1 :: b2 :: b3 :: bs' =>
      (N.shiftl b0 24 + N.shiftl b1 16 + N.shiftl b2 8 + b3)%N :: words bs'
  | _ => []
  end.

(** The message schedule: [recent] holds the words so far, the latest
    first, and [n] more are to come. *)
Fixpoint schedule (n : nat) (recent : list N) : list N :=
  match n with
  | O => rev recent
  | S n' =>
      let w i := nth i recent 0%N in
      schedule n'
        (add (add (ssig1 (w 1%nat)) (w 6%nat))
           (add (ssig0 (w 14%nat)) (w 15%nat))
         :: recent)
  end.

Definition round (r : registers) (kw : N * N) : registers :=
  let t1 :=
    add (add (add (rh r) (bsig1 (re r))) (ch (re r) (rf r) (rg r)))
      (add (fst kw) (snd kw)) in
  let t2 := add (bsig0 (ra r)) (maj (ra r) (rb r) (rc r)) in
  mk_registers (add t1 t2) (ra r) (rb r) (rc r) (add (rd r) t1)
    (re r) (rf r) (rg r).

(** One block of sixteen words. *)
Definition compress (h : registers) (block : list N) : registers :=
  let r := fold_left round (combine K (schedule 48 (rev block))) h in
  mk_registers (add (ra h) (ra r)) (add (rb h) (rb r)) (add (rc h) (rc r))
    (add (rd h) (rd r)) (add (re h) (re r)) (add (rf h) (rf r))
    (add (rg h) (rg r)) (add (rh h) (rh r)).

(** The blocks in turn; there are at most [n] of them. *)
Fixpoint blocks (n : nat) (ws : list N) (h : registers) : registers :=
  match n, ws with
  | S n', _ :: _ => blocks n' (skipn 16 ws) (compress h (firstn 16 ws))
  | _, _ => h
  end.

Definition digest (msg : list N) : list N :=
  let ws := words (pad msg) in
  let h := blocks (List.length ws) ws H0 in
  flat_map (be_bytes 4)
    [ra h; rb h; rc h; rd h; re h; rf h; rg h; rh h].

(** [hexdigest]: two lower-case hexadecimal digits a byte. *)
Definition hex_digit (n : N) : pychar :=
  nth (N.to_nat n) (str "0123456789abcdef") 0%N.

Definition hex (bs : list N) : pystr :=
  flat_map (fun b => [hex_digit (N.shiftr b 4); hex_digit (N.land b 15)]) bs.

Definition hexdigest (msg : list N) : pystr := hex (digest msg).

End Sha256.

(** *** [AuthController.hash_password] *)

Definition hash_password (password : pystr) : pystr :=
  Sha256.hexdigest (Sha256.utf8 password).

(** *** [UserDB.find_user], [CurrentUser] and [AuthController.login] *)

(** The row with the user name; the column is UNIQUE. *)
Definition find_user (username : pystr) : prog (option user_row) :=
  query (fun d =>
    find (fun r => pystr_eqb (u_username r) username) (users d)).

Record CurrentUser : Type := mk_CurrentUser
  { user_id : Z; username : pystr; role : pystr }.

Definition login (username password : pystr) : prog (option CurrentUser) :=
  user <- find_user username ;;
  match user with
  | None => ret None
  | Some (mk_user user_id uname stored_hash role) =>
      if negb (pystr_eqb (hash_password password) stored_hash)
      then ret None
      else ret (Some (mk_CurrentUser user_id uname role))
  end.

(** ** Setting up the store *)

(** The database file together with the AUTOINCREMENT counters of the
    [users] and [doctors] tables, which [setup_database] inserts into. *)
Record store : Type := mk_store
  { state : world; users_seq : Z; doctors_seq : Z }.

(** Programs over a state [S] that raise exceptions of [E]. *)
Inductive result (E A : Type) : Type :=
| Returned (a : A)
| Raised (e : E).

Arguments Returned {E A} a.
Arguments Raised {E A} e.

Definition task (S E A : Type) : Type := S -> result E A * S.

Definition pure {S E A : Type} (a : A) : task S E A :=
  fun s => (Returned a, s).

Definition throw {S E A : Type} (e : E) : task S E A :=
  fun s => (Raised e, s).

Definition and_then {S E A B : Type} (m : task S E A)
  (k : A -> task S E B) : task S E B :=
  fun s =>
    match m s with
    | (Returned a, s') => k a s'
    | (Raised e, s') => (Raised e, s')
    end.

Notation "'let*' x := m 'in' k" := (and_then m (fun x => k))
  (at level 10, x name, m at level 100, k at level 200).
Notation "m >> k" := (and_then m (fun _ => k))
  (at level 61, right associativity).

(** [for x in l: body]. *)
Fixpoint for_each {S E A : Type} (l : list A) (body : A -> task S E unit)
  : task S E unit :=
  match l with
  | [] => pure tt
  | x :: l' => body x >> for_each l' body
  end.

(** A repository call on the database of the store. *)
Definition on_database {A : Type} (m : prog A) : task store exn A :=
  fun s =>
    let back w := mk_store w (users_seq s) (doctors_seq s) in
    match m (state s) with
    | (Ret a, w) => (Returned a, back w)
    | (Exc e, w) => (Raised e, back w)
    end.

(** The four [create_table] methods: CREATE TABLE IF NOT EXISTS.  A store
    has the four tables; on a new file they are empty and the counters
    are 0. *)
Definition create_table : task store exn unit := pure tt.

(** The CHECK constraint of the [users] table. *)
Definition role_check (role : pystr) : bool :=
  existsb (pystr_eqb role) [str "admin"; str "doctor"; str "receptionist"].

(** The UNIQUE constraint of the [users] table. *)
Definition username_taken (username : pystr) (d : database) : bool :=
  existsb (fun r => pystr_eqb (u_username r) username) (users d).

(** The INSERT of [create_user] on the store. *)
Definition insert_user (username password_hash role : pystr) (s : store)
  : store :=
  let d := db (state s) in
  let id := next_rowid (map u_id (users d)) (users_seq s) in
  mk_store
    (mk_world
       (mk_database (users d ++ [mk_user id username password_hash role])
          (patients d) (doctors d) (appointments d)
          (patients_seq d) (appointments_seq d))
       (journal (state s)))
    id (doctors_seq s).

Definition create_user (username password_hash role : pystr)
  : task store exn unit :=
  fun s =>
    if negb (username_taken username (db (state s))) && role_check role
    then (Returned tt, insert_user username password_hash role s)
    else (Raised IntegrityError, s).

(** The INSERT of [seed_default_doctors] on the store. *)
Definition insert_doctor (s : store) (doctor : pystr * pystr) : store :=
  let d := db (state s) in
  let id := next_rowid (map d_id (doctors d)) (doctors_seq s) in
  mk_store
    (mk_world
       (mk_database (users d) (patients d)
          (doctors d ++ [mk_doctor id (fst doctor) (snd doctor)])
          (appointments d) (patients_seq d) (appointments_seq d))
       (journal (state s)))
    (users_seq s) id.

Definition seed_default_doctors : task store exn unit :=
  fun s =>
    let row := Some (Z.of_nat (List.length (doctors (db (state s))))) in
    match row with
    | Some n =>
        if n =? 0
        then
          let doctors :=
            [(str "Dr. Ahmed", str "General");
             (str "Dr. Sara", str "Pediatrics");
             (str "Dr. Omar", str "Dermatology")] in
          (Returned tt, fold_left insert_doctor doctors s)
        else (Returned tt, s)
    | None => (Returned tt, s)
    end.

(** [try: m except sqlite3.IntegrityError: pass]. *)
Definition except_integrity_error {S : Type} (m : task S exn unit)
  : task S exn unit :=
  fun s =>
    match m s with
    | (Raised IntegrityError, s') => (Returned tt, s')
    | r => r
    end.

(** The default accounts: user name, password, role. *)
Definition defaults : list (pystr * pystr * pystr) :=
  [(str "admin", str "admin123", str "admin");
   (str "reception", str "recep123", str "receptionist");
   (str "doctor", str "doc123", str "doctor")].

Definition setup_database : task store exn unit :=
  create_table >>
  create_table >>
  create_table >>
  create_table >>
  seed_default_doctors >>
  for_each defaults
    (fun '(u, p, r) =>
       except_integrity_error (create_user u (hash_password p) r)).


(** *** Notions of the account properties *)

(** The tables of a store. *)
Definition tables (s : store) : database := db (state s).

(** The UNIQUE constraint kept: no two rows have the same user name. *)
Definition unique_usernames (d : database) : Prop :=
  NoDup (map u_username (users d)).

(** A file on which the tables have just been created. *)
Definition new_file : store :=
  mk_store (mk_world (mk_database [] [] [] [] 0 0) []) 0 0.

(** What a turn of the loop of [setup_database] leaves: the account is
    inserted unless a constraint refuses it. *)
Definition ensure_account (s : store) (account : pystr * pystr * pystr)
  : store :=
  let '(u, p, r) := account in
  if negb (username_taken u (tables s)) && role_check r
  then insert_user u (hash_password p) r s
  else s.

(** The rows [seed_default_doctors] gives an empty table whose counter is
    [c]. *)
Definition seeded_doctors (c : Z) : list doctor_row :=
  [mk_doctor (c + 1) (str "Dr. Ahmed") (str "General");
   mk_doctor (c + 2) (str "Dr. Sara") (str "Pediatrics");
   mk_doctor (c + 3) (str "Dr. Omar") (str "Dermatology")].

(** The row of a user name, as [find_user] selects it. *)
Definition user_named (u : pystr) (s : store) : option user_row :=
  find (fun r => pystr_eqb (u_username r) u) (users (tables s)).

(** A row made from one of the default accounts. *)
Definition default_row (row : user_row) : Prop :=
  exists p,
    In (u_username row, p, u_role row) defaults
    /\ u_password_hash row = hash_password p.

(** Everything but the [users] and [doctors] tables and their counters
    is the same in two stores. *)
Definition same_records (s s' : store) : Prop :=
  patients (tables s') = patients (tables s)
  /\ appointments (tables s') = appointments (tables s)
  /\ patients_seq (tables s') = patients_seq (tables s)
  /\ appointments_seq (tables s') = appointments_seq (tables s)
  /\ journal (state s') = journal (state s).

(** ** The console *)

(** What the program does at the terminal, oldest first. *)
Inductive event : Type :=
| Printed (text : pystr)
| Asked (prompt : pystr)
| AskedPassword (prompt : pystr).

(** The terminal: the lines the user types, not yet read, and what the
    program has done there.  [input] and [getpass] read the lines typed
    at the terminal in turn. *)
Record console : Type := mk_console
  { unread : list pystr; shown : list event }.

Record session : Type := mk_session
  { files : store; terminal : console }.

(** The exceptions of the layers below, and the end of the input. *)
Inductive error : Type :=
| Python (e : exn)
| EOFError.

Definition ui (A : Type) : Type := task session error A.

Definition at_terminal (e : event) (s : session) (rest : list pystr)
  : session :=
  mk_session (files s) (mk_console rest (shown (terminal s) ++ [e])).

Definition print (text : pystr) : ui unit :=
  fun s => (Returned tt, at_terminal (Printed text) s (unread (terminal s))).

(** Reading a line after a prompt. *)
Definition read_line (e : event) : ui pystr :=
  fun s =>
    match unread (terminal s) with
    | [] => (Raised EOFError, at_terminal e s [])
    | line :: rest => (Returned line, at_terminal e s rest)
    end.

Definition input (prompt : pystr) : ui pystr := read_line (Asked prompt).

Definition getpass (prompt : pystr) : ui pystr := read_line (AskedPassword prompt).

(** A call of a controller or a repository. *)
Definition call {A : Type} (m : prog A) : ui A :=
  fun s =>
    let back t := mk_session t (terminal s) in
    match on_database m (files s) with
    | (Returned a, t) => (Returned a, back t)
    | (Raised e, t) => (Raised (Python e), back t)
    end.

(** Pieces of the texts: the line feed, U+2705 and U+274C. *)
Definition nl : pystr := [10%N].
Definition check_mark : pystr := [9989%N].
Definition cross_mark : pystr := [10060%N].

(** An integer in an f-string. *)
Definition decimal (z : Z) : pystr :=
  str (NilZero.string_of_int (Z.to_int z)).

(** *** [LoginUI] *)

Module LoginUI.

Definition show : ui (option CurrentUser) :=
  print (nl ++ str "=== Login ===") >>
  let* typed := input (str "Username: ") in
  let* password := getpass (str "Password: ") in
  let* user := call (login (strip typed) password) in
  match user with
  | None =>
      print (cross_mark ++ str " Invalid username or password.") >>
      pure None
  | Some user =>
      print (check_mark ++ str " Welcome " ++ username user
             ++ str " (" ++ role user ++ str ")") >>
      pure (Some user)
  end.

End LoginUI.

(** *** [ClinicMenuUI] *)

Module ClinicMenuUI.

(** [current_user.role not in ("admin", "receptionist")]. *)
Definition may_write (current_user : CurrentUser) : bool :=
  existsb (pystr_eqb (role current_user)) [str "admin"; str "receptionist"].

(** The mark of [ok], a space and the message. *)
Definition marked (r : bool * string) : pystr :=
  (if fst r then check_mark else cross_mark) ++ str " " ++ str (snd r).

Definition list_patients_flow : ui unit :=
  print (nl ++ str "--- Patients ---") >>
  let* rows := call list_patients in
  match rows with
  | [] => print (str "(No patients)")
  | _ :: _ =>
      for_each rows
        (fun '(pid, name, age, gender) =>
           print (str "ID=" ++ decimal pid ++ str " | " ++ name
                  ++ str " | " ++ decimal age ++ str " | " ++ gender))
  end.

Definition list_doctors_flow : ui unit :=
  print (nl ++ str "--- Doctors ---") >>
  let* rows := call list_doctors in
  for_each rows
    (fun '(did, name, specialty) =>
       print (str "ID=" ++ decimal did ++ str " | " ++ name
              ++ str " | " ++ specialty)).

Definition list_appointments_flow : ui unit :=
  print (nl ++ str "--- Appointments ---") >>
  let* rows := call list_appointments in
  match rows with
  | [] => print (str "(No appointments)")
  | _ :: _ =>
      for_each rows
        (fun '(aid, patient_name, doctor_name, appt_dt, status) =>
           print (str "ID=" ++ decimal aid ++ str " | Patient="
                  ++ patient_name ++ str " | Doctor=" ++ doctor_name
                  ++ str " | " ++ appt_dt ++ str " | " ++ status))
  end.

Definition register_patient_flow (current_user : CurrentUser) : ui unit :=
  if negb (may_write current_user)
  then
    print (cross_mark
           ++ str " Access denied. Only admin/receptionist can register patients.")
  else
    print (nl ++ str "--- Register Patient ---") >>
    let* name := input (str "Name: ") in
    let* age := input (str "Age: ") in
    let* gender := input (str "Gender (Male/Female): ") in
    let* phone := input (str "Phone (optional): ") in
    let* address := input (str "Address (optional): ") in
    let* r := call (register_patient name age gender phone address) in
    print (marked r).

Definition schedule_appointment_flow (current_user : CurrentUser)
  : ui unit :=
  if negb (may_write current_user)
  then
    print (cross_mark
           ++ str " Access denied. Only admin/receptionist can schedule appointments.")
  else
    print (nl ++ str "--- Schedule Appointment ---") >>
    list_patients_flow >>
    let* patient_id := input (str "Enter Patient ID: ") in
    list_doctors_flow >>
    let* doctor_id := input (str "Enter Doctor ID: ") in
    let* appt_datetime :=
      input (str "Appointment DateTime (YYYY-MM-DD HH:MM): ") in
    let* reason := input (str "Reason (optional): ") in
    let* r :=
      call (schedule_appointment patient_id doctor_id appt_datetime reason) in
    print (marked r).

(** One turn of the loop of [show_menu]; [true] is [break]. *)
Definition menu_turn (current_user : CurrentUser) : ui bool :=
  print (nl ++ str "=== Clinic Management System ===") >>
  print (str "1) Register Patient") >>
  print (str "2) Schedule Appointment") >>
  print (str "3) List Patients") >>
  print (str "4) List Doctors") >>
  print (str "5) List Appointments") >>
  print (str "0) Logout") >>
  let* typed := input (str "Choose: ") in
  let choice := strip typed in
  if pystr_eqb choice (str "1")
  then register_patient_flow current_user >> pure false
  else if pystr_eqb choice (str "2")
  then schedule_appointment_flow current_user >> pure false
  else if pystr_eqb choice (str "3")
  then list_patients_flow >> pure false
  else if pystr_eqb choice (str "4")
  then list_doctors_flow >> pure false
  else if pystr_eqb choice (str "5")
  then list_appointments_flow >> pure false
  else if pystr_eqb choice (str "0")
  then print (check_mark ++ str " Logged out.") >> pure true
  else print (cross_mark ++ str " Invalid choice.") >> pure false.

(** [while True]: at most [turns] turns of the loop; [None] when they do
    not bring it to its end. *)
Fixpoint while_true (turns : nat) (turn : ui bool) (s : session)
  : option (result error unit * session) :=
  match turns with
  | O => None
  | S turns' =>
      match turn s with
      | (Returned true, s') => Some (Returned tt, s')
      | (Returned false, s') => while_true turns' turn s'
      | (Raised e, s') => Some (Raised e, s')
      end
  end.

(** Every turn reads a line, so there is one turn more than lines at
    most. *)
Definition show_menu (current_user : CurrentUser) (s : session)
  : option (result error unit * session) :=
  while_true (S (List.length (unread (terminal s))))
    (menu_turn current_user) s.

End ClinicMenuUI.

(** *** Notions of the console properties *)

(** [keeps R E m]: whatever the state, [m] takes it to a state related
    to it by [R], and raises only exceptions of [E]. *)
Definition keeps {A : Type} (R : session -> session -> Prop)
  (E : error -> Prop) (m : ui A) : Prop :=
  forall s, R s (snd (m s)) /\ forall e, fst (m s) = Raised e -> E e.

(** The store is as it was, and no line has been put back. *)
Definition store_kept (s s' : session) : Prop :=
  files s' = files s
  /\ (List.length (unread (terminal s'))
      <= List.length (unread (terminal s)))%nat.

(** The store has changed by registrations and bookings at most, and no
    line has been put back. *)
Definition store_run (s s' : session) : Prop :=
  later (state (files s)) (state (files s'))
  /\ users_seq (files s') = users_seq (files s)
  /\ doctors_seq (files s') = doctors_seq (files s)
  /\ (List.length (unread (terminal s'))
      <= List.length (unread (terminal s)))%nat.

(** A state with the same store and unread lines, and more shown. *)
Definition shown_more (s : session) (more : list event) : session :=
  mk_session (files s)
    (mk_console (unread (terminal s)) (shown (terminal s) ++ more)).

(** The last thing done at the terminal. *)
Definition last_shown (s : session) : option event :=
  last (map Some (shown (terminal s))) None.

(** The exceptions that get out of the menu. *)
Definition may_escape (e : error) : Prop :=
  e = EOFError \/ e = Python ValueError \/ e = Python OverflowError.

(** A session of a user with the role of a doctor, who types five menu
    choices. *)
Definition a_doctor : CurrentUser :=
  mk_CurrentUser 3 (str "doctor") (str "doctor").

Definition doctor_session : session :=
  mk_session (mk_store clinic 3 3)
    (mk_console [str "1"; str "2"; str "3"; str "9"; str "0"] []).

(** * Properties *)

#[global] Arguments Unicode.isdecimal : simpl never.
#[global] Arguments Unicode.isdigit : simpl never.
#[global] Arguments Unicode.isspace : simpl never.
#[global] Arguments Unicode.todecimal : simpl never.
#[global] Arguments decimal_of : simpl never.
#[global] Opaque int_max_str_digits.

(** ** Character classes *)

Lemma pystr_eqb_eq (a b : pystr) : pystr_eqb a b = true <-> a = b.
Proof.
  unfold pystr_eqb. destruct (list_eq_dec N.eq_dec a b); split; intros;
    congruence.
Qed.

Lemma pystr_eqb_refl (a : pystr) : pystr_eqb a a = true.
Proof. now apply pystr_eqb_eq. Qed.

Lemma in_ranges_spec (rs : list (N * N)) (c : pychar) :
  Unicode.in_ranges rs c = true
  <-> exists r, In r rs /\ (fst r <= c /\ c <= snd r)%N.
Proof.
  unfold Unicode.in_ranges, Unicode.in_range. rewrite existsb_exists.
  split; intros [r [Hin H]]; exists r; split; auto.
  - apply andb_true_iff in H. destruct H as [H1 H2].
    apply N.leb_le in H1. apply N.leb_le in H2. auto.
  - apply andb_true_iff. split; apply N.leb_le; tauto.
Qed.

Lemma disjoint_ranges_sound (rs1 rs2 : list (N * N)) (c : pychar) :
  disjoint_ranges rs1 rs2 = true ->
  Unicode.in_ranges rs1 c = true -> Unicode.in_ranges rs2 c = false.
Proof.
  intros Hd H1. destruct (Unicode.in_ranges rs2 c) eqn:H2; auto.
  apply in_ranges_spec in H1. apply in_ranges_spec in H2.
  destruct H1 as [r1 [Hin1 [Ha Hb]]]. destruct H2 as [r2 [Hin2 [Hc He]]].
  unfold disjoint_ranges in Hd. rewrite forallb_forall in Hd.
  specialize (Hd r1 Hin1). rewrite forallb_forall in Hd.
  specialize (Hd r2 Hin2). apply orb_true_iff in Hd.
  destruct Hd as [Hd | Hd]; apply N.ltb_lt in Hd; lia.
Qed.

Lemma isdecimal_isdigit (c : pychar) :
  Unicode.isdecimal c = true -> Unicode.isdigit c = true.
Proof. unfold Unicode.isdigit. intros ->. reflexivity. Qed.

Lemma isdigit_not_space (c : pychar) :
  Unicode.isdigit c = true -> Unicode.isspace c = false.
Proof.
  unfold Unicode.isdigit, Unicode.isdecimal, Unicode.isspace.
  intros H. apply orb_true_iff in H. destruct H as [H | H];
    revert H; apply disjoint_ranges_sound; vm_compute; reflexivity.
Qed.

Lemma isspace_not_decimal (c : pychar) :
  Unicode.isspace c = true -> Unicode.isdecimal c = false.
Proof.
  unfold Unicode.isdecimal, Unicode.isspace.
  apply disjoint_ranges_sound. vm_compute. reflexivity.
Qed.

Lemma isdigit_not_ascii (c : pychar) (a : ascii) :
  Unicode.isdigit (chr a) = false ->
  Unicode.isdigit c = true -> N.eqb c (chr a) = false.
Proof.
  intros Ha Hc. destruct (N.eqb_spec c (chr a)); auto. congruence.
Qed.

Lemma mod_ten_bounds (n : N) : 0 <= Z.of_N (n mod 10) <= 9.
Proof.
  assert (H : (n mod 10 < 10)%N) by (apply N.mod_upper_bound; discriminate).
  remember (n mod 10)%N as k. clear Heqk. lia.
Qed.

Lemma todecimal_isdecimal (c : pychar) :
  Unicode.isdecimal c = true
  <-> exists v, Unicode.todecimal c = Some v /\ 0 <= v <= 9.
Proof.
  unfold Unicode.isdecimal, Unicode.in_ranges, Unicode.todecimal.
  split.
  - intros H. apply existsb_exists in H. destruct H as [r [Hin Hr]].
    destruct (find (Unicode.in_range c) Unicode.decimal_ranges) eqn:E.
    + eexists. split; [reflexivity | apply mod_ten_bounds].
    + apply (find_none _ _ E) in Hin. congruence.
  - intros [v [H _]].
    destruct (find (Unicode.in_range c) Unicode.decimal_ranges) eqn:E;
      [| discriminate].
    apply find_some in E. apply existsb_exists. exists p. exact E.
Qed.

Lemma decimal_of_bounds (c : pychar) : 0 <= decimal_of c <= 9.
Proof.
  unfold decimal_of. destruct (Unicode.todecimal c) as [v |] eqn:E; [| lia].
  assert (H : Unicode.isdecimal c = true).
  { apply todecimal_isdecimal. unfold Unicode.todecimal in *.
    destruct (find (Unicode.in_range c) Unicode.decimal_ranges);
      [| discriminate].
    injection E as <-. eexists. split; [reflexivity |].
    apply mod_ten_bounds. }
  apply todecimal_isdecimal in H. destruct H as [v' [H1 H2]]. congruence.
Qed.

Lemma todecimal_decimal_of (c : pychar) :
  Unicode.isdecimal c = true -> Unicode.todecimal c = Some (decimal_of c).
Proof.
  intros H. apply todecimal_isdecimal in H. destruct H as [v [H _]].
  unfold decimal_of. now rewrite H.
Qed.

Lemma ascii_digit_decimal (c : pychar) :
  ascii_digit c = true ->
  Unicode.isdecimal c = true /\ decimal_of c = digit_val c.
Proof.
  unfold ascii_digit, between. cbn [chr N_of_ascii N_of_digits].
  intros H. apply andb_true_iff in H. destruct H as [H1 H2].
  apply N.leb_le in H1. apply N.leb_le in H2. simpl in H1, H2.
  assert (E : Unicode.todecimal c = Some (digit_val c)).
  { unfold Unicode.todecimal, Unicode.decimal_ranges. cbn [find].
    unfold Unicode.in_range at 1. cbn [fst snd].
    replace (48 <=? c)%N with true by (symmetry; apply N.leb_le; lia).
    replace (c <=? 57)%N with true by (symmetry; apply N.leb_le; lia).
    cbn [andb fst]. f_equal. unfold digit_val.
    rewrite N.mod_small by lia. lia. }
  split.
  - apply todecimal_isdecimal. exists (digit_val c). split; auto.
    unfold digit_val. lia.
  - unfold decimal_of. now rewrite E.
Qed.

(** ** [strip] and [int] *)

Lemma lstrip_all_space (ws s : pystr) (c : pychar) :
  forallb Unicode.isspace ws = true -> Unicode.isspace c = false ->
  lstrip (ws ++ c :: s) = c :: s.
Proof.
  intros Hws Hc. induction ws as [| a ws IH]; cbn [lstrip forallb app] in *.
  - now rewrite Hc.
  - apply andb_true_iff in Hws. destruct Hws as [-> Hws]. auto.
Qed.

Lemma lstrip_digits (s : pystr) :
  forallb Unicode.isdigit s = true -> lstrip s = s.
Proof.
  destruct s as [| c s]; cbn [lstrip forallb]; auto. intros H.
  apply andb_true_iff in H. destruct H as [H _].
  now rewrite (isdigit_not_space _ H).
Qed.

Lemma forallb_rev {A : Type} (f : A -> bool) (l : list A) :
  forallb f l = true -> forallb f (rev l) = true.
Proof.
  rewrite !forallb_forall. intros H x Hx. apply H. now apply in_rev.
Qed.

Lemma strip_digits (s : pystr) :
  forallb Unicode.isdigit s = true -> strip s = s.
Proof.
  intros H. unfold strip, rstrip. rewrite (lstrip_digits s H).
  rewrite (lstrip_digits (rev s)) by now apply forallb_rev.
  apply rev_involutive.
Qed.

Lemma forallb_decimal_digit (s : pystr) :
  forallb Unicode.isdecimal s = true -> forallb Unicode.isdigit s = true.
Proof.
  rewrite !forallb_forall. intros H x Hx. apply isdecimal_isdigit. auto.
Qed.

Lemma isdecimal_isdigit_token (s : pystr) :
  isdecimal s = true -> isdigit s = true.
Proof.
  destruct s; [discriminate |]. unfold isdecimal, isdigit.
  apply forallb_decimal_digit.
Qed.

Lemma digit_not_underscore (c : pychar) :
  Unicode.isdigit c = true -> N.eqb c underscore = false.
Proof. apply isdigit_not_ascii. vm_compute. reflexivity. Qed.

Lemma digit_not_plus (c : pychar) :
  Unicode.isdigit c = true -> N.eqb c plus_sign = false.
Proof. apply isdigit_not_ascii. vm_compute. reflexivity. Qed.

Lemma digit_not_minus (c : pychar) :
  Unicode.isdigit c = true -> N.eqb c minus_sign = false.
Proof. apply isdigit_not_ascii. vm_compute. reflexivity. Qed.

Lemma digits_value_cons (c : pychar) (s : pystr) (acc : Z) :
  digits_value (c :: s) acc = digits_value s (10 * acc + decimal_of c).
Proof. reflexivity. Qed.

Lemma int_digits_decimals (s : pystr) : forall (acc : Z) (n : nat),
  forallb Unicode.isdecimal s = true ->
  int_digits s acc n false
  = Some (digits_value s acc, (n + List.length s)%nat).
Proof.
  induction s as [| c s IH]; intros acc n H;
    cbn [int_digits List.length]; rewrite ?digits_value_cons.
  - now rewrite Nat.add_0_r.
  - cbn [forallb] in H. apply andb_true_iff in H. destruct H as [Hc Hs].
    rewrite (digit_not_underscore c (isdecimal_isdigit c Hc)).
    rewrite (todecimal_decimal_of c Hc). rewrite IH by assumption.
    now rewrite Nat.add_succ_r.
Qed.

Lemma int_digits_inv (s : pystr) : forall (acc : Z) (n : nat) v k,
  forallb Unicode.isdigit s = true ->
  int_digits s acc n false = Some (v, k) ->
  forallb Unicode.isdecimal s = true
  /\ v = digits_value s acc /\ k = (n + List.length s)%nat.
Proof.
  induction s as [| c s IH]; intros acc n v k H E;
    cbn [int_digits List.length forallb] in *; rewrite ?digits_value_cons.
  - injection E as <- <-. now rewrite Nat.add_0_r.
  - apply andb_true_iff in H. destruct H as [Hc Hs].
    rewrite (digit_not_underscore c Hc) in E.
    destruct (Unicode.todecimal c) as [dv |] eqn:Ed; [| discriminate].
    assert (Hdec : Unicode.isdecimal c = true).
    { destruct (Unicode.isdecimal c) eqn:Hd; auto.
      pose proof (todecimal_isdecimal c) as T.
      unfold Unicode.todecimal in Ed, T.
      destruct (find (Unicode.in_range c) Unicode.decimal_ranges) eqn:F;
        [| discriminate].
      apply find_some in F. destruct F as [F1 F2].
      unfold Unicode.isdecimal, Unicode.in_ranges in Hd.
      assert (X : existsb (Unicode.in_range c) Unicode.decimal_ranges = true)
        by (apply existsb_exists; eauto).
      congruence. }
    destruct (IH _ _ _ _ Hs E) as [H1 [H2 H3]].
    rewrite Hdec, H1. repeat split; auto.
    + rewrite H2. unfold decimal_of. now rewrite Ed.
    + rewrite H3. now rewrite Nat.add_succ_r.
Qed.

Lemma digits_value_ge (s : pystr) : forall acc,
  0 <= acc -> acc <= digits_value s acc.
Proof.
  induction s as [| c s IH]; intros acc H; rewrite ?digits_value_cons.
  - cbn. lia.
  - pose proof (decimal_of_bounds c).
    specialize (IH (10 * acc + decimal_of c)). lia.
Qed.

Lemma py_int_decimal (s : pystr) :
  isdecimal s = true -> (List.length s <= int_max_str_digits)%nat ->
  py_int s = Ret (digits_value s 0).
Proof.
  intros H L. destruct s as [| c s]; [discriminate |].
  unfold isdecimal in H. pose proof (forallb_decimal_digit _ H) as Hd.
  unfold py_int. rewrite (strip_digits _ Hd).
  cbn [forallb] in Hd. apply andb_true_iff in Hd. destruct Hd as [Hc _].
  rewrite (digit_not_plus c Hc), (digit_not_minus c Hc).
  unfold int_unsigned. rewrite (digit_not_underscore c Hc).
  rewrite (int_digits_decimals _ 0 0%nat H). cbn [Nat.add].
  destruct (Nat.ltb_spec int_max_str_digits (List.length (c :: s)));
    [lia | reflexivity].
Qed.

Lemma py_int_digits_inv (s : pystr) (n : Z) :
  isdigit s = true -> py_int s = Ret n ->
  isdecimal s = true /\ n = digits_value s 0
  /\ (List.length s <= int_max_str_digits)%nat.
Proof.
  intros H E. destruct s as [| c s]; [discriminate |].
  unfold isdigit in H. unfold py_int in E. rewrite (strip_digits _ H) in E.
  pose proof H as Hd. cbn [forallb] in Hd. apply andb_true_iff in Hd.
  destruct Hd as [Hc _].
  rewrite (digit_not_plus c Hc), (digit_not_minus c Hc) in E.
  unfold int_unsigned in E. rewrite (digit_not_underscore c Hc) in E.
  destruct (int_digits (c :: s) 0 0%nat false) as [[v k] |] eqn:D;
    [| discriminate].
  destruct (int_digits_inv _ _ _ _ _ H D) as [H1 [H2 H3]].
  destruct (Nat.ltb_spec int_max_str_digits k); [discriminate |].
  injection E as <-. unfold isdecimal. repeat split; auto. lia.
Qed.

Lemma int_unsigned_exc (s : pystr) (e : exn) :
  int_unsigned s = Exc e -> e = ValueError.
Proof.
  unfold int_unsigned. destruct s as [| c s]; [congruence |].
  destruct (N.eqb c underscore); [congruence |].
  destruct (int_digits (c :: s) 0 0%nat false) as [[v k] |];
    [| congruence].
  destruct (Nat.ltb int_max_str_digits k); congruence.
Qed.

Lemma py_int_exc (s : pystr) (e : exn) : py_int s = Exc e -> e = ValueError.
Proof.
  unfold py_int. destruct (strip s) as [| c s']; [congruence |].
  destruct (N.eqb c plus_sign); [apply int_unsigned_exc |].
  destruct (N.eqb c minus_sign); [| apply int_unsigned_exc].
  destruct (int_unsigned s') eqn:E; [congruence |].
  intros H. injection H as <-. now apply int_unsigned_exc in E.
Qed.

(** ** [validate_datetime] never raises *)

Lemma strptime_exc (t : pystr) (e : exn) :
  Strptime.strptime t = Exc e -> e = ValueError.
Proof.
  unfold Strptime.strptime.
  destruct (Strptime.re_match Strptime.format_regex t) as [[found rest] |];
    [| congruence].
  destruct rest; [| congruence]. unfold obind.
  repeat match goal with
         | |- context [match py_int ?s with _ => _ end] =>
             let E := fresh "E" in
             destruct (py_int s) eqn:E;
             [| intros H; injection H as <-; now apply py_int_exc in E]
         end.
  match goal with |- context [if ?b then _ else _] => destruct b end;
    congruence.
Qed.

Lemma validate_datetime_total (t : pystr) :
  validate_datetime t = Ret (true, ""%string)
  \/ validate_datetime t = Ret (false, message_of DateTimeFormat).
Proof.
  unfold validate_datetime.
  destruct (Strptime.strptime t) as [dt | e] eqn:E; auto.
  apply strptime_exc in E. subst e. auto.
Qed.

(** ** Repository calls *)

#[global] Arguments py_int : simpl never.
#[global] Arguments isdigit : simpl never.
#[global] Arguments strip : simpl never.
#[global] Arguments validate_datetime : simpl never.
#[global] Arguments count_scheduled : simpl never.
#[global] Arguments sqlite_int : simpl never.
#[global] Arguments insert_appointment : simpl never.
#[global] Arguments insert_patient : simpl never.
#[global] Arguments foreign_keys : simpl never.

Lemma get_patient_by_id_eq (pid : Z) (w : world) :
  get_patient_by_id pid w
  = (if sqlite_int pid then Ret (patient_row_of pid w) else Exc OverflowError,
     logged w [SelectPatientById pid]).
Proof.
  unfold get_patient_by_id, bind, connect, bind_int, query, logged.
  destruct (sqlite_int pid); reflexivity.
Qed.

Lemma get_doctor_by_id_eq (did : Z) (w : world) :
  get_doctor_by_id did w
  = (if sqlite_int did then Ret (doctor_row_of did w) else Exc OverflowError,
     logged w [SelectDoctorById did]).
Proof.
  unfold get_doctor_by_id, bind, connect, bind_int, query, logged.
  destruct (sqlite_int did); reflexivity.
Qed.

Lemma is_doctor_available_eq (did : Z) (t : pystr) (w : world) :
  is_doctor_available did t w
  = (if sqlite_int did then Ret (count_scheduled did t (db w) =? 0)
     else Exc OverflowError,
     logged w [CountScheduled did t]).
Proof.
  unfold is_doctor_available, bind, connect, bind_int, query, logged.
  destruct (sqlite_int did); reflexivity.
Qed.

Lemma save_appointment_eq (pid did : Z) (t r : pystr) (w : world) :
  sqlite_int pid = true -> sqlite_int did = true ->
  foreign_keys pid did (db w) = true ->
  save_appointment pid did t r w
  = (Ret tt,
     mk_world (insert_appointment pid did t r (db w))
       (journal w ++ [InsertAppointment pid did t r])).
Proof.
  intros Hp Hd Hk.
  unfold save_appointment, bind, connect, bind_int, query, update.
  rewrite Hp, Hd. cbn. rewrite Hk. reflexivity.
Qed.

Lemma find_existsb {A : Type} (f : A -> bool) (l : list A) (x : A) :
  find f l = Some x -> existsb f l = true.
Proof.
  intros H. apply find_some in H. apply existsb_exists. eauto.
Qed.

Lemma logged_logged (w : world) (a b : list statement) :
  logged (logged w a) b = logged w (a ++ b).
Proof. unfold logged. cbn. now rewrite <- app_assoc. Qed.

(** ** Every call takes one of the paths *)

Ltac path_done c := injection 1 as <- <-; eapply c; eassumption.

Lemma schedule_appointment_paths (p d t r : pystr) (w : world) o w' :
  schedule_appointment p d t r w = (o, w') -> schedules p d t r w o w'.
Proof.
  unfold schedule_appointment.
  destruct (isdigit p) eqn:Hp; cbn [negb];
    [| path_done sch_patient_format].
  destruct (isdigit d) eqn:Hd; cbn [negb];
    [| path_done sch_doctor_format].
  unfold bind at 1. unfold lift at 1.
  destruct (py_int p) as [pid | e] eqn:Ep;
    [| path_done sch_patient_int].
  unfold bind at 1. unfold lift at 1.
  destruct (py_int d) as [did | e] eqn:Ed;
    [| path_done sch_doctor_int].
  unfold bind at 1. rewrite get_patient_by_id_eq.
  destruct (sqlite_int pid) eqn:Sp;
    [| path_done sch_patient_overflow].
  destruct (patient_row_of pid w) as [prow |] eqn:Fp; cbn [truthy negb];
    [| path_done sch_patient_missing].
  unfold bind at 1. rewrite get_doctor_by_id_eq.
  destruct (sqlite_int did) eqn:Sd; rewrite logged_logged; cbn [app];
    [| path_done sch_doctor_overflow].
  unfold doctor_row_of at 1. cbn [db logged].
  fold (doctor_row_of did w).
  destruct (doctor_row_of did w) as [drow |] eqn:Fd; cbn [truthy negb];
    [| path_done sch_doctor_missing].
  unfold bind at 1. unfold lift at 1.
  destruct (validate_datetime_total t) as [V | V]; rewrite V;
    cbn [fst snd negb];
    [| path_done sch_datetime_format].
  unfold bind at 1. rewrite is_doctor_available_eq. rewrite Sd.
  rewrite logged_logged. cbn [app db logged].
  destruct (Z.eqb_spec (count_scheduled did t (db w)) 0) as [C | C];
    cbn [negb];
    [| path_done sch_unavailable].
  unfold bind at 1. rewrite save_appointment_eq; auto.
  - unfold ret. cbn [db journal logged]. rewrite <- app_assoc. cbn [app].
    path_done sch_saved.
  - unfold foreign_keys, logged. cbn [db]. unfold patient_row_of in Fp.
    unfold doctor_row_of in Fd.
    now rewrite (find_existsb _ _ _ Fp), (find_existsb _ _ _ Fd).
Qed.

Lemma schedule_appointment_schedules (p d t r : pystr) (w : world) :
  schedules p d t r w (fst (schedule_appointment p d t r w))
    (snd (schedule_appointment p d t r w)).
Proof. apply schedule_appointment_paths. apply surjective_pairing. Qed.

(** ** What a call does to the tables *)

Lemma schedules_db (p d t r : pystr) (w : world) o w' :
  schedules p d t r w o w' ->
  (o = Ret (true, success_message)
   /\ exists pid did,
        py_int p = Ret pid /\ py_int d = Ret did
        /\ count_scheduled did t (db w) = 0
        /\ db w' = insert_appointment pid did t (strip r) (db w))
  \/ ((forall m, o <> Ret (true, m)) /\ db w' = db w).
Proof.
  destruct 1; try (right; split; [intros m; discriminate | reflexivity]).
  left. split; [reflexivity |]. exists pid, did. auto.
Qed.

Lemma insert_appointment_tables pid did t r (d : database) :
  users (insert_appointment pid did t r d) = users d
  /\ patients (insert_appointment pid did t r d) = patients d
  /\ doctors (insert_appointment pid did t r d) = doctors d
  /\ patients_seq (insert_appointment pid did t r d) = patients_seq d.
Proof. repeat split. Qed.

Lemma insert_patient_tables name age gender phone address (d : database) :
  users (insert_patient name age gender phone address d) = users d
  /\ doctors (insert_patient name age gender phone address d) = doctors d
  /\ appointments (insert_patient name age gender phone address d)
     = appointments d.
Proof. repeat split. Qed.

Lemma count_scheduled_insert pid did t r (d : database) did' t' :
  count_scheduled did' t' (insert_appointment pid did t r d)
  = count_scheduled did' t' d
    + (if (did =? did') && pystr_eqb t t' then 1 else 0).
Proof.
  unfold count_scheduled, insert_appointment. cbn [appointments].
  rewrite filter_app, length_app, Nat2Z.inj_add. f_equal.
  cbn [filter]. unfold scheduled_at at 1.
  cbn [a_doctor_id a_appt_datetime a_status].
  rewrite pystr_eqb_refl, andb_true_r.
  destruct ((did =? did') && pystr_eqb t t'); reflexivity.
Qed.

Lemma register_patient_db name age gender phone address (w : world) :
  db (snd (register_patient name age gender phone address w)) = db w
  \/ exists n a g p' a',
       db (snd (register_patient name age gender phone address w))
       = insert_patient n a g p' a' (db w).
Proof.
  unfold register_patient, bind, lift.
  destruct (validate_patient_data name age gender) as [[ok msg] | e];
    [| now left].
  destruct ok; cbn [fst negb]; [| now left].
  destruct (py_int age) as [n | e]; [| now left].
  unfold save_patient, bind, connect, bind_int, query.
  destruct (sqlite_int n); cbn; [| now left].
  destruct (patient_checks n gender); cbn; [| now left].
  right. repeat eexists.
Qed.

Lemma run_appointments (a : action) (w : world) :
  appointments (db (snd (run a w))) = appointments (db w)
  \/ exists p d t r pid did,
       a = Schedule p d t r
       /\ py_int d = Ret did
       /\ count_scheduled did t (db w) = 0
       /\ db (snd (run a w)) = insert_appointment pid did t (strip r) (db w).
Proof.
  destruct a as [name age gender phone address | p d t r]; cbn [run].
  - left. destruct (register_patient_db name age gender phone address w)
      as [-> | (n & a & g & p' & a' & ->)]; reflexivity.
  - destruct (schedules_db _ _ _ _ _ _ _
                (schedule_appointment_schedules p d t r w))
      as [[_ (pid & did & Hp & Hd & Hc & Hdb)] | [_ ->]]; [| now left].
    right. exists p, d, t, r, pid, did. auto.
Qed.

Lemma run_doctors (a : action) (w : world) :
  doctors (db (snd (run a w))) = doctors (db w).
Proof.
  destruct a as [name age gender phone address | p d t r]; cbn [run].
  - destruct (register_patient_db name age gender phone address w)
      as [-> | (n & a & g & p' & a' & ->)]; reflexivity.
  - destruct (schedules_db _ _ _ _ _ _ _
                (schedule_appointment_schedules p d t r w))
      as [[_ (pid & did & _ & _ & _ & ->)] | [_ ->]]; reflexivity.
Qed.

Lemma count_scheduled_nonneg did t (d : database) :
  0 <= count_scheduled did t d.
Proof. unfold count_scheduled. lia. Qed.

Lemma count_scheduled_appointments did t (d d' : database) :
  appointments d' = appointments d ->
  count_scheduled did t d' = count_scheduled did t d.
Proof. unfold count_scheduled. now intros ->. Qed.

(** A slot that holds one scheduled appointment keeps exactly one. *)
Lemma run_keeps_slot (a : action) (w : world) did t :
  count_scheduled did t (db w) = 1 ->
  count_scheduled did t (db (snd (run a w))) = 1.
Proof.
  intros H. destruct (run_appointments a w)
    as [E | (p & d & t' & r & pid & did' & _ & _ & Hc & ->)].
  - now rewrite (count_scheduled_appointments _ _ _ _ E).
  - rewrite count_scheduled_insert.
    destruct ((did' =? did) && pystr_eqb t' t) eqn:B; [| lia].
    apply andb_true_iff in B. destruct B as [B1 B2].
    apply Z.eqb_eq in B1. apply pystr_eqb_eq in B2. subst. lia.
Qed.

Lemma run_slot_bound (a : action) (w : world) did t :
  count_scheduled did t (db w) <= 1 ->
  count_scheduled did t (db (snd (run a w))) <= 1.
Proof.
  intros H. destruct (run_appointments a w)
    as [E | (p & d & t' & r & pid & did' & _ & _ & Hc & ->)].
  - now rewrite (count_scheduled_appointments _ _ _ _ E).
  - rewrite count_scheduled_insert.
    destruct ((did' =? did) && pystr_eqb t' t) eqn:B; [| lia].
    apply andb_true_iff in B. destruct B as [B1 B2].
    apply Z.eqb_eq in B1. apply pystr_eqb_eq in B2. subst. lia.
Qed.

(** Two readings of one token give one id. *)
Ltac same_ids :=
  repeat match goal with
         | H1 : py_int ?x = Ret ?a, H2 : py_int ?x = Ret ?b |- _ =>
             rewrite H1 in H2; injection H2 as ?; subst
         | H1 : py_int ?x = Ret _, H2 : py_int ?x = Exc _ |- _ =>
             exfalso; congruence
         end.

(** The outcome of a call and the tables it leaves depend on the tables
    only, not on the journal. *)
Lemma schedules_same_db (p d t r : pystr) (w1 w2 : world) o1 o2 w1' w2' :
  db w1 = db w2 ->
  schedules p d t r w1 o1 w1' -> schedules p d t r w2 o2 w2' ->
  o1 = o2 /\ db w1' = db w2'.
Proof.
  intros E H1 H2. destruct H1; destruct H2;
    unfold patient_row_of, doctor_row_of, logged in *; cbn [db];
    rewrite ?E in *; same_ids;
    try (exfalso; congruence);
    try (split; congruence).
Qed.

Lemma schedule_appointment_same_db (p d t r : pystr) (w1 w2 : world) :
  db w1 = db w2 ->
  fst (schedule_appointment p d t r w1) = fst (schedule_appointment p d t r w2)
  /\ db (snd (schedule_appointment p d t r w1))
     = db (snd (schedule_appointment p d t r w2)).
Proof.
  intros E. eapply schedules_same_db; eauto using schedule_appointment_schedules.
Qed.

Lemma later_doctors (w w' : world) :
  later w w' -> doctors (db w') = doctors (db w).
Proof.
  induction 1 as [| w' a _ IH]; [reflexivity |]. now rewrite run_doctors.
Qed.

Lemma later_keeps_slot (w w' : world) did t :
  later w w' -> count_scheduled did t (db w) = 1 ->
  count_scheduled did t (db w') = 1.
Proof.
  induction 1 as [| w' a _ IH]; auto. intros H. apply run_keeps_slot. auto.
Qed.

Lemma passes_patient (p d t : pystr) (w : world) :
  passes p d t w PatientIdFormat = true ->
  passes p d t w PatientExists = true ->
  isdigit p = true
  /\ exists pid prow,
       py_int p = Ret pid /\ sqlite_int pid = true
       /\ patient_row_of pid w = Some prow.
Proof.
  cbn [passes]. intros H1 H2. split; [assumption |].
  destruct (py_int p) as [pid |]; [| discriminate].
  rewrite get_patient_by_id_eq in H2. cbn [fst] in H2.
  destruct (sqlite_int pid) eqn:S; [| discriminate].
  destruct (patient_row_of pid w) as [prow |] eqn:F; [| discriminate].
  exists pid, prow. auto.
Qed.

Lemma passes_doctor (p d t : pystr) (w : world) :
  passes p d t w DoctorIdFormat = true ->
  passes p d t w DoctorExists = true ->
  isdigit d = true
  /\ exists did drow,
       py_int d = Ret did /\ sqlite_int did = true
       /\ doctor_row_of did w = Some drow.
Proof.
  cbn [passes]. intros H1 H2. split; [assumption |].
  destruct (py_int d) as [did |]; [| discriminate].
  rewrite get_doctor_by_id_eq in H2. cbn [fst] in H2.
  destruct (sqlite_int did) eqn:S; [| discriminate].
  destruct (doctor_row_of did w) as [drow |] eqn:F; [| discriminate].
  exists did, drow. auto.
Qed.

(** ** C1: one scheduled appointment per slot *)

(** C1.  In every state the program reaches, a doctor has at most one
    appointment with status Scheduled at a given date-time string.
    After a call has scheduled doctor token [d] at string [t], that slot
    holds exactly one Scheduled appointment in every later state, and a
    call there with the same [d] and [t] never succeeds and writes
    nothing, whatever the patient token and the reason; for a patient
    token that passes the patient checks, it returns the availability
    message. *)
Theorem one_scheduled_per_slot :
  (forall w, reachable w ->
     forall did t, count_scheduled did t (db w) <= 1)
  /\ (forall w p d t r w1,
        schedule_appointment p d t r w = (Ret (true, success_message), w1) ->
        exists did,
          py_int d = Ret did
          /\ forall w2, later w1 w2 ->
               count_scheduled did t (db w2) = 1
               /\ forall p' r',
                    db (snd (schedule_appointment p' d t r' w2)) = db w2
                    /\ (forall m, fst (schedule_appointment p' d t r' w2)
                                  <> Ret (true, m))
                    /\ (passes p' d t w2 PatientIdFormat = true ->
                        passes p' d t w2 PatientExists = true ->
                        fst (schedule_appointment p' d t r' w2)
                        = Ret (false, message_of Availability))).
Proof.
  split.
  - induction 1 as [w E | w a _ IH]; intros did t.
    + unfold count_scheduled. rewrite E. cbn. lia.
    + apply run_slot_bound. apply IH.
  - intros w p d t r w1 E.
    apply schedule_appointment_paths in E.
    inversion E; subst.
    match goal with
    | Hd : py_int d = Ret ?n |- _ => exists n; split; [exact Hd |]
    end.
    intros w2 L.
    assert (C1 : count_scheduled did t (db w2) = 1).
    { apply (later_keeps_slot _ _ _ _ L). cbn [db].
      rewrite count_scheduled_insert, Z.eqb_refl, pystr_eqb_refl.
      cbn [andb]. lia. }
    split; [exact C1 |]. intros p' r'.
    pose proof (schedule_appointment_schedules p' d t r' w2) as S.
    assert (Fd : doctor_row_of did w2 = Some drow).
    { unfold doctor_row_of in *. rewrite (later_doctors _ _ L). cbn [db].
      assumption. }
    inversion S; subst;
      repeat match goal with
             | H : _ = fst (schedule_appointment _ _ _ _ _) |- _ =>
                 rewrite <- H
             | H : _ = snd (schedule_appointment _ _ _ _ _) |- _ =>
                 rewrite <- H
             end;
      cbn [db logged];
      try (split; [reflexivity |]; split; [intros m; discriminate |];
           intros P1 P2;
           destruct (passes_patient _ _ _ _ P1 P2)
             as [Q1 (pid' & prow' & Q2 & Q3 & Q4)];
           try reflexivity; exfalso; congruence).
    exfalso.
    match goal with
    | H1 : py_int d = Ret ?a, H2 : py_int d = Ret ?b,
      H3 : count_scheduled ?b t (db w2) = 0 |- _ =>
        assert (a = b) by congruence; subst; lia
    end.
Qed.

Lemma one_scheduled_per_slot_witness :
  let slot := str "2025-03-01 10:00" in
  let w1 :=
    snd (schedule_appointment (str "1") (str "2") slot (str "checkup")
           clinic) in
  schedule_appointment (str "1") (str "2") slot (str "checkup") clinic
  = (Ret (true, success_message), w1)
  /\ count_scheduled 2 slot (db w1) = 1
  /\ fst (schedule_appointment (str "1") (str "2") slot (str "again") w1)
     = Ret (false, message_of Availability).
Proof.
  intros slot w1.
  assert (E : schedule_appointment (str "1") (str "2") slot (str "checkup")
                clinic
              = (Ret (true, success_message), w1))
    by (vm_compute; reflexivity).
  split; [exact E |].
  destruct (proj2 one_scheduled_per_slot _ _ _ _ _ _ E) as [did [Hd H]].
  assert (did = 2) by (vm_compute in Hd; congruence). subst did.
  destruct (H w1 (later_now w1)) as [C H2]. split; [exact C |].
  destruct (H2 (str "1") (str "again")) as [_ [_ H3]].
  apply H3; vm_compute; reflexivity.
Defined.

(** ** C10: the call writes to the appointments table only *)

(** C10.  Whatever its outcome, a call of [schedule_appointment] leaves
    the users, patients and doctors tables (and the patients' row-id
    counter) as they were. *)
Theorem schedule_appointment_frame (p d t r : pystr) (w : world) :
  let w' := snd (schedule_appointment p d t r w) in
  users (db w') = users (db w)
  /\ patients (db w') = patients (db w)
  /\ doctors (db w') = doctors (db w)
  /\ patients_seq (db w') = patients_seq (db w).
Proof.
  intros w'. subst w'.
  destruct (schedules_db _ _ _ _ _ _ _
              (schedule_appointment_schedules p d t r w))
    as [[_ (pid & did & _ & _ & _ & ->)] | [_ ->]].
  - apply insert_appointment_tables.
  - repeat split.
Qed.

(** ** C7: a rejected call writes nothing *)

(** C7.  A call that returns a failure leaves the tables unchanged; the
    same call made again, in the state the first one left or in any
    state with the same tables, returns the same failure and again
    leaves the tables unchanged. *)
Theorem rejection_is_atomic (p d t r : pystr) (w : world) (msg : string) :
  fst (schedule_appointment p d t r w) = Ret (false, msg) ->
  let w' := snd (schedule_appointment p d t r w) in
  db w' = db w
  /\ fst (schedule_appointment p d t r w') = Ret (false, msg)
  /\ db (snd (schedule_appointment p d t r w')) = db w
  /\ forall w2, db w2 = db w ->
       fst (schedule_appointment p d t r w2) = Ret (false, msg)
       /\ db (snd (schedule_appointment p d t r w2)) = db w.
Proof.
  intros F w'.
  assert (E : db w' = db w).
  { subst w'.
    destruct (schedules_db _ _ _ _ _ _ _
                (schedule_appointment_schedules p d t r w))
      as [[S _] | [_ E]]; [| exact E].
    rewrite F in S. discriminate. }
  assert (G : forall w2, db w2 = db w ->
                fst (schedule_appointment p d t r w2) = Ret (false, msg)
                /\ db (snd (schedule_appointment p d t r w2)) = db w).
  { intros w2 E2.
    destruct (schedule_appointment_same_db p d t r w2 w E2) as [-> ->].
    auto. }
  destruct (G w' E) as [G1 G2]. auto.
Qed.

Lemma rejection_is_atomic_witness :
  let bad := str "03/01/2025 10:00" in
  let w' :=
    snd (schedule_appointment (str "1") (str "2") bad (str "checkup")
           clinic) in
  fst (schedule_appointment (str "1") (str "2") bad (str "checkup") clinic)
  = Ret (false, message_of DateTimeFormat)
  /\ db w' = db clinic
  /\ fst (schedule_appointment (str "1") (str "2") bad (str "checkup") w')
     = Ret (false, message_of DateTimeFormat).
Proof.
  intros bad w'.
  assert (F : fst (schedule_appointment (str "1") (str "2") bad
                     (str "checkup") clinic)
              = Ret (false, message_of DateTimeFormat))
    by (vm_compute; reflexivity).
  split; [exact F |].
  destruct (rejection_is_atomic _ _ _ _ _ _ F) as [H1 [H2 _]]. auto.
Defined.

(** ** C5: the availability query *)

(** C5.  For a doctor id that SQLite can hold, [is_doctor_available]
    returns true exactly when no appointment row has that doctor, that
    date-time string and status Scheduled; it leaves the tables as they
    were and makes one repository call, the counting query. *)
Theorem is_doctor_available_spec (did : Z) (t : pystr) (w : world) :
  sqlite_int did = true ->
  exists b w',
    is_doctor_available did t w = (Ret b, w')
    /\ (b = true <->
        ~ exists row,
            In row (appointments (db w))
            /\ a_doctor_id row = did
            /\ a_appt_datetime row = t
            /\ a_status row = str "Scheduled")
    /\ db w' = db w
    /\ journal w' = journal w ++ [CountScheduled did t].
Proof.
  intros S. rewrite is_doctor_available_eq, S.
  eexists. eexists. split; [reflexivity |].
  split; [| split; reflexivity].
  unfold count_scheduled. rewrite Z.eqb_eq.
  destruct (filter (scheduled_at did t) (appointments (db w)))
    as [| row rest] eqn:F.
  - split; [| reflexivity]. intros _ [row [Hin [H1 [H2 H3]]]].
    assert (X : In row (filter (scheduled_at did t) (appointments (db w)))).
    { apply filter_In. split; [assumption |]. unfold scheduled_at.
      rewrite H1, H2, H3, Z.eqb_refl, !pystr_eqb_refl. reflexivity. }
    rewrite F in X. destruct X.
  - split; [cbn; lia |]. intros N. exfalso. apply N. exists row.
    assert (X : In row (filter (scheduled_at did t) (appointments (db w))))
      by (rewrite F; now left).
    apply filter_In in X. destruct X as [Hin X]. unfold scheduled_at in X.
    apply andb_true_iff in X. destruct X as [X X3].
    apply andb_true_iff in X. destruct X as [X1 X2].
    apply Z.eqb_eq in X1. apply pystr_eqb_eq in X2, X3. auto.
Qed.

Lemma is_doctor_available_spec_witness :
  sqlite_int 2 = true
  /\ exists b w',
       is_doctor_available 2 (str "2025-03-01 10:00") clinic = (Ret b, w')
       /\ (b = true <->
           ~ exists row,
               In row (appointments (db clinic))
               /\ a_doctor_id row = 2
               /\ a_appt_datetime row = str "2025-03-01 10:00"
               /\ a_status row = str "Scheduled")
       /\ db w' = db clinic
       /\ journal w' = journal clinic
                         ++ [CountScheduled 2 (str "2025-03-01 10:00")].
Proof.
  split; [reflexivity |].
  apply (is_doctor_available_spec 2 (str "2025-03-01 10:00") clinic).
  reflexivity.
Defined.

(** ** The successful path *)

Lemma schedule_saves (p d t r : pystr) (w : world) pid did prow drow :
  isdigit p = true -> isdigit d = true ->
  py_int p = Ret pid -> py_int d = Ret did ->
  sqlite_int pid = true -> patient_row_of pid w = Some prow ->
  sqlite_int did = true -> doctor_row_of did w = Some drow ->
  validate_datetime t = Ret (true, ""%string) ->
  count_scheduled did t (db w) = 0 ->
  schedule_appointment p d t r w
  = (Ret (true, success_message),
     mk_world (insert_appointment pid did t (strip r) (db w))
       (journal w
          ++ [SelectPatientById pid; SelectDoctorById did;
              CountScheduled did t; InsertAppointment pid did t (strip r)])).
Proof.
  intros Hp Hd Ep Ed Sp Fp Sd Fd V C.
  pose proof (schedule_appointment_schedules p d t r w) as S.
  rewrite (surjective_pairing (schedule_appointment p d t r w)).
  inversion S; same_ids; try congruence.
Qed.

Lemma passes_all (p d t : pystr) (w : world) :
  forallb (passes p d t w) check_order = true ->
  exists pid did prow drow,
    isdigit p = true /\ isdigit d = true
    /\ py_int p = Ret pid /\ py_int d = Ret did
    /\ sqlite_int pid = true /\ patient_row_of pid w = Some prow
    /\ sqlite_int did = true /\ doctor_row_of did w = Some drow
    /\ validate_datetime t = Ret (true, ""%string)
    /\ count_scheduled did t (db w) = 0.
Proof.
  unfold check_order. cbn [forallb]. rewrite !andb_true_iff.
  intros (P1 & P2 & P3 & P4 & P5 & P6 & _).
  destruct (passes_patient _ _ _ _ P1 P3) as [Hp (pid & prow & Ep & Sp & Fp)].
  destruct (passes_doctor _ _ _ _ P2 P4) as [Hd (did & drow & Ed & Sd & Fd)].
  exists pid, did, prow, drow. repeat (split; [assumption |]).
  cbn [passes] in P5, P6. split.
  - destruct (validate_datetime_total t) as [V | V]; rewrite V in *;
      [reflexivity | discriminate].
  - rewrite Ed, is_doctor_available_eq, Sd in P6. cbn [fst] in P6.
    now apply Z.eqb_eq.
Qed.

Lemma fold_right_max_ge (l : list Z) (s x : Z) :
  In x l -> x <= fold_right Z.max s l.
Proof.
  induction l as [| y l IH]; cbn; [tauto |].
  intros [-> | H]; [lia |]. specialize (IH H). lia.
Qed.

Lemma lstrip_spec (s : pystr) :
  exists l,
    s = l ++ lstrip s /\ forallb Unicode.isspace l = true
    /\ match lstrip s with
       | c :: _ => Unicode.isspace c = false
       | [] => True
       end.
Proof.
  induction s as [| c s IH]; cbn [lstrip].
  - exists []. auto.
  - destruct (Unicode.isspace c) eqn:E.
    + destruct IH as [l [H1 [H2 H3]]]. exists (c :: l). cbn [app forallb].
      rewrite E, H2. repeat split; auto. now rewrite <- H1.
    + exists []. auto.
Qed.

(** [strip] removes white space from both ends and nothing else. *)
Lemma strip_spec (s : pystr) :
  exists l r,
    s = l ++ strip s ++ r
    /\ forallb Unicode.isspace l = true /\ forallb Unicode.isspace r = true
    /\ match strip s with
       | c :: _ => Unicode.isspace c = false
       | [] => True
       end
    /\ match rev (strip s) with
       | c :: _ => Unicode.isspace c = false
       | [] => True
       end.
Proof.
  destruct (lstrip_spec s) as [l [H1 [H2 H3]]].
  destruct (lstrip_spec (rev (lstrip s))) as [r [G1 [G2 G3]]].
  exists l, (rev r). unfold strip, rstrip.
  assert (E : lstrip s = rev (lstrip (rev (lstrip s))) ++ rev r).
  { rewrite <- rev_app_distr, <- G1. now rewrite rev_involutive. }
  repeat split.
  - now rewrite <- E.
  - assumption.
  - now apply forallb_rev.
  - destruct (rev (lstrip (rev (lstrip s)))) as [| c u] eqn:U; [exact I |].
    rewrite E in H3. exact H3.
  - now rewrite rev_involutive.
Qed.

(** ** C6: the successful call *)

(** C6.  When the six checks pass, [schedule_appointment] returns
    success with the message "Appointment scheduled successfully." and
    the appointments table gains one row, at its end and with a new id:
    the patient and doctor ids the tokens denote, the date-time string
    as given, status Scheduled, and as reason the text given without
    the white space at its two ends. *)
Theorem schedule_appointment_success (p d t r : pystr) (w : world) :
  forallb (passes p d t w) check_order = true ->
  exists pid did row w',
    py_int p = Ret pid /\ py_int d = Ret did
    /\ schedule_appointment p d t r w
       = (Ret (true, "Appointment scheduled successfully."%string), w')
    /\ appointments (db w') = appointments (db w) ++ [row]
    /\ a_patient_id row = pid /\ a_doctor_id row = did
    /\ a_appt_datetime row = t /\ a_status row = str "Scheduled"
    /\ a_reason row = Some (strip r)
    /\ (forall old, In old (appointments (db w)) -> a_id old < a_id row)
    /\ exists l r',
         r = l ++ strip r ++ r'
         /\ forallb Unicode.isspace l = true
         /\ forallb Unicode.isspace r' = true
         /\ match strip r with
            | c :: _ => Unicode.isspace c = false
            | [] => True
            end
         /\ match rev (strip r) with
            | c :: _ => Unicode.isspace c = false
            | [] => True
            end.
Proof.
  intros P.
  destruct (passes_all _ _ _ _ P)
    as (pid & did & prow & drow & Hp & Hd & Ep & Ed & Sp & Fp & Sd & Fd
        & V & C).
  exists pid, did. eexists. eexists.
  split; [exact Ep |]. split; [exact Ed |].
  split; [apply (schedule_saves p d t r w pid did prow drow); assumption |].
  cbn [db]. unfold insert_appointment at 1. cbn [appointments].
  split; [reflexivity |].
  cbn [a_patient_id a_doctor_id a_appt_datetime a_status a_reason a_id].
  repeat (split; [reflexivity |]).
  split; [| apply strip_spec].
  intros old Hin. unfold next_rowid.
  pose proof (fold_right_max_ge (map a_id (appointments (db w)))
                (appointments_seq (db w)) (a_id old)
                (in_map a_id _ _ Hin)).
  lia.
Qed.

Lemma schedule_appointment_success_witness :
  forallb (passes (str "1") (str "2") (str "2025-03-01 10:00") clinic)
    check_order = true
  /\ exists pid did row w',
       py_int (str "1") = Ret pid /\ py_int (str "2") = Ret did
       /\ schedule_appointment (str "1") (str "2") (str "2025-03-01 10:00")
            (str "  checkup ") clinic
          = (Ret (true, "Appointment scheduled successfully."%string), w')
       /\ appointments (db w') = appointments (db clinic) ++ [row]
       /\ a_status row = str "Scheduled"
       /\ a_reason row = Some (str "checkup").
Proof.
  split; [vm_compute; reflexivity |].
  destruct (schedule_appointment_success (str "1") (str "2")
              (str "2025-03-01 10:00") (str "  checkup ") clinic)
    as (pid & did & row & w' & H1 & H2 & H3 & H4 & _ & _ & _ & H8 & H9 & _).
  - vm_compute. reflexivity.
  - exists pid, did, row, w'. repeat (split; [assumption |]).
    rewrite H9. vm_compute. reflexivity.
Defined.

(** ** C2: the order of the checks *)

Lemma storable_id_inv (tok : pystr) :
  storable_id tok = true ->
  exists n, py_int tok = Ret n /\ sqlite_int n = true.
Proof.
  unfold storable_id. destruct (py_int tok) as [n |]; [| discriminate].
  eauto.
Qed.

(** The result of a call that does not raise is the verdict on the
    first check that fails. *)
Lemma schedules_verdict (p d t r : pystr) (w : world) o w' v :
  schedules p d t r w o w' -> o = Ret v -> v = verdict (first_failure p d t w).
Proof.
  intros S E. unfold first_failure, check_order.
  destruct S as [Hp | Hp Hd | e Hp Hd Ep | pid e Hp Hd Ep Ed
                 | pid did Hp Hd Ep Ed Sp | pid did Hp Hd Ep Ed Sp Fp
                 | pid did prow Hp Hd Ep Ed Sp Fp Sd
                 | pid did prow Hp Hd Ep Ed Sp Fp Sd Fd
                 | pid did prow drow Hp Hd Ep Ed Sp Fp Sd Fd V
                 | pid did prow drow Hp Hd Ep Ed Sp Fp Sd Fd V C
                 | pid did prow drow Hp Hd Ep Ed Sp Fp Sd Fd V C];
    try discriminate; injection E as <-;
    cbn [find passes];
    rewrite ?Hp, ?Hd, ?Ep, ?Ed, ?get_patient_by_id_eq, ?get_doctor_by_id_eq,
      ?is_doctor_available_eq, ?Sp, ?Sd; cbn [fst negb];
    rewrite ?Fp, ?Fd, ?V; cbn [truthy fst negb]; try reflexivity.
  - destruct (Z.eqb_spec (count_scheduled did t (db w)) 0);
      [contradiction | reflexivity].
  - rewrite C. reflexivity.
Qed.

(** C2.  Whenever [schedule_appointment] returns, its result is the
    message of the first check, in the order patient-id format,
    doctor-id format, patient exists, doctor exists, date-time format,
    availability, that does not pass, and success when all pass.  It
    does return when the id tokens that pass the format check denote
    integers the store can hold; then, a missing patient gives "Patient
    not found." and, the patient being there, a missing doctor gives
    "Doctor not found.", whatever the date-time token.  The six
    messages differ from each other. *)
Theorem checks_run_in_order (p d t r : pystr) (w : world) :
  (forall v,
     fst (schedule_appointment p d t r w) = Ret v ->
     v = verdict (first_failure p d t w))
  /\ ((isdigit p = true -> isdigit d = true ->
       storable_id p = true /\ storable_id d = true) ->
      fst (schedule_appointment p d t r w)
      = Ret (verdict (first_failure p d t w))
      /\ (isdigit p = true -> isdigit d = true ->
          passes p d t w DateTimeFormat = false ->
          (passes p d t w PatientExists = false ->
           fst (schedule_appointment p d t r w)
           = Ret (false, "Patient not found."%string))
          /\ (passes p d t w PatientExists = true ->
              passes p d t w DoctorExists = false ->
              fst (schedule_appointment p d t r w)
              = Ret (false, "Doctor not found."%string))))
  /\ NoDup (map message_of check_order).
Proof.
  pose proof (schedule_appointment_schedules p d t r w) as S.
  split; [| split].
  - intros v E. eapply schedules_verdict; [exact S | exact E].
  - intros St.
    assert (R : fst (schedule_appointment p d t r w)
                = Ret (verdict (first_failure p d t w))).
    { destruct (fst (schedule_appointment p d t r w)) as [v | e] eqn:E.
      - f_equal. eapply schedules_verdict; [exact S | reflexivity].
      - exfalso. inversion S; subst;
          match goal with
          | Hp : isdigit p = true, Hd : isdigit d = true |- _ =>
              destruct (St Hp Hd) as [S1 S2];
              apply storable_id_inv in S1; apply storable_id_inv in S2;
              destruct S1 as [n1 [A1 B1]]; destruct S2 as [n2 [A2 B2]]
          end; same_ids; congruence. }
    split; [exact R |].
    intros Hp Hd Ht. rewrite R. unfold first_failure, check_order.
    cbn [find].
    change (passes p d t w PatientIdFormat) with (isdigit p).
    change (passes p d t w DoctorIdFormat) with (isdigit d).
    rewrite Hp, Hd. cbn [negb].
    split.
    + intros ->. reflexivity.
    + intros -> ->. reflexivity.
  - cbn. repeat constructor; cbn; intuition discriminate.
Qed.

Lemma checks_run_in_order_witness :
  (isdigit (str "99") = true -> isdigit (str "2") = true ->
   storable_id (str "99") = true /\ storable_id (str "2") = true)
  /\ fst (schedule_appointment (str "99") (str "2") (str "03/01/2025 10:00")
            (str "checkup") clinic)
     = Ret (false, "Patient not found."%string)
  /\ fst (schedule_appointment (str "1") (str "7") (str "03/01/2025 10:00")
            (str "checkup") clinic)
     = Ret (false, "Doctor not found."%string).
Proof.
  assert (St : forall a b : pystr,
             storable_id a = true -> storable_id b = true ->
             isdigit a = true -> isdigit b = true ->
             storable_id a = true /\ storable_id b = true) by auto.
  split; [intros _ _; vm_compute; auto |].
  split.
  - destruct (proj1 (proj2 (checks_run_in_order (str "99") (str "2")
                (str "03/01/2025 10:00") (str "checkup") clinic)))
      as [_ H].
    + apply St; vm_compute; reflexivity.
    + apply H; vm_compute; reflexivity.
  - destruct (proj1 (proj2 (checks_run_in_order (str "1") (str "7")
                (str "03/01/2025 10:00") (str "checkup") clinic)))
      as [_ H].
    + apply St; vm_compute; reflexivity.
    + apply H; vm_compute; reflexivity.
Defined.

(** ** C8: tokens that make the call raise *)

(** C8.  Superscript two passes the [isdigit] guard and is no decimal
    digit: with it as patient (or doctor) token, the call raises
    [ValueError] from [int].  Twenty nines pass the guard and convert,
    and the patient look-up raises [OverflowError] when it binds the
    value. *)
Theorem digit_tokens_that_raise :
  isdigit superscript_two = true
  /\ schedule_appointment superscript_two (str "2") (str "2025-03-01 10:00")
       (str "checkup") clinic
     = (Exc ValueError, clinic)
  /\ schedule_appointment (str "1") superscript_two (str "2025-03-01 10:00")
       (str "checkup") clinic
     = (Exc ValueError, clinic)
  /\ isdigit (str "99999999999999999999") = true
  /\ fst (schedule_appointment (str "99999999999999999999") (str "2")
            (str "2025-03-01 10:00") (str "checkup") clinic)
     = Exc OverflowError.
Proof. repeat split; vm_compute; reflexivity. Qed.

(** ** C9: a slot is a string *)

Lemma padded_reading :
  Strptime.strptime (str "2025-03-01 10:00")
  = Ret (Strptime.mk_datetime 2025 3 1 10 0).
Proof. vm_compute. reflexivity. Qed.

Lemma unpadded_reading :
  Strptime.strptime (str "2025-3-1 10:00")
  = Ret (Strptime.mk_datetime 2025 3 1 10 0).
Proof. vm_compute. reflexivity. Qed.

Lemma unpadded_accepted :
  validate_datetime (str "2025-3-1 10:00") = Ret (true, ""%string).
Proof. vm_compute. reflexivity. Qed.

(** C9.  "2025-03-01 10:00" and "2025-3-1 10:00" are different strings
    that [strptime] reads as the same date and time.  When the checks
    pass for the first and the doctor is free at the second, two calls
    for the same doctor, one with each string, both succeed, and the
    table ends with two Scheduled rows of that doctor, one per
    string. *)
Theorem slot_identity_is_textual (p d r1 r2 : pystr) (w : world) :
  let t1 := str "2025-03-01 10:00" in
  let t2 := str "2025-3-1 10:00" in
  forallb (passes p d t1 w) check_order = true ->
  passes p d t2 w Availability = true ->
  let w1 := snd (schedule_appointment p d t1 r1 w) in
  let w2 := snd (schedule_appointment p d t2 r2 w1) in
  t1 <> t2
  /\ Strptime.strptime t1 = Ret (Strptime.mk_datetime 2025 3 1 10 0)
  /\ Strptime.strptime t2 = Ret (Strptime.mk_datetime 2025 3 1 10 0)
  /\ fst (schedule_appointment p d t1 r1 w) = Ret (true, success_message)
  /\ fst (schedule_appointment p d t2 r2 w1) = Ret (true, success_message)
  /\ exists did row1 row2,
       py_int d = Ret did
       /\ appointments (db w2) = appointments (db w) ++ [row1; row2]
       /\ a_doctor_id row1 = did /\ a_doctor_id row2 = did
       /\ a_status row1 = str "Scheduled" /\ a_status row2 = str "Scheduled"
       /\ a_appt_datetime row1 = t1 /\ a_appt_datetime row2 = t2.
Proof.
  intros t1 t2 P A w1 w2.
  destruct (passes_all _ _ _ _ P)
    as (pid & did & prow & drow & Hp & Hd & Ep & Ed & Sp & Fp & Sd & Fd
        & V & C).
  assert (C2 : count_scheduled did t2 (db w) = 0).
  { cbn [passes] in A. rewrite Ed, is_doctor_available_eq, Sd in A.
    cbn [fst] in A. now apply Z.eqb_eq. }
  assert (N : t1 <> t2) by (subst t1 t2; vm_compute; discriminate).
  pose proof (schedule_saves p d t1 r1 w pid did prow drow
                Hp Hd Ep Ed Sp Fp Sd Fd V C) as E1.
  assert (W1 : w1 = snd (schedule_appointment p d t1 r1 w)) by reflexivity.
  rewrite E1 in W1. cbn [snd] in W1.
  assert (E2 : schedule_appointment p d t2 r2 w1
               = (Ret (true, success_message),
                  mk_world (insert_appointment pid did t2 (strip r2) (db w1))
                    (journal w1
                       ++ [SelectPatientById pid; SelectDoctorById did;
                           CountScheduled did t2;
                           InsertAppointment pid did t2 (strip r2)]))).
  { apply (schedule_saves p d t2 r2 w1 pid did prow drow);
      [exact Hp | exact Hd | exact Ep | exact Ed | exact Sp | | exact Sd | |
       exact unpadded_accepted |].
    - rewrite W1. exact Fp.
    - rewrite W1. exact Fd.
    - rewrite W1. cbn [db]. rewrite count_scheduled_insert, C2.
      destruct (pystr_eqb t1 t2) eqn:B;
        [apply pystr_eqb_eq in B; contradiction |].
      now rewrite andb_false_r. }
  split; [exact N |].
  split; [exact padded_reading |].
  split; [exact unpadded_reading |].
  split; [now rewrite E1 |].
  split; [now rewrite E2 |].
  exists did. eexists. eexists. split; [exact Ed |].
  subst w2. rewrite E2. cbn [snd db]. rewrite W1. cbn [db].
  unfold insert_appointment. cbn [appointments].
  rewrite <- app_assoc. cbn [app].
  split; [reflexivity |]. repeat split.
Qed.

Lemma slot_identity_is_textual_witness :
  forallb (passes (str "1") (str "2") (str "2025-03-01 10:00") clinic)
    check_order = true
  /\ passes (str "1") (str "2") (str "2025-3-1 10:00") clinic Availability
     = true
  /\ fst (schedule_appointment (str "1") (str "2") (str "2025-3-1 10:00")
            (str "again")
            (snd (schedule_appointment (str "1") (str "2")
                    (str "2025-03-01 10:00") (str "checkup") clinic)))
     = Ret (true, success_message).
Proof.
  assert (P : forallb
                (passes (str "1") (str "2") (str "2025-03-01 10:00") clinic)
                check_order = true) by (vm_compute; reflexivity).
  assert (A : passes (str "1") (str "2") (str "2025-3-1 10:00") clinic
                Availability = true) by (vm_compute; reflexivity).
  split; [exact P |]. split; [exact A |].
  exact (proj1 (proj2 (proj2 (proj2 (proj2
           (slot_identity_is_textual (str "1") (str "2") (str "checkup")
              (str "again") clinic P A)))))).
Defined.

(** ** C3: the identifier check *)

Lemma parse_identifier_some (token : pystr) (n : Z) :
  parse_identifier token = Ret (Some n)
  <-> isdigit token = true /\ py_int token = Ret n.
Proof.
  unfold parse_identifier, obind.
  destruct (isdigit token); cbn [negb].
  - destruct (py_int token) as [v | e]; split.
    + intros H. injection H as <-. auto.
    + intros [_ H]. injection H as <-. reflexivity.
    + discriminate.
    + intros [_ H]. discriminate.
  - split; [discriminate | intros [H _]; discriminate].
Qed.

(** The contract as worded fails at the token "0": the check succeeds
    with zero, which is not positive. *)
Lemma identifier_contract_fails_at_zero : ~ identifier_contract (str "0").
Proof.
  unfold identifier_contract. intros [_ H].
  destruct H as [n [E Hn]]; [vm_compute; reflexivity |].
  vm_compute in E. injection E as <-. lia.
Qed.

(** C3, amended.  The identifier check succeeds, with the non-negative
    integer the digits write, on every non-empty token of decimal
    digits of at most 4300 characters, and it succeeds on tokens of
    decimal digits only.  It refuses a token exactly when [isdigit] is
    false of it, that is when the token is empty or has a character
    that is no digit; [schedule_appointment] then returns "Patient ID
    must be a number." (for the doctor token, once the patient token
    has passed, "Doctor ID must be a number.") and leaves the state,
    journal included, as it was.  When both tokens pass with integers,
    the first repository call is the patient look-up with the integer
    of the patient token. *)
Theorem identifier_check :
  (forall token,
     isdecimal token = true ->
     (List.length token <= int_max_str_digits)%nat ->
     exists n, parse_identifier token = Ret (Some n) /\ 0 <= n)
  /\ (forall token n,
        parse_identifier token = Ret (Some n) ->
        isdecimal token = true /\ 0 <= n)
  /\ (forall token,
        parse_identifier token = Ret None <-> isdigit token = false)
  /\ (forall token d t r w,
        isdigit token = false ->
        schedule_appointment token d t r w
        = (Ret (false, "Patient ID must be a number."%string), w))
  /\ (forall token p t r w,
        isdigit p = true -> isdigit token = false ->
        schedule_appointment p token t r w
        = (Ret (false, "Doctor ID must be a number."%string), w))
  /\ (forall p d t r w pid did,
        parse_identifier p = Ret (Some pid) ->
        parse_identifier d = Ret (Some did) ->
        exists rest,
          journal (snd (schedule_appointment p d t r w))
          = journal w ++ SelectPatientById pid :: rest).
Proof.
  split; [| split; [| split; [| split; [| split]]]].
  - intros token H L. exists (digits_value token 0). split.
    + apply parse_identifier_some. split.
      * now apply isdecimal_isdigit_token.
      * now apply py_int_decimal.
    + apply digits_value_ge. lia.
  - intros token n H. apply parse_identifier_some in H.
    destruct H as [H1 H2].
    destruct (py_int_digits_inv _ _ H1 H2) as [D [-> _]].
    split; [exact D | apply digits_value_ge; lia].
  - intros token. unfold parse_identifier, obind.
    destruct (isdigit token); cbn [negb]; split; try reflexivity;
      try discriminate.
    destruct (py_int token); discriminate.
  - intros token d t r w H. unfold schedule_appointment. rewrite H.
    reflexivity.
  - intros token p t r w Hp H. unfold schedule_appointment.
    rewrite Hp, H. reflexivity.
  - intros p d t r w pid did Hp Hd.
    apply parse_identifier_some in Hp. destruct Hp as [Hp Ep].
    apply parse_identifier_some in Hd. destruct Hd as [Hd Ed].
    pose proof (schedule_appointment_schedules p d t r w) as S.
    inversion S; same_ids; try congruence; cbn [journal logged];
      eexists; reflexivity.
Qed.

Lemma identifier_check_witness :
  isdecimal (str "007") = true
  /\ (List.length (str "007") <= int_max_str_digits)%nat
  /\ (exists n, parse_identifier (str "007") = Ret (Some n) /\ 0 <= n)
  /\ schedule_appointment (str "7a") (str "2") (str "2025-03-01 10:00")
       (str "checkup") clinic
     = (Ret (false, "Patient ID must be a number."%string), clinic).
Proof.
  assert (D : isdecimal (str "007") = true) by (vm_compute; reflexivity).
  assert (L : (List.length (str "007") <= int_max_str_digits)%nat)
    by (apply Nat.leb_le; vm_compute; reflexivity).
  split; [exact D |]. split; [exact L |]. split.
  - exact (proj1 identifier_check (str "007") D L).
  - apply (proj1 (proj2 (proj2 (proj2 identifier_check)))).
    vm_compute. reflexivity.
Defined.

(** ** C4: the tokens [validate_datetime] accepts *)

(** *** The five fields, one by one *)

(** Character tests as arithmetic on code points. *)
Ltac chars_in H :=
  unfold between, hyphen, colon, blank in H;
  change (chr "0") with 48%N in H; change (chr "1") with 49%N in H;
  change (chr "2") with 50%N in H; change (chr "3") with 51%N in H;
  change (chr "5") with 53%N in H; change (chr "9") with 57%N in H;
  change (chr "-") with 45%N in H; change (chr ":") with 58%N in H;
  change (chr " ") with 32%N in H.

Ltac prop_of_goal :=
  unfold between, hyphen, colon, blank;
  change (chr "0") with 48%N; change (chr "1") with 49%N;
  change (chr "2") with 50%N; change (chr "3") with 51%N;
  change (chr "5") with 53%N; change (chr "9") with 57%N;
  change (chr "-") with 45%N; change (chr ":") with 58%N;
  change (chr " ") with 32%N;
  repeat rewrite ?andb_true_iff, ?orb_true_iff, ?N.eqb_eq, ?N.leb_le.

Ltac prop_of H :=
  chars_in H;
  repeat rewrite ?andb_true_iff, ?orb_true_iff, ?andb_false_iff,
    ?orb_false_iff, ?N.eqb_eq, ?N.eqb_neq, ?N.leb_le, ?N.leb_gt in H.

Lemma firstn_one (a : pychar) (s : pystr) :
  firstn (List.length (a :: s) - List.length s) (a :: s) = [a].
Proof.
  cbn [List.length]. replace (S (List.length s) - List.length s)%nat with 1%nat by lia.
  reflexivity.
Qed.

Lemma firstn_two (a b : pychar) (s : pystr) :
  firstn (List.length (a :: b :: s) - List.length s) (a :: b :: s) = [a; b].
Proof.
  cbn [List.length].
  replace (S (S (List.length s)) - List.length s)%nat with 2%nat by lia.
  reflexivity.
Qed.

Ltac plain :=
  unfold Strptime.captures, Strptime.cont, pystr, pychar in *.

(** Unfold the matcher on the pattern of a field. *)
Ltac run_regex :=
  cbn [Strptime.rmatch Strptime.re_Y Strptime.re_m Strptime.re_d
       Strptime.re_H Strptime.re_M Strptime.alts Strptime.seqs
       Strptime.lit Strptime.rng Strptime.d] in *;
  rewrite ?firstn_one, ?firstn_two in *; plain.


(** Follow every branch of a match that succeeded. *)
Ltac crunch H :=
  repeat (cbv beta iota in H;
          match type of H with
          | context [if ?c then _ else _] => destruct c eqn:?
          | context [match ?x with Some _ => _ | None => _ end] =>
              destruct x eqn:?
          end);
  cbv beta iota in H; try discriminate H;
  try (injection H as H; subst).

Ltac known :=
  repeat match goal with
         | H : ?c = true |- context [?c] => rewrite H
         | H : ?c = false |- context [?c] => rewrite H
         end.

Ltac text_ok :=
  cbn [month_text day_text hour_text minute_text year_text forallb];
  unfold between, blank; known; cbn [andb orb]; reflexivity.

Ltac field2 a b s :=
  exists [a; b], s; split; [reflexivity |]; split; [text_ok | assumption].
Ltac field1 a s :=
  exists [a], s; split; [reflexivity |]; split; [text_ok | assumption].

Lemma month_sound (s : pystr) env k r :
  Strptime.rmatch Strptime.re_m s env k = Some r ->
  exists f rest,
    s = f ++ rest /\ month_text f = true
    /\ k rest ((Strptime.dm, f) :: env) = Some r.
Proof.
  intros H. destruct s as [| a [| b s]]; run_regex.
  - discriminate.
  - crunch H; field1 a (@nil N).
  - crunch H; first [field2 a b s | field1 a (b :: s)].
Qed.

(** Decide the tests of a match from what is known of the field. *)
Ltac decide_ifs K :=
  repeat (cbv beta iota; try rewrite K;
          match goal with
          | |- context [if ?c then _ else _] =>
              let E := fresh "E" in
              destruct c eqn:E; prop_of E;
              try (exfalso; clear K; lia)
          end);
  cbv beta iota; try rewrite K; try reflexivity.

Lemma month_complete (f rest : pystr) env k r :
  month_text f = true ->
  k (hyphen :: rest) ((Strptime.dm, f) :: env) = Some r ->
  Strptime.rmatch Strptime.re_m (f ++ hyphen :: rest) env k = Some r.
Proof.
  intros T K. destruct f as [| a [| b [| c f]]]; try discriminate;
    cbn [app]; run_regex; cbn [month_text] in T; prop_of T; decide_ifs K.
Qed.

Lemma day_sound (s : pystr) env k r :
  Strptime.rmatch Strptime.re_d s env k = Some r ->
  exists f rest,
    s = f ++ rest /\ day_text f = true
    /\ k rest ((Strptime.dd, f) :: env) = Some r.
Proof.
  intros H. destruct s as [| a [| b s]]; run_regex.
  - discriminate.
  - crunch H; field1 a (@nil N).
  - crunch H; first [field2 a b s | field1 a (b :: s)].
Qed.

Lemma space_not_digit (c : pychar) :
  Unicode.isspace c = true -> ~ (48 <= c <= 57)%N.
Proof.
  intros S H. assert (A : ascii_digit c = true).
  { unfold ascii_digit. prop_of H. unfold between.
    change (chr "0") with 48%N. change (chr "9") with 57%N.
    apply andb_true_iff. split; apply N.leb_le; lia. }
  apply ascii_digit_decimal in A. destruct A as [A _].
  rewrite (isspace_not_decimal c S) in A. discriminate.
Qed.

Lemma day_complete (f rest : pystr) (c : pychar) env k r :
  day_text f = true -> Unicode.isspace c = true ->
  k (c :: rest) ((Strptime.dd, f) :: env) = Some r ->
  Strptime.rmatch Strptime.re_d (f ++ c :: rest) env k = Some r.
Proof.
  intros T S K.
  pose proof (isspace_not_decimal c S) as N.
  pose proof (space_not_digit c S) as D.
  destruct f as [| a [| b [| c' f]]]; try discriminate;
    cbn [app]; run_regex; cbn [day_text] in T; prop_of T; rewrite ?N;
    decide_ifs K.
Qed.

Lemma hour_sound (s : pystr) env k r :
  Strptime.rmatch Strptime.re_H s env k = Some r ->
  exists f rest,
    s = f ++ rest /\ hour_text f = true
    /\ k rest ((Strptime.dH, f) :: env) = Some r.
Proof.
  intros H. destruct s as [| a [| b s]]; run_regex.
  - discriminate.
  - crunch H; field1 a (@nil N).
  - crunch H; first [field2 a b s | field1 a (b :: s)].
Qed.

Lemma colon_not_decimal : Unicode.isdecimal colon = false.
Proof. vm_compute. reflexivity. Qed.

Lemma hour_complete (f rest : pystr) env k r :
  hour_text f = true ->
  k (colon :: rest) ((Strptime.dH, f) :: env) = Some r ->
  Strptime.rmatch Strptime.re_H (f ++ colon :: rest) env k = Some r.
Proof.
  intros T K. pose proof colon_not_decimal as N.
  destruct f as [| a [| b [| c f]]]; try discriminate;
    cbn [app]; run_regex; cbn [hour_text] in T; prop_of T; rewrite ?N;
    decide_ifs K.
Qed.

Lemma minute_sound (s : pystr) env k r :
  Strptime.rmatch Strptime.re_M s env k = Some r ->
  exists f rest,
    s = f ++ rest /\ minute_text f = true
    /\ k rest ((Strptime.dM, f) :: env) = Some r.
Proof.
  intros H. destruct s as [| a [| b s]]; run_regex.
  - discriminate.
  - crunch H; field1 a (@nil N).
  - crunch H; first [field2 a b s | field1 a (b :: s)].
Qed.

(** The minute is the last field: at the end of the input the first
    alternative that matches takes it all. *)
Lemma minute_complete (f : pystr) env :
  minute_text f = true ->
  Strptime.rmatch Strptime.re_M f env (fun s' env' => Some (env', s'))
  = Some ((Strptime.dM, f) :: env, []).
Proof.
  intros T.
  destruct f as [| a [| b [| c f]]]; try discriminate;
    run_regex; cbn [minute_text] in T; prop_of T.
  - repeat (cbv beta iota;
            match goal with
            | |- context [if ?c then _ else _] =>
                let E := fresh "E" in
                destruct c eqn:E; prop_of E; try (exfalso; lia)
            end); reflexivity.
  - repeat (cbv beta iota;
            match goal with
            | |- context [if ?c then _ else _] =>
                let E := fresh "E" in
                destruct c eqn:E; prop_of E; try (exfalso; lia)
            end); reflexivity.
Qed.

Lemma firstn_four (a b c e : pychar) (s : pystr) :
  firstn (List.length (a :: b :: c :: e :: s) - List.length s)
    (a :: b :: c :: e :: s) = [a; b; c; e].
Proof.
  cbn [List.length].
  replace (S (S (S (S (List.length s)))) - List.length s)%nat with 4%nat
    by lia.
  reflexivity.
Qed.

Lemma year_sound (s : pystr) env k r :
  Strptime.rmatch Strptime.re_Y s env k = Some r ->
  exists f rest,
    s = f ++ rest /\ year_text f = true
    /\ k rest ((Strptime.dY, f) :: env) = Some r.
Proof.
  intros H. destruct s as [| a [| b [| c [| e s]]]]; run_regex;
    try discriminate; try (crunch H; fail).
  rewrite firstn_four in H. crunch H.
  exists [a; b; c; e], s. split; [reflexivity |]. split; [text_ok | assumption].
Qed.

Lemma year_complete (f rest : pystr) env k :
  year_text f = true ->
  Strptime.rmatch Strptime.re_Y (f ++ rest) env k
  = k rest ((Strptime.dY, f) :: env).
Proof.
  intros T. destruct f as [| a [| b [| c [| e [| x f]]]]]; try discriminate.
  cbn [year_text forallb] in T. prop_of T.
  destruct T as (Ha & Hb & Hc & He & _).
  cbn [app]. run_regex. rewrite firstn_four. rewrite Ha, Hb, Hc, He.
  reflexivity.
Qed.

(** *** Literals and the white space *)

Lemma lit_sound (c : ascii) (s : pystr) env k r :
  Strptime.rmatch (Strptime.lit c) s env k = Some r ->
  exists rest, s = chr c :: rest /\ k rest env = Some r.
Proof.
  unfold Strptime.lit. cbn [Strptime.rmatch]. destruct s as [| a s];
    [discriminate |].
  destruct (N.eqb_spec a (chr c)); [| discriminate]. subst. eauto.
Qed.

Lemma lit_complete (c : ascii) (rest : pystr) env k :
  Strptime.rmatch (Strptime.lit c) (chr c :: rest) env k = k rest env.
Proof.
  unfold Strptime.lit. cbn [Strptime.rmatch]. now rewrite N.eqb_refl.
Qed.

Lemma plus_sound (s : pystr) env k r :
  Strptime.plus_match Unicode.isspace s env k = Some r ->
  exists ws rest,
    s = ws ++ rest /\ blank_text ws = true /\ k rest env = Some r.
Proof.
  induction s as [| c s IH]; cbn [Strptime.plus_match]; [discriminate |].
  destruct (Unicode.isspace c) eqn:E; [| discriminate].
  destruct (Strptime.plus_match Unicode.isspace s env k) as [x |] eqn:P.
  - intros H. injection H as ->.
    destruct (IH eq_refl) as (ws & rest & -> & B & K).
    exists (c :: ws), rest. split; [reflexivity |]. split; [| exact K].
    unfold blank_text in *. destruct ws; [discriminate |].
    cbn [forallb] in *. now rewrite E.
  - intros K. exists [c], s. split; [reflexivity |]. split; [| exact K].
    cbn. now rewrite E.
Qed.

Lemma plus_complete (ws rest : pystr) env k r :
  blank_text ws = true ->
  match rest with
  | c :: _ => Unicode.isspace c = false
  | [] => True
  end ->
  k rest env = Some r ->
  Strptime.plus_match Unicode.isspace (ws ++ rest) env k = Some r.
Proof.
  intros B F K. induction ws as [| c ws IH]; [discriminate |].
  unfold blank_text in B. cbn [forallb] in B.
  apply andb_true_iff in B. destruct B as [E B].
  cbn [app Strptime.plus_match]. rewrite E.
  destruct ws as [| c' ws].
  - cbn [app]. destruct rest as [| x rest]; cbn [Strptime.plus_match].
    + exact K.
    + rewrite F. exact K.
  - rewrite IH; [reflexivity |]. exact B.
Qed.

(** *** The whole pattern *)

Lemma format_sound (t : pystr) found rest :
  Strptime.re_match Strptime.format_regex t = Some (found, rest) ->
  exists fY fm fd ws fH fM,
    t = fY ++ hyphen :: fm ++ hyphen :: fd ++ ws ++ fH ++ colon :: fM ++ rest
    /\ year_text fY = true /\ month_text fm = true /\ day_text fd = true
    /\ blank_text ws = true /\ hour_text fH = true
    /\ minute_text fM = true
    /\ found = [(Strptime.dM, fM); (Strptime.dH, fH); (Strptime.dd, fd);
                (Strptime.dm, fm); (Strptime.dY, fY)].
Proof.
  unfold Strptime.re_match, Strptime.format_regex.
  cbn [Strptime.seqs Strptime.rmatch]. intros H.
  apply year_sound in H. destruct H as (fY & s1 & -> & TY & H).
  apply lit_sound in H. destruct H as (s2 & -> & H).
  apply month_sound in H. destruct H as (fm & s3 & -> & Tm & H).
  apply lit_sound in H. destruct H as (s4 & -> & H).
  apply day_sound in H. destruct H as (fd & s5 & -> & Td & H).
  apply plus_sound in H. destruct H as (ws & s6 & -> & Tw & H).
  apply hour_sound in H. destruct H as (fH & s7 & -> & TH & H).
  apply lit_sound in H. destruct H as (s8 & -> & H).
  apply minute_sound in H. destruct H as (fM & s9 & -> & TM & H).
  injection H as <- <-.
  exists fY, fm, fd, ws, fH, fM. repeat (split; [assumption |]).
  split; [| split; [| split; [| split; [| split; [| split; [| split]]]]]];
    try assumption; reflexivity.
Qed.

Lemma hour_text_head (f rest : pystr) :
  hour_text f = true ->
  match f ++ rest with
  | c :: _ => Unicode.isspace c = false
  | [] => True
  end.
Proof.
  intros T. destruct f as [| a [| b [| c f]]]; try discriminate;
    cbn [app]; apply isdigit_not_space, isdecimal_isdigit;
    cbn [hour_text] in T.
  - exact T.
  - apply orb_true_iff in T. destruct T as [T | T];
      apply andb_true_iff in T; destruct T as [T1 T2].
    + apply N.eqb_eq in T1. subst a. vm_compute. reflexivity.
    + apply ascii_digit_decimal. unfold ascii_digit. prop_of T1.
      unfold between. change (chr "0") with 48%N. change (chr "9") with 57%N.
      apply andb_true_iff. split; apply N.leb_le; lia.
Qed.

Lemma format_complete (fY fm fd ws fH fM : pystr) :
  year_text fY = true -> month_text fm = true -> day_text fd = true ->
  blank_text ws = true -> hour_text fH = true -> minute_text fM = true ->
  Strptime.re_match Strptime.format_regex
    (fY ++ hyphen :: fm ++ hyphen :: fd ++ ws ++ fH ++ colon :: fM)
  = Some ([(Strptime.dM, fM); (Strptime.dH, fH); (Strptime.dd, fd);
           (Strptime.dm, fm); (Strptime.dY, fY)], []).
Proof.
  intros TY Tm Td Tw TH TM.
  unfold Strptime.re_match, Strptime.format_regex.
  cbn [Strptime.seqs Strptime.rmatch].
  rewrite (year_complete fY _ _ _ TY).
  change hyphen with (chr "-"). rewrite lit_complete.
  apply (month_complete fm _ _ _ _ Tm).
  change hyphen with (chr "-"). rewrite lit_complete.
  destruct ws as [| c ws]; [discriminate |].
  assert (S : Unicode.isspace c = true).
  { unfold blank_text in Tw. cbn [forallb] in Tw.
    apply andb_true_iff in Tw. tauto. }
  cbn [app]. apply (day_complete fd _ c _ _ _ Td S).
  change (c :: ws ++ fH ++ colon :: fM)
    with ((c :: ws) ++ fH ++ colon :: fM).
  apply (plus_complete (c :: ws) _ _ _ _ Tw).
  - apply hour_text_head. exact TH.
  - apply (hour_complete fH _ _ _ _ TH).
    change colon with (chr ":"). rewrite lit_complete.
    apply (minute_complete fM _ TM).
Qed.

(** *** The numbers the fields write *)

Lemma digit_range (a : pychar) :
  (48 <= a <= 57)%N ->
  Unicode.isdecimal a = true /\ decimal_of a = Z.of_N a - 48.
Proof.
  intros H. apply ascii_digit_decimal. unfold ascii_digit, between.
  change (chr "0") with 48%N. change (chr "9") with 57%N.
  apply andb_true_iff. split; apply N.leb_le; lia.
Qed.

Lemma short_fits (s : pystr) :
  (List.length s <= 4)%nat -> (List.length s <= int_max_str_digits)%nat.
Proof.
  intros H. apply Nat.le_trans with 4%nat; [exact H |].
  apply Nat.leb_le. vm_compute. reflexivity.
Qed.

Lemma py_int_one (a : pychar) :
  Unicode.isdecimal a = true -> py_int [a] = Ret (decimal_of a).
Proof.
  intros H. rewrite py_int_decimal.
  - reflexivity.
  - unfold isdecimal. cbn [forallb]. now rewrite H.
  - apply short_fits. cbn. lia.
Qed.

Lemma py_int_two (a b : pychar) :
  Unicode.isdecimal a = true -> Unicode.isdecimal b = true ->
  py_int [a; b] = Ret (10 * decimal_of a + decimal_of b).
Proof.
  intros Ha Hb. rewrite py_int_decimal.
  - reflexivity.
  - unfold isdecimal. cbn [forallb]. now rewrite Ha, Hb.
  - apply short_fits. cbn. lia.
Qed.

Lemma py_int_blank_digit (b : pychar) :
  Unicode.isdecimal b = true -> py_int [blank; b] = Ret (decimal_of b).
Proof.
  intros H. rewrite <- (py_int_one b H). unfold py_int.
  assert (E : strip [blank; b] = strip [b]).
  { unfold strip. cbn [lstrip].
    replace (Unicode.isspace blank) with true by (vm_compute; reflexivity).
    reflexivity. }
  now rewrite E.
Qed.

Lemma year_value (f : pystr) :
  year_text f = true -> exists y, py_int f = Ret y /\ 0 <= y <= 9999.
Proof.
  intros T. destruct f as [| a [| b [| c [| e [| x f]]]]]; try discriminate.
  pose proof T as T'. cbn [year_text forallb] in T'. prop_of T'.
  destruct T' as (Ha & Hb & Hc & He & _).
  exists (digits_value [a; b; c; e] 0). split.
  - apply py_int_decimal; [exact T | apply short_fits; cbn; lia].
  - unfold digits_value. cbn [fold_left].
    pose proof (decimal_of_bounds a). pose proof (decimal_of_bounds b).
    pose proof (decimal_of_bounds c). pose proof (decimal_of_bounds e). lia.
Qed.

Ltac digits :=
  repeat match goal with
         | H : (48 <= ?a <= _)%N |- _ =>
             let D := fresh "D" in let V := fresh "V" in
             destruct (digit_range a ltac:(lia)) as [D V];
             revert H
         | H : (49 <= ?a <= _)%N |- _ =>
             let D := fresh "D" in let V := fresh "V" in
             destruct (digit_range a ltac:(lia)) as [D V];
             revert H
         end; intros.

Ltac value1 a :=
  exists (decimal_of a); split; [apply py_int_one; assumption |];
  pose proof (decimal_of_bounds a); lia.

Ltac value2 a b :=
  exists (10 * decimal_of a + decimal_of b);
  split; [apply py_int_two; assumption |];
  pose proof (decimal_of_bounds a); pose proof (decimal_of_bounds b); lia.

Lemma month_value (f : pystr) :
  month_text f = true -> exists m, py_int f = Ret m /\ 1 <= m <= 12.
Proof.
  intros T. destruct f as [| a [| b [| c f]]]; try discriminate;
    cbn [month_text] in T; prop_of T.
  - digits. value1 a.
  - destruct T as [[-> T] | [-> T]]; digits.
    + destruct (digit_range 49%N ltac:(lia)) as [D1 V1]. value2 49%N b.
    + destruct (digit_range 48%N ltac:(lia)) as [D1 V1]. value2 48%N b.
Qed.

Lemma day_value (f : pystr) :
  day_text f = true -> exists dy, py_int f = Ret dy /\ 1 <= dy <= 31.
Proof.
  intros T. destruct f as [| a [| b [| c f]]]; try discriminate;
    cbn [day_text] in T; prop_of T.
  - digits. value1 a.
  - destruct T as [[[[-> T] | [T D]] | [-> T]] | [-> T]]; digits.
    + destruct (digit_range 51%N ltac:(lia)) as [D1 V1]. value2 51%N b.
    + value2 a b.
    + destruct (digit_range 48%N ltac:(lia)) as [D1 V1]. value2 48%N b.
    + exists (decimal_of b). split.
      * apply (py_int_blank_digit b). assumption.
      * lia.
Qed.

Lemma hour_value (f : pystr) :
  hour_text f = true -> exists h, py_int f = Ret h /\ 0 <= h <= 23.
Proof.
  intros T. destruct f as [| a [| b [| c f]]]; try discriminate;
    cbn [hour_text] in T; prop_of T.
  - value1 a.
  - destruct T as [[-> T] | [T D]]; digits.
    + destruct (digit_range 50%N ltac:(lia)) as [D1 V1]. value2 50%N b.
    + value2 a b.
Qed.

Lemma minute_value (f : pystr) :
  minute_text f = true -> exists mi, py_int f = Ret mi /\ 0 <= mi <= 59.
Proof.
  intros T. destruct f as [| a [| b [| c f]]]; try discriminate;
    cbn [minute_text] in T; prop_of T.
  - value1 a.
  - destruct T as [T D]. digits. value2 a b.
Qed.

(** *** [strptime] reads exactly the lenient pattern *)

Lemma strptime_lenient (t : pystr) :
  (exists dt, Strptime.strptime t = Ret dt) <-> lenient_pattern t.
Proof.
  unfold Strptime.strptime, lenient_pattern. split.
  - intros [dt H].
    destruct (Strptime.re_match Strptime.format_regex t)
      as [[found rest] |] eqn:M; [| discriminate].
    destruct rest; [| discriminate].
    apply format_sound in M.
    destruct M as (fY & fm & fd & ws & fH & fM & -> & TY & Tm & Td & Tw
                   & TH & TM & ->).
    cbn [Strptime.group find fst snd Strptime.directive_eqb] in H.
    unfold obind in H.
    destruct (py_int fY) as [y |] eqn:EY; [| discriminate].
    destruct (py_int fm) as [m |] eqn:Em; [| discriminate].
    destruct (py_int fd) as [dy |] eqn:Ed; [| discriminate].
    destruct (py_int fH) as [h |] eqn:EH; [| discriminate].
    destruct (py_int fM) as [mi |] eqn:EM; [| discriminate].
    destruct (Strptime.check_date_fields y m dy
              && Strptime.check_time_fields h mi) eqn:C; [| discriminate].
    exists fY, fm, fd, ws, fH, fM, y, m, dy. rewrite app_nil_r.
    repeat (split; [first [reflexivity | assumption] |]).
    apply andb_true_iff in C. destruct C as [C _].
    unfold Strptime.check_date_fields in C.
    repeat rewrite andb_true_iff in C. repeat rewrite Z.leb_le in C. lia.
  - intros (fY & fm & fd & ws & fH & fM & y & m & dy & -> & TY & Tm & Td
            & Tw & TH & TM & EY & Em & Ed & Hy & Hd).
    rewrite (format_complete fY fm fd ws fH fM TY Tm Td Tw TH TM).
    cbn [Strptime.group find fst snd Strptime.directive_eqb].
    destruct (year_value fY TY) as (y' & EY' & By).
    destruct (month_value fm Tm) as (m' & Em' & Bm).
    destruct (day_value fd Td) as (dy' & Ed' & Bd).
    destruct (hour_value fH TH) as (h & EH & Bh).
    destruct (minute_value fM TM) as (mi & EM & Bmi).
    assert (y' = y) by congruence. assert (m' = m) by congruence.
    assert (dy' = dy) by congruence. subst y' m' dy'.
    rewrite EY, Em, Ed, EH, EM. unfold obind.
    assert (C : Strptime.check_date_fields y m dy
                && Strptime.check_time_fields h mi = true).
    { unfold Strptime.check_date_fields, Strptime.check_time_fields.
      repeat rewrite andb_true_iff. repeat rewrite Z.leb_le. lia. }
    rewrite C. eexists. reflexivity.
Qed.

Lemma validate_datetime_strptime (t : pystr) :
  validate_datetime t = Ret (true, ""%string)
  <-> exists dt, Strptime.strptime t = Ret dt.
Proof.
  unfold validate_datetime. destruct (Strptime.strptime t) as [dt | e].
  - split; eauto.
  - split.
    + destruct e; discriminate.
    + intros [dt H]. discriminate.
Qed.

(** *** The fixed pattern is within the lenient one *)

Lemma month_length_days (y m : Z) :
  1 <= m <= 12 -> month_length y m = Strptime.days_in_month y m.
Proof.
  intros H. unfold month_length, Strptime.days_in_month, Strptime.is_leap.
  assert (M : m = 1 \/ m = 2 \/ m = 3 \/ m = 4 \/ m = 5 \/ m = 6 \/ m = 7
              \/ m = 8 \/ m = 9 \/ m = 10 \/ m = 11 \/ m = 12) by lia.
  repeat destruct M as [M | M]; subst m; cbn; try reflexivity.
  destruct (Z.eqb_spec (y mod 400) 0) as [A | A];
    destruct (Z.eqb_spec (y mod 4) 0) as [B | B];
    destruct (Z.eqb_spec (y mod 100) 0) as [C | C];
    cbn; try reflexivity; exfalso; Z.div_mod_to_equations; lia.
Qed.


Lemma strict_lenient (t : pystr) :
  strict_pattern t = true -> 1 <= year_of t -> lenient_pattern t.
Proof.
  intros S Y.
  destruct t as [| y1 [| y2 [| y3 [| y4 [| s1 [| m1 [| m2 [| s2 [| d1
    [| d2 [| s3 [| h1 [| h2 [| s4 [| n1 [| n2 [| x t]]]]]]]]]]]]]]]]];
    try discriminate.
  cbn [strict_pattern forallb] in S. unfold ascii_digit in S.
  cbn [year_of] in Y. unfold two_digits, digit_val in *.
  repeat rewrite andb_true_iff in S. repeat rewrite Z.leb_le in S.
  repeat rewrite N.eqb_eq in S.
  repeat match goal with
         | H : _ /\ _ |- _ => destruct H
         end.
  subst s1 s2 s3 s4.
  repeat match goal with
         | H : between "0" "9" ?c = true |- _ =>
             let D := fresh "D" in
             let V := fresh "V" in
             prop_of H; destruct (digit_range c H) as [D V]
         end.
  exists [y1; y2; y3; y4], [m1; m2], [d1; d2], [blank], [h1; h2], [n1; n2].
  exists (100 * (10 * (Z.of_N y1 - 48) + (Z.of_N y2 - 48))
          + (10 * (Z.of_N y3 - 48) + (Z.of_N y4 - 48))).
  exists (10 * (Z.of_N m1 - 48) + (Z.of_N m2 - 48)).
  exists (10 * (Z.of_N d1 - 48) + (Z.of_N d2 - 48)).
  split; [reflexivity |].
  split; [cbn [year_text forallb]; known; reflexivity |].
  split; [cbn [month_text]; prop_of_goal; lia |].
  split; [cbn [day_text]; known; prop_of_goal; lia |].
  split; [vm_compute; reflexivity |].
  split; [cbn [hour_text]; known; prop_of_goal; lia |].
  split; [cbn [minute_text]; known; prop_of_goal; lia |].
  split.
  { rewrite py_int_decimal.
    - f_equal. unfold digits_value. cbn [fold_left]. lia.
    - unfold isdecimal. cbn [forallb]. known. reflexivity.
    - apply short_fits. cbn. lia. }
  split; [rewrite py_int_two by assumption; f_equal; lia |].
  split; [rewrite py_int_two by assumption; f_equal; lia |].
  split; [exact Y |].
  rewrite <- month_length_days by lia. assumption.
Qed.

(** *** The theorem *)

(** A token [strptime] reads though it is not of the fixed pattern:
    month, day and minute are not padded. *)
Lemma datetime_contract_fails_unpadded :
  ~ datetime_contract (str "2025-3-1 9:5").
Proof.
  unfold datetime_contract. intros [H _].
  assert (A : validate_datetime (str "2025-3-1 9:5") = Ret (true, ""%string))
    by (vm_compute; reflexivity).
  specialize (H A). vm_compute in H. discriminate.
Qed.

(** C4, amended.  [validate_datetime] accepts a token exactly when it
    reads as year, "-", month, "-", day, white space, hour, ":", minute,
    where the year is four decimal digits and at least 1, month, day,
    hour and minute are written with one or two digits (the tens digit
    ASCII, the day also with a blank for the tens), the month is 1-12,
    the day is one the month has, the hour is 0-23, the minute 0-59 and
    the white space is one character or more.  Every token of the fixed
    pattern YYYY-MM-DD HH:MM with calendar-valid fields and a year from
    0001 on is accepted: "2024-02-29 23:59" is, "2024-02-30 10:00" is
    not.  The function never raises, and when the four earlier checks
    pass and the token is rejected, [schedule_appointment] returns
    "Invalid date/time format. Use: YYYY-MM-DD HH:MM". *)
Theorem validate_datetime_accepts :
  (forall t, validate_datetime t = Ret (true, ""%string) <-> lenient_pattern t)
  /\ (forall t,
        strict_pattern t = true -> 1 <= year_of t ->
        validate_datetime t = Ret (true, ""%string))
  /\ strict_pattern (str "2024-02-29 23:59") = true
  /\ validate_datetime (str "2024-02-29 23:59") = Ret (true, ""%string)
  /\ strict_pattern (str "2024-02-30 10:00") = false
  /\ validate_datetime (str "2024-02-30 10:00")
     = Ret (false,
            "Invalid date/time format. Use: YYYY-MM-DD HH:MM"%string)
  /\ (forall t,
        validate_datetime t = Ret (true, ""%string)
        \/ validate_datetime t
           = Ret (false,
                  "Invalid date/time format. Use: YYYY-MM-DD HH:MM"%string))
  /\ (forall p d t r w,
        passes p d t w PatientIdFormat = true ->
        passes p d t w DoctorIdFormat = true ->
        passes p d t w PatientExists = true ->
        passes p d t w DoctorExists = true ->
        validate_datetime t <> Ret (true, ""%string) ->
        fst (schedule_appointment p d t r w)
        = Ret (false,
               "Invalid date/time format. Use: YYYY-MM-DD HH:MM"%string)).
Proof.
  split; [| split; [| split; [| split; [| split; [| split; [| split]]]]]].
  - intros t. rewrite validate_datetime_strptime. apply strptime_lenient.
  - intros t S Y. apply validate_datetime_strptime, strptime_lenient.
    now apply strict_lenient.
  - vm_compute. reflexivity.
  - vm_compute. reflexivity.
  - vm_compute. reflexivity.
  - vm_compute. reflexivity.
  - apply validate_datetime_total.
  - intros p d t r w P1 P2 P3 P4 V.
    destruct (passes_patient _ _ _ _ P1 P3) as [Hp (pid & prow & Ep & Sp & Fp)].
    destruct (passes_doctor _ _ _ _ P2 P4) as [Hd (did & drow & Ed & Sd & Fd)].
    pose proof (schedule_appointment_schedules p d t r w) as S.
    inversion S; same_ids; try congruence; reflexivity.
Qed.

Lemma validate_datetime_accepts_witness :
  strict_pattern (str "2025-03-01 10:00") = true
  /\ 1 <= year_of (str "2025-03-01 10:00")
  /\ validate_datetime (str "2025-03-01 10:00") = Ret (true, ""%string)
  /\ lenient_pattern (str "2025-03-01  9:5").
Proof.
  assert (S : strict_pattern (str "2025-03-01 10:00") = true)
    by (vm_compute; reflexivity).
  assert (Y : 1 <= year_of (str "2025-03-01 10:00"))
    by (vm_compute; discriminate).
  split; [exact S |]. split; [exact Y |]. split.
  - exact (proj1 (proj2 validate_datetime_accepts) _ S Y).
  - apply (proj1 validate_datetime_accepts). vm_compute. reflexivity.
Defined.


(** * Further properties of the code *)

(** ** Registration of patients *)

Lemma lstrip_nil_iff (s : pystr) :
  lstrip s = [] <-> forallb Unicode.isspace s = true.
Proof.
  induction s as [| c s IH]; cbn [lstrip forallb]; [tauto |].
  destruct (Unicode.isspace c); cbn [andb]; [exact IH |].
  split; discriminate.
Qed.

Lemma strip_nil_iff (s : pystr) :
  strip s = [] <-> forallb Unicode.isspace s = true.
Proof.
  unfold strip, rstrip. split.
  - intros H. apply lstrip_nil_iff.
    assert (R : lstrip (rev (lstrip s)) = []).
    { destruct (lstrip (rev (lstrip s))); [reflexivity |].
      cbn in H. now apply app_eq_nil in H. }
    apply lstrip_nil_iff in R.
    destruct (lstrip_spec s) as [l [_ [_ H3]]].
    destruct (lstrip s) as [| c u] eqn:E; [reflexivity |].
    exfalso.
    assert (In c (rev (c :: u))) by (apply in_rev; rewrite rev_involutive; now left).
    rewrite forallb_forall in R. specialize (R c H0). congruence.
  - intros H. apply lstrip_nil_iff in H. now rewrite H.
Qed.

Lemma sqlite_int_small (n : Z) : 0 <= n <= 120 -> sqlite_int n = true.
Proof.
  intros H. unfold sqlite_int.
  assert (P : 2 ^ 63 = 9223372036854775808) by reflexivity. rewrite P.
  apply andb_true_iff. split; [apply Z.leb_le | apply Z.ltb_lt]; lia.
Qed.

Lemma validate_patient_data_true (name age gender : pystr) (m : string) :
  validate_patient_data name age gender = Ret (true, m) ->
  m = ""%string /\ strip name <> [] /\ isdigit age = true
  /\ exists n,
       py_int age = Ret n /\ 0 <= n <= 120
       /\ patient_checks n gender = true.
Proof.
  unfold validate_patient_data, obind, patient_checks.
  destruct (strip name) as [| c u]; [discriminate |].
  destruct (isdigit age) eqn:D; cbn [negb]; [| discriminate].
  destruct (py_int age) as [n |] eqn:E; [| discriminate].
  destruct (n <? 0) eqn:L; cbn [orb]; [discriminate |].
  destruct (120 <? n) eqn:U; [discriminate |].
  destruct (pystr_eqb gender (str "Male") || pystr_eqb gender (str "Female"));
    cbn [negb]; [| discriminate].
  intros H. injection H as <-. apply Z.ltb_ge in L. apply Z.ltb_ge in U.
  split; [reflexivity |]. split; [discriminate |]. split; [reflexivity |].
  exists n. split; [reflexivity |]. split; [lia |].
  apply andb_true_iff. split; [apply Z.leb_le; lia | reflexivity].
Qed.

(** What [register_patient] does, by the verdict of the validation. *)
Lemma register_patient_cases (name age gender phone address : pystr)
  (w : world) :
  match validate_patient_data name age gender with
  | Exc e =>
      register_patient name age gender phone address w = (Exc e, w)
  | Ret (false, msg) =>
      register_patient name age gender phone address w
      = (Ret (false, msg), w)
  | Ret (true, _) =>
      exists n,
        py_int age = Ret n /\ 0 <= n <= 120
        /\ register_patient name age gender phone address w
           = (Ret (true, "Patient registered successfully."%string),
              mk_world
                (insert_patient (strip name) n gender (strip phone)
                   (strip address) (db w))
                (journal w
                   ++ [InsertPatient (strip name) n gender (strip phone)
                         (strip address)]))
  end.
Proof.
  unfold register_patient, bind, lift.
  destruct (validate_patient_data name age gender) as [[ok msg] | e] eqn:V;
    [| reflexivity].
  destruct ok; cbn [fst snd negb]; [| reflexivity].
  destruct (validate_patient_data_true _ _ _ _ V)
    as (_ & _ & _ & n & E & B & C).
  exists n. split; [exact E |]. split; [exact B |].
  rewrite E. unfold save_patient, bind, connect, bind_int, query, update, ret.
  rewrite (sqlite_int_small n B). cbn [db journal]. rewrite C. reflexivity.
Qed.

Lemma py_int_digit_token_fails (s : pystr) :
  isdigit s = true ->
  (py_int s = Exc ValueError
   <-> isdecimal s = false \/ (int_max_str_digits < List.length s)%nat).
Proof.
  intros D. split.
  - intros E. destruct (isdecimal s) eqn:C; [| now left]. right.
    destruct (Nat.le_gt_cases (List.length s) int_max_str_digits) as [L | L];
      [| exact L].
    rewrite (py_int_decimal s C L) in E. discriminate.
  - intros H. destruct (py_int s) as [n | e] eqn:E.
    + destruct (py_int_digits_inv s n D E) as [C [_ L]].
      destruct H as [H | H]; [congruence | lia].
    + apply py_int_exc in E. now subst.
Qed.

(** X1.  [validate_patient_data] accepts exactly when the name has a
    character that is not white space, the age is a non-empty run of
    decimal digits (at most 4300 of them) writing a number up to 120,
    and the gender is "Male" or "Female".  It answers "Age must be
    between 0 and 120." exactly when name and age are such and the
    number is above 120: the test [age_int < 0] never decides. *)
Theorem validate_patient_data_accepts (name age gender : pystr) :
  (validate_patient_data name age gender = Ret (true, ""%string)
   <-> forallb Unicode.isspace name = false
       /\ isdecimal age = true
       /\ (List.length age <= int_max_str_digits)%nat
       /\ digits_value age 0 <= 120
       /\ (gender = str "Male" \/ gender = str "Female"))
  /\ (validate_patient_data name age gender
      = Ret (false, "Age must be between 0 and 120."%string)
      <-> forallb Unicode.isspace name = false
          /\ isdecimal age = true
          /\ (List.length age <= int_max_str_digits)%nat
          /\ 120 < digits_value age 0).
Proof.
  assert (B : forallb Unicode.isspace name = false <-> strip name <> []).
  { destruct (forallb Unicode.isspace name) eqn:F.
    - split; [discriminate |]. intros H. exfalso. apply H.
      now apply strip_nil_iff.
    - split; [| reflexivity]. intros _ H. apply strip_nil_iff in H.
      congruence. }
  assert (G : pystr_eqb gender (str "Male") || pystr_eqb gender (str "Female")
              = true
              <-> gender = str "Male" \/ gender = str "Female").
  { now rewrite orb_true_iff, !pystr_eqb_eq. }
  split; split.
  - intros V. destruct (validate_patient_data_true _ _ _ _ V)
      as (_ & N & D & n & E & Bn & C).
    destruct (py_int_digits_inv age n D E) as [Dc [-> L]].
    unfold patient_checks in C. apply andb_true_iff in C.
    destruct C as [_ C]. apply G in C. rewrite B. repeat split; auto; lia.
  - intros (N & D & L & V & Hg). apply B in N. apply G in Hg.
    unfold validate_patient_data, obind.
    destruct (strip name); [congruence |].
    rewrite (isdecimal_isdigit_token age D). cbn [negb].
    rewrite (py_int_decimal age D L).
    pose proof (digits_value_ge age 0 ltac:(lia)) as P.
    destruct (Z.ltb_spec (digits_value age 0) 0); [lia |].
    destruct (Z.ltb_spec 120 (digits_value age 0)); [lia |].
    cbn [orb]. rewrite Hg. reflexivity.
  - unfold validate_patient_data, obind. rewrite B.
    destruct (strip name) as [| c u]; [discriminate |].
    destruct (isdigit age) eqn:D; cbn [negb]; [| discriminate].
    destruct (py_int age) as [n |] eqn:E; [| discriminate].
    destruct (py_int_digits_inv age n D E) as [Dc [-> L]].
    pose proof (digits_value_ge age 0 ltac:(lia)) as P.
    destruct (Z.ltb_spec (digits_value age 0) 0); [lia |]. cbn [orb].
    destruct (Z.ltb_spec 120 (digits_value age 0)).
    + intros _. repeat split; auto. discriminate.
    + destruct (pystr_eqb gender (str "Male")
                || pystr_eqb gender (str "Female")); discriminate.
  - intros (N & D & L & V). apply B in N.
    unfold validate_patient_data, obind.
    destruct (strip name); [congruence |].
    rewrite (isdecimal_isdigit_token age D). cbn [negb].
    rewrite (py_int_decimal age D L).
    destruct (Z.ltb_spec 120 (digits_value age 0)); [| lia].
    now rewrite orb_true_r.
Qed.

Lemma find_app_last {A : Type} (f : A -> bool) (l : list A) (x : A) :
  (forall y, In y l -> f y = false) -> f x = true ->
  find f (l ++ [x]) = Some x.
Proof.
  intros H Hx. induction l as [| y l IH]; cbn.
  - now rewrite Hx.
  - rewrite (H y (or_introl eq_refl)). apply IH. intros z Hz. apply H.
    now right.
Qed.

(** X2.  When the validation accepts, [register_patient] returns
    success and the patients table gains one row at its end: a new id
    above every id of the table, the name, phone and address stripped,
    the age as an integer, the gender as given; the other tables are
    unchanged, and [get_patient_by_id] of the new id returns the row
    (when the id is one SQLite holds). *)
Theorem register_patient_success (name age gender phone address : pystr)
  (w : world) :
  validate_patient_data name age gender = Ret (true, ""%string) ->
  let w' := snd (register_patient name age gender phone address w) in
  exists n row,
    py_int age = Ret n
    /\ fst (register_patient name age gender phone address w)
       = Ret (true, "Patient registered successfully."%string)
    /\ patients (db w') = patients (db w) ++ [row]
    /\ p_name row = strip name /\ p_age row = n /\ p_gender row = gender
    /\ p_phone row = Some (strip phone)
    /\ p_address row = Some (strip address)
    /\ (forall old, In old (patients (db w)) -> p_id old < p_id row)
    /\ users (db w') = users (db w)
    /\ doctors (db w') = doctors (db w)
    /\ appointments (db w') = appointments (db w)
    /\ (sqlite_int (p_id row) = true ->
        fst (get_patient_by_id (p_id row) w') = Ret (Some row)).
Proof.
  intros V w'. subst w'.
  pose proof (register_patient_cases name age gender phone address w) as C.
  rewrite V in C. destruct C as (n & E & B & ->). cbn [fst snd db].
  exists n. eexists. split; [exact E |]. split; [reflexivity |].
  unfold insert_patient at 1. cbn [patients]. split; [reflexivity |].
  cbn [p_name p_age p_gender p_phone p_address p_id].
  repeat (split; [reflexivity |]).
  assert (F : forall old, In old (patients (db w)) ->
              p_id old
              < next_rowid (map p_id (patients (db w))) (patients_seq (db w))).
  { intros old Hin. unfold next_rowid.
    pose proof (fold_right_max_ge (map p_id (patients (db w)))
                  (patients_seq (db w)) (p_id old) (in_map p_id _ _ Hin)).
    lia. }
  split; [exact F |].
  repeat (split; [reflexivity |]).
  intros S. rewrite get_patient_by_id_eq, S. cbn [fst]. f_equal.
  unfold patient_row_of, logged. cbn [db]. unfold insert_patient.
  cbn [patients]. apply find_app_last.
  - intros y Hy. apply Z.eqb_neq. specialize (F y Hy). lia.
  - cbn [p_id]. apply Z.eqb_refl.
Qed.

Lemma register_patient_success_witness :
  validate_patient_data (str " Omar ") (str "040") (str "Male")
  = Ret (true, ""%string)
  /\ exists row,
       patients
         (db (snd (register_patient (str " Omar ") (str "040") (str "Male")
                     (str " 0598 ") (str "") clinic)))
       = patients (db clinic) ++ [row]
       /\ p_name row = str "Omar" /\ p_age row = 40.
Proof.
  assert (V : validate_patient_data (str " Omar ") (str "040") (str "Male")
              = Ret (true, ""%string)) by (vm_compute; reflexivity).
  split; [exact V |].
  destruct (register_patient_success (str " Omar ") (str "040") (str "Male")
              (str " 0598 ") (str "") clinic V)
    as (n & row & E & _ & P & N & A & _).
  exists row. split; [exact P |]. split.
  - rewrite N. vm_compute. reflexivity.
  - rewrite A. vm_compute in E. congruence.
Defined.

(** X3.  Unless [register_patient] returns success, it leaves the
    state exactly as it was: no table is written and no repository call
    is made. *)
Theorem register_patient_rejection (name age gender phone address : pystr)
  (w : world) :
  fst (register_patient name age gender phone address w)
  <> Ret (true, "Patient registered successfully."%string) ->
  snd (register_patient name age gender phone address w) = w.
Proof.
  intros H.
  pose proof (register_patient_cases name age gender phone address w) as C.
  destruct (validate_patient_data name age gender) as [[[|] msg] | e].
  - destruct C as (n & _ & _ & E). rewrite E in H. cbn in H. congruence.
  - now rewrite C.
  - now rewrite C.
Qed.

Lemma register_patient_rejection_witness :
  fst (register_patient (str "Omar") (str "121") (str "Male") (str "")
         (str "") clinic)
  <> Ret (true, "Patient registered successfully."%string)
  /\ snd (register_patient (str "Omar") (str "121") (str "Male") (str "")
            (str "") clinic) = clinic.
Proof.
  assert (H : fst (register_patient (str "Omar") (str "121") (str "Male")
                     (str "") (str "") clinic)
              <> Ret (true, "Patient registered successfully."%string))
    by (vm_compute; discriminate).
  split; [exact H |]. exact (register_patient_rejection _ _ _ _ _ _ H).
Defined.

Lemma validate_patient_data_raises (name age gender : pystr) (e : exn) :
  validate_patient_data name age gender = Exc e
  <-> strip name <> [] /\ isdigit age = true /\ py_int age = Exc e.
Proof.
  unfold validate_patient_data, obind.
  destruct (strip name) as [| c u].
  - split; [discriminate | intros [H _]; congruence].
  - destruct (isdigit age); cbn [negb].
    + destruct (py_int age) as [n | e'].
      * split; [| intros (_ & _ & H); discriminate].
        destruct ((n <? 0) || (120 <? n)); [discriminate |].
        destruct (negb _); discriminate.
      * split.
        -- intros H. injection H as ->. repeat split. discriminate.
        -- intros (_ & _ & H). injection H as ->. reflexivity.
    + split; [discriminate | intros (_ & H & _); discriminate].
Qed.

(** X4.  The only exception [register_patient] raises is [ValueError],
    and it raises it exactly when the name is not blank and the age
    passes [isdigit] without being a run of at most 4300 decimal digits.
    The CHECK constraints of the table and the integer binding never
    fail. *)
Theorem register_patient_raises (name age gender phone address : pystr)
  (w : world) :
  (forall e,
     fst (register_patient name age gender phone address w) = Exc e ->
     e = ValueError)
  /\ (fst (register_patient name age gender phone address w) = Exc ValueError
      <-> forallb Unicode.isspace name = false
          /\ isdigit age = true
          /\ (isdecimal age = false
              \/ (int_max_str_digits < List.length age)%nat)).
Proof.
  pose proof (register_patient_cases name age gender phone address w) as C.
  pose proof (validate_patient_data_raises name age gender) as V.
  assert (R : forall e,
            fst (register_patient name age gender phone address w) = Exc e
            <-> validate_patient_data name age gender = Exc e).
  { intros e. clear V.
    destruct (validate_patient_data name age gender) as [[[|] msg] | e'].
    - destruct C as (n & _ & _ & ->). cbn. split; discriminate.
    - rewrite C. cbn. split; discriminate.
    - rewrite C. cbn. tauto. }
  split.
  - intros e H. apply R, V in H. destruct H as (_ & _ & H).
    now apply py_int_exc in H.
  - rewrite R, V. split.
    + intros (N & D & E). split.
      * destruct (forallb Unicode.isspace name) eqn:F; [| reflexivity].
        apply strip_nil_iff in F. congruence.
      * split; [exact D |]. now apply py_int_digit_token_fails.
    + intros (N & D & E). split.
      * intros H. apply strip_nil_iff in H. congruence.
      * split; [exact D |]. now apply py_int_digit_token_fails.
Qed.

Lemma register_patient_raises_witness :
  fst (register_patient (str "Omar") superscript_two (str "Male") (str "")
         (str "") clinic) = Exc ValueError
  /\ isdigit superscript_two = true /\ isdecimal superscript_two = false.
Proof.
  split; [| split; vm_compute; reflexivity].
  apply (proj2 (register_patient_raises (str "Omar") superscript_two
                  (str "Male") (str "") (str "") clinic)).
  split; [vm_compute; reflexivity |].
  split; [vm_compute; reflexivity |]. left. vm_compute. reflexivity.
Defined.


(** ** Scheduling: exceptions *)

(** X5.  When [schedule_appointment] raises, both id tokens have passed
    [isdigit] and the tables are unchanged.  The exception is
    [ValueError], one of the tokens not being a run of at most 4300
    decimal digits, or [OverflowError], one of the two integers being
    outside SQLite's 64 bits; it is never [IntegrityError]. *)
Theorem schedule_appointment_raises (p d t r : pystr) (w : world) (e : exn) :
  fst (schedule_appointment p d t r w) = Exc e ->
  db (snd (schedule_appointment p d t r w)) = db w
  /\ isdigit p = true /\ isdigit d = true
  /\ e <> IntegrityError
  /\ ((e = ValueError
       /\ (isdecimal p = false
           \/ (int_max_str_digits < List.length p)%nat
           \/ isdecimal d = false
           \/ (int_max_str_digits < List.length d)%nat))
      \/ (e = OverflowError
          /\ exists pid did,
               py_int p = Ret pid /\ py_int d = Ret did
               /\ (sqlite_int pid = false \/ sqlite_int did = false))).
Proof.
  destruct (schedule_appointment p d t r w) as [o w'] eqn:Q.
  cbn [fst snd]. intros ->. apply schedule_appointment_paths in Q.
  inversion Q as [ | | e' Hp Hd Ep | pid e' Hp Hd Ep Ed
                 | pid did Hp Hd Ep Ed Sp | | pid did prow Hp Hd Ep Ed Sp Fp Sd
                 | | | | ]; subst.
  - pose proof (py_int_exc _ _ Ep) as ->.
    apply (py_int_digit_token_fails p Hp) in Ep.
    split; [reflexivity |]. split; [exact Hp |]. split; [exact Hd |].
    split; [discriminate |]. left. split; [reflexivity |]. tauto.
  - pose proof (py_int_exc _ _ Ed) as ->.
    apply (py_int_digit_token_fails d Hd) in Ed.
    split; [reflexivity |]. split; [exact Hp |]. split; [exact Hd |].
    split; [discriminate |]. left. split; [reflexivity |]. tauto.
  - split; [reflexivity |]. split; [exact Hp |]. split; [exact Hd |].
    split; [discriminate |]. right. split; [reflexivity |].
    exists pid, did. auto.
  - split; [reflexivity |]. split; [exact Hp |]. split; [exact Hd |].
    split; [discriminate |]. right. split; [reflexivity |].
    exists pid, did. auto.
Qed.

Lemma schedule_appointment_raises_witness :
  fst (schedule_appointment (str "1") (str "99999999999999999999")
         (str "2025-03-01 10:00") (str "checkup") clinic)
  = Exc OverflowError
  /\ db (snd (schedule_appointment (str "1") (str "99999999999999999999")
                (str "2025-03-01 10:00") (str "checkup") clinic))
     = db clinic.
Proof.
  assert (E : fst (schedule_appointment (str "1")
                     (str "99999999999999999999") (str "2025-03-01 10:00")
                     (str "checkup") clinic)
              = Exc OverflowError) by (vm_compute; reflexivity).
  split; [exact E |].
  exact (proj1 (schedule_appointment_raises _ _ _ _ _ _ E)).
Defined.

(** ** [save_appointment] and [is_doctor_available] *)

Lemma save_appointment_cases (pid did : Z) (t r : pystr) (w : world) :
  save_appointment pid did t r w
  = if sqlite_int pid then
      if sqlite_int did then
        if foreign_keys pid did (db w) then
          (Ret tt,
           mk_world (insert_appointment pid did t r (db w))
             (journal w ++ [InsertAppointment pid did t r]))
        else (Exc IntegrityError, logged w [InsertAppointment pid did t r])
      else (Exc OverflowError, logged w [InsertAppointment pid did t r])
    else (Exc OverflowError, logged w [InsertAppointment pid did t r]).
Proof.
  unfold save_appointment, bind, connect, bind_int, query, update, logged,
    ret, raise.
  destruct (sqlite_int pid); [| reflexivity].
  destruct (sqlite_int did); [| reflexivity]. cbn [db journal].
  destruct (foreign_keys pid did (db w)); reflexivity.
Qed.

(** X6.  [save_appointment] succeeds exactly when both ids are integers
    SQLite holds and name a patient and a doctor of the tables; with
    such integers and a missing patient or doctor it raises
    [IntegrityError]; when it does not succeed the tables are unchanged.
    After it succeeds [is_doctor_available] answers false for that
    doctor at that string, and as before for every other doctor or
    string. *)
Theorem save_appointment_books_slot (pid did : Z) (t r : pystr) (w : world) :
  let w' := snd (save_appointment pid did t r w) in
  (fst (save_appointment pid did t r w) = Ret tt
   <-> sqlite_int pid = true /\ sqlite_int did = true
       /\ foreign_keys pid did (db w) = true)
  /\ (sqlite_int pid = true -> sqlite_int did = true ->
      foreign_keys pid did (db w) = false ->
      fst (save_appointment pid did t r w) = Exc IntegrityError)
  /\ (fst (save_appointment pid did t r w) <> Ret tt -> db w' = db w)
  /\ (fst (save_appointment pid did t r w) = Ret tt ->
      fst (is_doctor_available did t w') = Ret false
      /\ forall did' t',
           (did' <> did \/ t' <> t) ->
           fst (is_doctor_available did' t' w')
           = fst (is_doctor_available did' t' w)).
Proof.
  intros w'. subst w'. rewrite save_appointment_cases.
  destruct (sqlite_int pid) eqn:Sp; [destruct (sqlite_int did) eqn:Sd;
    [destruct (foreign_keys pid did (db w)) eqn:K |] |]; cbn [fst snd].
  - split; [tauto |]. split; [discriminate |]. split; [congruence |].
    intros _. split.
    + rewrite is_doctor_available_eq, Sd. cbn [fst db]. f_equal.
      rewrite count_scheduled_insert, Z.eqb_refl, pystr_eqb_refl.
      cbn [andb]. pose proof (count_scheduled_nonneg did t (db w)).
      apply Z.eqb_neq. lia.
    + intros did' t' N. rewrite !is_doctor_available_eq. cbn [fst db].
      rewrite count_scheduled_insert.
      destruct ((did =? did') && pystr_eqb t t') eqn:B.
      * apply andb_true_iff in B. destruct B as [B1 B2].
        apply Z.eqb_eq in B1. apply pystr_eqb_eq in B2. subst.
        destruct N; congruence.
      * now rewrite Z.add_0_r.
  - split; [split; [discriminate | intros (_ & _ & H); discriminate] |].
    split; [reflexivity |]. split; [reflexivity |]. discriminate.
  - split; [split; [discriminate | intros (_ & H & _); discriminate] |].
    split; [discriminate |]. split; [reflexivity |]. discriminate.
  - split; [split; [discriminate | intros (H & _); discriminate] |].
    split; [discriminate |]. split; [reflexivity |]. discriminate.
Qed.

Lemma save_appointment_books_slot_witness :
  fst (save_appointment 1 2 (str "2025-03-01 10:00") (str "checkup") clinic)
  = Ret tt
  /\ fst (is_doctor_available 2 (str "2025-03-01 10:00")
            (snd (save_appointment 1 2 (str "2025-03-01 10:00")
                    (str "checkup") clinic)))
     = Ret false
  /\ fst (save_appointment 9 2 (str "2025-03-01 10:00") (str "checkup")
            clinic)
     = Exc IntegrityError.
Proof.
  assert (E : fst (save_appointment 1 2 (str "2025-03-01 10:00")
                     (str "checkup") clinic) = Ret tt)
    by (vm_compute; reflexivity).
  split; [exact E |].
  pose proof (save_appointment_books_slot 1 2 (str "2025-03-01 10:00")
                (str "checkup") clinic) as H.
  cbv zeta in H. destruct H as (_ & _ & _ & H). split.
  - exact (proj1 (H E)).
  - apply (proj1 (proj2 (save_appointment_books_slot 9 2
                           (str "2025-03-01 10:00") (str "checkup") clinic)));
      vm_compute; reflexivity.
Defined.

(** ** The rows the program writes *)

Lemma strip_fixed (s : pystr) :
  match s with
  | c :: _ => Unicode.isspace c = false
  | [] => True
  end ->
  match rev s with
  | c :: _ => Unicode.isspace c = false
  | [] => True
  end ->
  strip s = s.
Proof.
  intros H1 H2. unfold strip, rstrip.
  assert (L : forall u : pystr,
            match u with
            | c :: _ => Unicode.isspace c = false
            | [] => True
            end -> lstrip u = u).
  { intros [| c u] H; cbn [lstrip]; [reflexivity |]. now rewrite H. }
  rewrite (L s H1), (L (rev s) H2). apply rev_involutive.
Qed.

Lemma strip_idempotent (s : pystr) : strip (strip s) = strip s.
Proof.
  destruct (strip_spec s) as (l & r & _ & _ & _ & H1 & H2).
  now apply strip_fixed.
Qed.

Lemma appointment_ok_grows (d d' : database) (a : appointment_row) ps :
  patients d' = patients d ++ ps -> doctors d' = doctors d ->
  appointment_ok d a -> appointment_ok d' a.
Proof.
  intros P D (H1 & H2 & H3 & H4 & H5 & H6 & H7).
  unfold appointment_ok. rewrite P, D, existsb_app, H6. tauto.
Qed.

(** One action of the program adds at most one patient row and at most
    one appointment row, at the end of its table, and changes nothing
    else in the tables. *)
Lemma run_step (a : action) (w : world) :
  let d := db w in
  let d' := db (snd (run a w)) in
  users d' = users d /\ doctors d' = doctors d
  /\ ((patients d' = patients d /\ patients_seq d' = patients_seq d)
      \/ exists row,
           patients d' = patients d ++ [row] /\ patient_ok row
           /\ p_id row = next_rowid (map p_id (patients d)) (patients_seq d)
           /\ patients_seq d' = p_id row)
  /\ ((appointments d' = appointments d
       /\ appointments_seq d' = appointments_seq d)
      \/ exists row,
           appointments d' = appointments d ++ [row]
           /\ appointment_ok d' row
           /\ a_id row
              = next_rowid (map a_id (appointments d)) (appointments_seq d)
           /\ appointments_seq d' = a_id row).
Proof.
  intros d d'. subst d d'.
  destruct a as [name age gender phone address | p dt t r]; cbn [run].
  - pose proof (register_patient_cases name age gender phone address w) as C.
    destruct (validate_patient_data name age gender) as [[[|] msg] | e] eqn:V;
      try (rewrite C; cbn [snd]; repeat split; left; split; reflexivity).
    destruct C as (n & E & B & ->). cbn [snd db].
    split; [reflexivity |]. split; [reflexivity |].
    split; [| left; split; reflexivity].
    right. eexists. unfold insert_patient. cbn [patients patients_seq].
    split; [reflexivity |]. split; [| split; reflexivity].
    destruct (validate_patient_data_true _ _ _ _ V)
      as (_ & N & _ & n' & E' & _ & C).
    assert (n' = n) by congruence. subst n'.
    unfold patient_ok.
    cbn [p_name p_age p_gender p_phone p_address].
    split; [exact N |]. split; [apply strip_idempotent |].
    split; [exact B |]. split.
    + unfold patient_checks in C. apply andb_true_iff in C.
      destruct C as [_ C]. apply orb_true_iff in C.
      now rewrite !pystr_eqb_eq in C.
    + split; eexists; (split; [reflexivity | apply strip_idempotent]).
  - destruct (schedule_appointment p dt t r w) as [o w'] eqn:Q.
    cbn [snd]. apply schedule_appointment_paths in Q.
    inversion Q; subst; unfold logged; cbn [db];
      try (repeat split; left; split; reflexivity).
    unfold insert_appointment at 1 2 3 4 5 6.
    cbn [users doctors patients patients_seq appointments appointments_seq].
    split; [reflexivity |]. split; [reflexivity |].
    split; [left; split; reflexivity |].
    right. eexists. split; [reflexivity |].
    split; [| split; reflexivity].
    unfold appointment_ok, insert_appointment.
    cbn [a_status a_appt_datetime a_reason a_patient_id a_doctor_id
         patients doctors].
    unfold patient_row_of, doctor_row_of in *.
    repeat split; auto.
    + eexists. split; [reflexivity | apply strip_idempotent].
    + eapply find_existsb; eassumption.
    + eapply find_existsb; eassumption.
Qed.

Lemma sorted_snoc (l : list Z) (y : Z) :
  StronglySorted Z.lt l -> (forall x, In x l -> x < y) ->
  StronglySorted Z.lt (l ++ [y]).
Proof.
  intros S G. induction S as [| x l S IH F]; cbn [app].
  - repeat constructor.
  - constructor.
    + apply IH. intros z Hz. apply G. now right.
    + apply Forall_app. split; [exact F |].
      constructor; [| constructor]. apply G. now left.
Qed.

Lemma ids_increase_snoc (ids : list Z) (seq : Z) :
  ids_increase ids seq ->
  ids_increase (ids ++ [next_rowid ids seq]) (next_rowid ids seq).
Proof.
  intros [S B]. unfold ids_increase.
  assert (G : forall x, In x ids -> x < next_rowid ids seq).
  { intros x Hx. unfold next_rowid.
    pose proof (fold_right_max_ge ids seq x Hx). lia. }
  split.
  - now apply sorted_snoc.
  - apply Forall_app. split.
    + apply Forall_forall. intros x Hx. specialize (G x Hx). lia.
    + constructor; [lia | constructor].
Qed.

(** X7.  In every state the program reaches, every appointment row has
    status Scheduled, a date-time string that [validate_datetime]
    accepts, a reason without white space at its ends, and ids of a
    patient and a doctor that are in their tables; the row ids grow
    strictly along the table, within the counter, and so are unique. *)
Theorem reachable_appointments_ok (w : world) :
  reachable w ->
  Forall (appointment_ok (db w)) (appointments (db w))
  /\ ids_increase (map a_id (appointments (db w))) (appointments_seq (db w))
  /\ NoDup (map a_id (appointments (db w))).
Proof.
  intros R.
  assert (H : Forall (appointment_ok (db w)) (appointments (db w))
              /\ ids_increase (map a_id (appointments (db w)))
                   (appointments_seq (db w))).
  { induction R as [w E | w a R [IH1 IH2]].
    - rewrite E. split; [constructor |]. split; constructor.
    - pose proof (run_step a w) as S. cbv zeta in S.
      destruct S as (_ & D & P & A).
      assert (G : Forall (appointment_ok (db (snd (run a w))))
                    (appointments (db w))).
      { destruct P as [[P _] | (row & P & _)].
        - revert IH1. apply Forall_impl. intros x.
          apply (appointment_ok_grows _ _ _ []); [| exact D].
          now rewrite app_nil_r.
        - revert IH1. apply Forall_impl. intros x.
          now apply (appointment_ok_grows _ _ _ [row]). }
      destruct A as [[A1 A2] | (row & A1 & A2 & A3 & A4)].
      + rewrite A1, A2. auto.
      + rewrite A1, A4, map_app. cbn [map]. split.
        * apply Forall_app. split; [exact G |]. constructor; [exact A2 |].
          constructor.
        * rewrite A3. now apply ids_increase_snoc. }
  destruct H as [H1 H2]. split; [exact H1 |]. split; [exact H2 |].
  destruct H2 as [S _]. clear - S.
  induction S as [| x l S IH F]; constructor; [| exact IH].
  intros Hin. rewrite Forall_forall in F. specialize (F x Hin). lia.
Qed.

Lemma reachable_appointments_ok_witness :
  reachable
    (snd (schedule_appointment (str "1") (str "2") (str "2025-03-01 10:00")
            (str " checkup ") clinic))
  /\ Forall
       (appointment_ok
          (db (snd (schedule_appointment (str "1") (str "2")
                      (str "2025-03-01 10:00") (str " checkup ") clinic))))
       (appointments
          (db (snd (schedule_appointment (str "1") (str "2")
                      (str "2025-03-01 10:00") (str " checkup ") clinic)))).
Proof.
  assert (R : reachable
                (snd (schedule_appointment (str "1") (str "2")
                        (str "2025-03-01 10:00") (str " checkup ") clinic))).
  { apply (reachable_run clinic
             (Schedule (str "1") (str "2") (str "2025-03-01 10:00")
                (str " checkup "))).
    apply reachable_fresh. reflexivity. }
  split; [exact R |]. exact (proj1 (reachable_appointments_ok _ R)).
Defined.

(** X8.  The program only appends: in a later state the users and
    doctors tables are the same, and the patients and appointments
    tables are the earlier ones followed by new rows, each new patient
    row and appointment row being as [register_patient] and
    [schedule_appointment] write them. *)
Theorem later_appends (w w' : world) :
  later w w' ->
  users (db w') = users (db w) /\ doctors (db w') = doctors (db w)
  /\ exists ps aps,
       patients (db w') = patients (db w) ++ ps
       /\ appointments (db w') = appointments (db w) ++ aps
       /\ Forall patient_ok ps
       /\ Forall (appointment_ok (db w')) aps.
Proof.
  induction 1 as [| w' a L (U & D & ps & aps & P & A & Fp & Fa)].
  - split; [reflexivity |]. split; [reflexivity |]. exists [], [].
    rewrite !app_nil_r. repeat split; constructor.
  - pose proof (run_step a w') as S. cbv zeta in S.
    destruct S as (U' & D' & P' & A').
    split; [congruence |]. split; [congruence |].
    assert (G : exists ps1,
              patients (db (snd (run a w'))) = patients (db w') ++ ps1
              /\ Forall patient_ok ps1).
    { destruct P' as [[E _] | (row & E & O & _)].
      - exists []. rewrite app_nil_r. split; [exact E | constructor].
      - exists [row]. split; [exact E |].
        constructor; [exact O | constructor]. }
    destruct G as (ps1 & E1 & O1).
    assert (K : Forall (appointment_ok (db (snd (run a w')))) aps).
    { revert Fa. apply Forall_impl. intros x.
      now apply (appointment_ok_grows _ _ _ ps1). }
    exists (ps ++ ps1).
    destruct A' as [[E2 _] | (row & E2 & O2 & _)].
    + exists aps. rewrite E1, E2, P, A, app_assoc.
      repeat split; auto. apply Forall_app. auto.
    + exists (aps ++ [row]). rewrite E1, E2, P, A, !app_assoc.
      repeat split; auto.
      * apply Forall_app. auto.
      * apply Forall_app. split; [exact K |].
        constructor; [exact O2 | constructor].
Qed.

Lemma later_appends_witness :
  later clinic
    (snd (run (Register (str " Omar ") (str "040") (str "Male") (str "")
                 (str "")) clinic))
  /\ doctors
       (db (snd (run (Register (str " Omar ") (str "040") (str "Male")
                        (str "") (str "")) clinic)))
     = doctors (db clinic).
Proof.
  assert (L : later clinic
                (snd (run (Register (str " Omar ") (str "040") (str "Male")
                             (str "") (str "")) clinic)))
    by (apply later_run; apply later_now).
  split; [exact L |]. exact (proj1 (proj2 (later_appends _ _ L))).
Defined.


(** ** Listings *)

Lemma insert_by_perm {A : Type} (before : A -> A -> bool) (x : A)
  (l : list A) :
  Permutation (insert_by before x l) (x :: l).
Proof.
  induction l as [| y l IH]; cbn [insert_by]; [reflexivity |].
  destruct (before x y); [reflexivity |].
  rewrite IH. apply perm_swap.
Qed.

Lemma order_by_perm {A : Type} (before : A -> A -> bool) (l : list A) :
  Permutation (order_by before l) l.
Proof.
  unfold order_by. induction l as [| x l IH]; cbn [fold_right];
    [reflexivity |].
  rewrite insert_by_perm. now constructor.
Qed.

Section Ordering.

Context {A : Type} (before : A -> A -> bool).
Hypothesis before_total : forall x y, before x y = false -> before y x = true.
Hypothesis before_trans :
  forall x y z, before x y = true -> before y z = true -> before x z = true.

Lemma insert_by_sorted (x : A) (l : list A) :
  StronglySorted (fun a b => before a b = true) l ->
  StronglySorted (fun a b => before a b = true) (insert_by before x l).
Proof.
  induction 1 as [| y l S IH F]; cbn [insert_by].
  - repeat constructor.
  - destruct (before x y) eqn:B.
    + constructor; [now constructor |].
      constructor; [exact B |].
      revert F. apply Forall_impl. intros z. now apply before_trans.
    + constructor; [exact IH |].
      apply (Permutation_Forall (Permutation_sym (insert_by_perm before x l))).
      constructor; [now apply before_total | exact F].
Qed.

Lemma order_by_sorted (l : list A) :
  StronglySorted (fun a b => before a b = true) (order_by before l).
Proof.
  unfold order_by. induction l as [| x l IH]; cbn [fold_right].
  - constructor.
  - now apply insert_by_sorted.
Qed.

End Ordering.

Lemma order_by_snoc_first {A : Type} (before : A -> A -> bool) (x : A)
  (l : list A) :
  (forall y, In y l -> before y x = false) ->
  order_by before (l ++ [x]) = x :: order_by before l.
Proof.
  unfold order_by. intros H. rewrite fold_right_app. cbn [fold_right insert_by].
  induction l as [| y l IH]; cbn [fold_right]; [reflexivity |].
  rewrite IH by (intros z Hz; apply H; now right).
  cbn [insert_by]. now rewrite (H y (or_introl eq_refl)).
Qed.

Lemma sorted_weaken {A : Type} (R1 R2 : A -> A -> Prop) (l : list A) :
  (forall a b, R1 a b -> R2 a b) ->
  StronglySorted R1 l -> StronglySorted R2 l.
Proof.
  intros H. induction 1 as [| x l S IH F]; constructor; [exact IH |].
  revert F. apply Forall_impl. intros y. apply H.
Qed.

(** X9.  [list_patients] returns every row of the patients table once,
    as (id, name, age, gender), the highest id first, and
    [list_doctors] every row of the doctors table once, as (id, name,
    specialty), the lowest id first; neither changes the state. *)
Theorem listings_are_sorted (w : world) :
  (exists rows,
     list_patients w = (Ret rows, w)
     /\ Permutation rows (map patient_line_of (patients (db w)))
     /\ StronglySorted
          (fun a b => patient_line_id b <= patient_line_id a) rows)
  /\ (exists rows,
        list_doctors w = (Ret rows, w)
        /\ Permutation rows (map doctor_line_of (doctors (db w)))
        /\ StronglySorted
             (fun a b => doctor_line_id a <= doctor_line_id b) rows).
Proof.
  split; eexists; (split; [reflexivity |]); (split; [apply order_by_perm |]).
  - apply (sorted_weaken
             (fun a b => (patient_line_id b <=? patient_line_id a) = true)).
    + intros a b. apply Z.leb_le.
    + apply (order_by_sorted
               (fun a b => patient_line_id b <=? patient_line_id a)).
      * intros x y H. apply Z.leb_gt in H. apply Z.leb_le. lia.
      * intros x y z H1 H2. apply Z.leb_le in H1, H2. apply Z.leb_le. lia.
  - apply (sorted_weaken
             (fun a b => (doctor_line_id a <=? doctor_line_id b) = true)).
    + intros a b. apply Z.leb_le.
    + apply (order_by_sorted
               (fun a b => doctor_line_id a <=? doctor_line_id b)).
      * intros x y H. apply Z.leb_gt in H. apply Z.leb_le. lia.
      * intros x y z H1 H2. apply Z.leb_le in H1, H2. apply Z.leb_le. lia.
Qed.

(** X10.  After [register_patient] has succeeded, [list_patients] returns
    the new patient first, with the stripped name, the age as an
    integer and the gender, and after it the rows it returned
    before. *)
Theorem register_then_list (name age gender phone address : pystr)
  (w : world) :
  validate_patient_data name age gender = Ret (true, ""%string) ->
  let w1 := snd (register_patient name age gender phone address w) in
  exists id n rows,
    py_int age = Ret n
    /\ fst (list_patients w) = Ret rows
    /\ fst (list_patients w1) = Ret ((id, strip name, n, gender) :: rows)
    /\ Forall (fun l => patient_line_id l < id) rows.
Proof.
  intros V w1. subst w1.
  pose proof (register_patient_cases name age gender phone address w) as C.
  rewrite V in C. destruct C as (n & E & B & ->). cbn [snd].
  exists (next_rowid (map p_id (patients (db w))) (patients_seq (db w))), n.
  eexists. split; [exact E |]. split; [reflexivity |].
  assert (F : forall old, In old (patients (db w)) ->
              p_id old
              < next_rowid (map p_id (patients (db w))) (patients_seq (db w))).
  { intros old Hin. unfold next_rowid.
    pose proof (fold_right_max_ge (map p_id (patients (db w)))
                  (patients_seq (db w)) (p_id old) (in_map p_id _ _ Hin)).
    lia. }
  split.
  - unfold list_patients, query. cbn [fst db]. f_equal.
    unfold insert_patient. cbn [patients]. rewrite map_app. cbn [map].
    rewrite order_by_snoc_first; [reflexivity |].
    intros y Hy. apply in_map_iff in Hy. destruct Hy as (old & <- & Hin).
    apply Z.leb_gt. unfold patient_line_id, patient_line_of. cbn [fst p_id].
    now apply F.
  - apply Forall_forall. intros l Hl.
    apply (Permutation_in _ (order_by_perm _ _)) in Hl.
    apply in_map_iff in Hl. destruct Hl as (old & <- & Hin).
    unfold patient_line_id, patient_line_of. cbn [fst]. now apply F.
Qed.

Lemma register_then_list_witness :
  validate_patient_data (str " Omar ") (str "040") (str "Male")
  = Ret (true, ""%string)
  /\ exists id rows,
       fst (list_patients
              (snd (register_patient (str " Omar ") (str "040") (str "Male")
                      (str "") (str "") clinic)))
       = Ret ((id, str "Omar", 40, str "Male") :: rows).
Proof.
  assert (V : validate_patient_data (str " Omar ") (str "040") (str "Male")
              = Ret (true, ""%string)) by (vm_compute; reflexivity).
  split; [exact V |].
  destruct (register_then_list (str " Omar ") (str "040") (str "Male")
              (str "") (str "") clinic V)
    as (id & n & rows & E & L & L1 & _).
  exists id, rows. rewrite L1.
  assert (n = 40) by (vm_compute in E; congruence). subst n.
  replace (strip (str " Omar ")) with (str "Omar") by (vm_compute; reflexivity).
  reflexivity.
Defined.

(** ** The listing of appointments *)

Lemma text_compare_antisym (a : pystr) : forall b,
  text_compare b a = CompOpp (text_compare a b).
Proof.
  induction a as [| x a IH]; intros [| y b]; cbn [text_compare CompOpp];
    try reflexivity.
  rewrite (N.compare_antisym x y).
  destruct (N.compare x y); cbn [CompOpp]; auto.
Qed.

Lemma text_le_total (a b : pystr) : text_le a b = false -> text_le b a = true.
Proof.
  unfold text_le. rewrite (text_compare_antisym a b).
  destruct (text_compare a b); cbn [CompOpp]; congruence.
Qed.

Lemma text_le_trans (a : pystr) : forall b c,
  text_le a b = true -> text_le b c = true -> text_le a c = true.
Proof.
  unfold text_le.
  induction a as [| x a IH]; intros [| y b] [| z c];
    cbn [text_compare]; try congruence.
  destruct (N.compare_spec x y) as [-> | L1 | L1]; try congruence.
  - destruct (N.compare_spec y z) as [-> | L2 | L2]; try congruence.
    apply IH.
  - destruct (N.compare_spec y z) as [-> | L2 | L2]; try congruence.
    + intros _ _. destruct (N.compare_spec x z); try reflexivity; lia.
    + intros _ _. destruct (N.compare_spec x z); try reflexivity; lia.
Qed.

(** X11.  [list_appointments] returns the rows of the two joins, each
    once, with the date-time strings in descending order, and does not
    change the state. *)
Theorem list_appointments_lists (w : world) :
  exists rows,
    list_appointments w = (Ret rows, w)
    /\ appointments_listing (db w) rows.
Proof.
  eexists. split; [reflexivity |]. split; [apply order_by_perm |].
  apply (order_by_sorted
           (fun a b =>
              text_le (appointment_line_datetime b)
                (appointment_line_datetime a))).
  - intros x y. apply text_le_total.
  - intros x y z H1 H2. exact (text_le_trans _ _ _ H2 H1).
Qed.

Lemma filter_unique {A : Type} (key : A -> Z) (l : list A) (x : A) (k : Z) :
  NoDup (map key l) -> In x l -> key x = k ->
  filter (fun y => key y =? k) l = [x].
Proof.
  intros N Hin <-. induction l as [| y l IH]; [destruct Hin |].
  cbn [map] in N. inversion N as [| u us Nin N1]; subst. cbn [filter].
  destruct Hin as [-> | Hin].
  - rewrite Z.eqb_refl. f_equal.
    clear - Nin. induction l as [| z l IH]; [reflexivity |]. cbn [filter].
    destruct (Z.eqb_spec (key z) (key x)) as [E | _].
    + exfalso. apply Nin. left. exact E.
    + apply IH. intros H. apply Nin. now right.
  - destruct (Z.eqb_spec (key y) (key x)) as [E | _].
    + exfalso. apply Nin. rewrite E. now apply in_map.
    + now apply IH.
Qed.

Lemma existsb_key {A : Type} (key : A -> Z) (l : list A) (k : Z) :
  existsb (fun r => key r =? k) l = true -> exists x, In x l /\ key x = k.
Proof.
  intros H. apply existsb_exists in H. destruct H as (x & Hin & E).
  exists x. split; [exact Hin | now apply Z.eqb_eq].
Qed.

(** With unique keys, an appointment whose patient and doctor exist
    gives one joined row. *)
Lemma joined_one (d : database) (a : appointment_row) :
  NoDup (map p_id (patients d)) -> NoDup (map d_id (doctors d)) ->
  appointment_ok d a ->
  exists p dr,
    In p (patients d) /\ p_id p = a_patient_id a
    /\ In dr (doctors d) /\ d_id dr = a_doctor_id a
    /\ flat_map
         (fun p =>
            map
              (fun dr =>
                 (a_id a, p_name p, d_name dr, a_appt_datetime a, a_status a))
              (filter (fun dr => d_id dr =? a_doctor_id a) (doctors d)))
         (filter (fun p => p_id p =? a_patient_id a) (patients d))
       = [(a_id a, p_name p, d_name dr, a_appt_datetime a, a_status a)].
Proof.
  intros Np Nd (_ & _ & _ & _ & _ & Hp & Hd).
  apply existsb_key in Hp. destruct Hp as (p & Ip & Ep).
  apply existsb_key in Hd. destruct Hd as (dr & Id & Ed).
  exists p, dr. repeat (split; [assumption |]).
  rewrite (filter_unique p_id _ p _ Np Ip Ep).
  rewrite (filter_unique d_id _ dr _ Nd Id Ed). reflexivity.
Qed.

(** X12.  When the keys are unique and every appointment row is as the
    program writes it, any answer to the query of [list_appointments]
    has exactly one row per appointment, with status Scheduled. *)
Theorem appointments_listed_once (d : database)
  (rows : list appointment_line) :
  unique_keys d -> Forall (appointment_ok d) (appointments d) ->
  appointments_listing d rows ->
  Permutation (map appointment_line_id rows) (map a_id (appointments d))
  /\ List.length rows = List.length (appointments d)
  /\ Forall (fun l => snd l = str "Scheduled") rows.
Proof.
  intros (Np & Nd & _) F [P _].
  assert (J : map appointment_line_id (joined_appointments d)
              = map a_id (appointments d)
              /\ Forall (fun l => snd l = str "Scheduled")
                   (joined_appointments d)).
  { unfold joined_appointments.
    induction F as [| a l O F IH]; cbn [flat_map map];
      [split; [reflexivity | constructor] |].
    destruct (joined_one d a Np Nd O) as (p & dr & _ & _ & _ & _ & ->).
    destruct IH as [IH1 IH2]. cbn [app map]. split.
    - now rewrite IH1.
    - constructor; [| exact IH2]. cbn [snd]. apply O. }
  destruct J as [J1 J2]. split; [| split].
  - rewrite <- J1. now apply Permutation_map.
  - rewrite (Permutation_length P), <- (length_map a_id), <- J1.
    symmetry. apply length_map.
  - apply (Permutation_Forall (Permutation_sym P)). exact J2.
Qed.

(** X13.  After [schedule_appointment] has succeeded, any answer to the
    query of [list_appointments] has a row for the new appointment: its
    id, the name of the patient and of the doctor that the look-ups
    found, the date-time string as given, and status Scheduled. *)
Theorem schedule_then_list (p d t r : pystr) (w : world)
  (rows : list appointment_line) :
  forallb (passes p d t w) check_order = true ->
  let w1 := snd (schedule_appointment p d t r w) in
  appointments_listing (db w1) rows ->
  exists pid did prow drow id,
    py_int p = Ret pid /\ py_int d = Ret did
    /\ fst (get_patient_by_id pid w) = Ret (Some prow)
    /\ fst (get_doctor_by_id did w) = Ret (Some drow)
    /\ last (map a_id (appointments (db w1))) 0 = id
    /\ In (id, p_name prow, d_name drow, t, str "Scheduled") rows.
Proof.
  intros P w1 [Pm _]. subst w1.
  destruct (passes_all _ _ _ _ P)
    as (pid & did & prow & drow & Hp & Hd & Ep & Ed & Sp & Fp & Sd & Fd
        & V & C).
  rewrite (schedule_saves p d t r w pid did prow drow
             Hp Hd Ep Ed Sp Fp Sd Fd V C) in *.
  cbn [snd db] in *.
  exists pid, did, prow, drow.
  exists (next_rowid (map a_id (appointments (db w)))
            (appointments_seq (db w))).
  split; [exact Ep |]. split; [exact Ed |].
  split; [now rewrite get_patient_by_id_eq, Sp, Fp |].
  split; [now rewrite get_doctor_by_id_eq, Sd, Fd |].
  split.
  { unfold insert_appointment. cbn [appointments].
    rewrite map_app. cbn [map a_id]. apply last_last. }
  apply (Permutation_in _ (Permutation_sym Pm)).
  unfold joined_appointments, insert_appointment.
  cbn [appointments patients doctors].
  rewrite flat_map_app. apply in_or_app. right.
  cbn [flat_map a_id a_patient_id a_doctor_id a_appt_datetime a_status].
  rewrite app_nil_r. apply in_flat_map. exists prow.
  unfold patient_row_of, doctor_row_of in *.
  apply find_some in Fp. apply find_some in Fd.
  split; [apply filter_In; exact Fp |].
  apply in_map_iff. exists drow. split; [reflexivity |].
  apply filter_In. exact Fd.
Qed.

(** The clinic after one booking, and the listing of its appointment. *)
Lemma clinic_booked_listing :
  appointments_listing
    (db (snd (schedule_appointment (str "1") (str "2")
                (str "2025-03-01 10:00") (str "checkup") clinic)))
    [(1, str "Lina", str "Dr. Sara", str "2025-03-01 10:00",
      str "Scheduled")].
Proof.
  split.
  - replace (joined_appointments
               (db (snd (schedule_appointment (str "1") (str "2")
                           (str "2025-03-01 10:00") (str "checkup") clinic))))
      with [(1, str "Lina", str "Dr. Sara", str "2025-03-01 10:00",
             str "Scheduled")]
      by (vm_compute; reflexivity).
    reflexivity.
  - repeat constructor.
Qed.

Lemma schedule_then_list_witness :
  forallb (passes (str "1") (str "2") (str "2025-03-01 10:00") clinic)
    check_order = true
  /\ exists id,
       In (id, str "Lina", str "Dr. Sara", str "2025-03-01 10:00",
           str "Scheduled")
         [(1, str "Lina", str "Dr. Sara", str "2025-03-01 10:00",
           str "Scheduled")].
Proof.
  assert (P : forallb
                (passes (str "1") (str "2") (str "2025-03-01 10:00") clinic)
                check_order = true) by (vm_compute; reflexivity).
  split; [exact P |].
  destruct (schedule_then_list (str "1") (str "2") (str "2025-03-01 10:00")
              (str "checkup") clinic _ P clinic_booked_listing)
    as (pid & did & prow & drow & id & Ep & Ed & Fp & Fd & _ & Hin).
  exists id.
  vm_compute in Ep. injection Ep as <-.
  vm_compute in Ed. injection Ed as <-.
  vm_compute in Fp. injection Fp as <-.
  vm_compute in Fd. injection Fd as <-.
  exact Hin.
Defined.

Lemma appointments_listed_once_witness :
  unique_keys
    (db (snd (schedule_appointment (str "1") (str "2")
                (str "2025-03-01 10:00") (str "checkup") clinic)))
  /\ List.length
       [(1, str "Lina", str "Dr. Sara", str "2025-03-01 10:00",
         str "Scheduled")]
     = List.length
         (appointments
            (db (snd (schedule_appointment (str "1") (str "2")
                        (str "2025-03-01 10:00") (str "checkup") clinic)))).
Proof.
  assert (U : unique_keys
                (db (snd (schedule_appointment (str "1") (str "2")
                            (str "2025-03-01 10:00") (str "checkup")
                            clinic)))).
  { unfold unique_keys. vm_compute.
    repeat split; repeat constructor; cbn; intuition discriminate. }
  split; [exact U |].
  refine (proj1 (proj2 (appointments_listed_once _ _ U _
                          clinic_booked_listing))).
  replace (appointments
             (db (snd (schedule_appointment (str "1") (str "2")
                         (str "2025-03-01 10:00") (str "checkup") clinic))))
    with [mk_appointment 1 1 2 (str "2025-03-01 10:00")
            (Some (str "checkup")) (str "Scheduled")]
    by (vm_compute; reflexivity).
  constructor; [| constructor]. unfold appointment_ok.
  cbn [a_status a_appt_datetime a_reason a_patient_id a_doctor_id].
  split; [reflexivity |]. split; [vm_compute; reflexivity |].
  split; [exists (str "checkup"); split; [reflexivity |];
          vm_compute; reflexivity |].
  repeat split; vm_compute; reflexivity.
Defined.

(** ** Primary keys *)

Lemma find_unique {A : Type} (key : A -> Z) (l : list A) (x : A) :
  NoDup (map key l) -> In x l ->
  find (fun y => key y =? key x) l = Some x.
Proof.
  intros N Hin. induction l as [| y l IH]; [destruct Hin |].
  cbn [map] in N. inversion N as [| u us Nin N1]; subst. cbn [find].
  destruct Hin as [-> | Hin]; [now rewrite Z.eqb_refl |].
  destruct (Z.eqb_spec (key y) (key x)) as [E | _].
  - exfalso. apply Nin. rewrite E. now apply in_map.
  - now apply IH.
Qed.

Lemma nodup_snoc (l : list Z) (y : Z) :
  NoDup l -> (forall x, In x l -> x < y) -> NoDup (l ++ [y]).
Proof.
  intros N H. apply NoDup_app; [exact N | repeat constructor; intros [] |].
  intros x Hx [E | []]. specialize (H x Hx). lia.
Qed.

Lemma below_next_rowid (ids : list Z) (seq x : Z) :
  In x ids -> x < next_rowid ids seq.
Proof.
  intros H. unfold next_rowid. pose proof (fold_right_max_ge ids seq x H).
  lia.
Qed.

(** X14.  The program keeps the primary keys unique: when no two rows
    of a table have the same id, the same holds in every later state,
    and there [get_patient_by_id] and [get_doctor_by_id] return each
    row of their table for its id (when the id is one SQLite holds). *)
Theorem later_unique_keys (w w1 : world) :
  later w w1 -> unique_keys (db w) ->
  unique_keys (db w1)
  /\ (forall row,
        In row (patients (db w1)) -> sqlite_int (p_id row) = true ->
        fst (get_patient_by_id (p_id row) w1) = Ret (Some row))
  /\ (forall row,
        In row (doctors (db w1)) -> sqlite_int (d_id row) = true ->
        fst (get_doctor_by_id (d_id row) w1) = Ret (Some row)).
Proof.
  intros L U.
  assert (U1 : unique_keys (db w1)).
  { induction L as [| w1 a L IH]; [exact U |].
    destruct IH as (Np & Nd & Na).
    pose proof (run_step a w1) as S. cbv zeta in S.
    destruct S as (_ & D & P & A). unfold unique_keys. rewrite D.
    split; [| split; [exact Nd |]].
    - destruct P as [[-> _] | (row & -> & _ & E & _)]; [exact Np |].
      rewrite map_app. cbn [map]. apply nodup_snoc; [exact Np |].
      rewrite E. intros x. apply below_next_rowid.
    - destruct A as [[-> _] | (row & -> & _ & E & _)]; [exact Na |].
      rewrite map_app. cbn [map]. apply nodup_snoc; [exact Na |].
      rewrite E. intros x. apply below_next_rowid. }
  split; [exact U1 |]. destruct U1 as (Np & Nd & _). split.
  - intros row Hin S. rewrite get_patient_by_id_eq, S. cbn [fst]. f_equal.
    now apply find_unique.
  - intros row Hin S. rewrite get_doctor_by_id_eq, S. cbn [fst]. f_equal.
    now apply find_unique.
Qed.

Lemma later_unique_keys_witness :
  later clinic
    (snd (run (Register (str " Omar ") (str "040") (str "Male") (str "")
                 (str "")) clinic))
  /\ unique_keys (db clinic)
  /\ unique_keys
       (db (snd (run (Register (str " Omar ") (str "040") (str "Male")
                        (str "") (str "")) clinic))).
Proof.
  assert (L : later clinic
                (snd (run (Register (str " Omar ") (str "040") (str "Male")
                             (str "") (str "")) clinic)))
    by (apply later_run; apply later_now).
  assert (U : unique_keys (db clinic)).
  { unfold unique_keys. cbn. repeat split; repeat constructor; cbn;
      intuition discriminate. }
  split; [exact L |]. split; [exact U |].
  exact (proj1 (later_unique_keys _ _ L U)).
Defined.


(** ** Accounts *)

#[global] Arguments hash_password : simpl never.

Lemma pystr_eqb_neq (a b : pystr) : pystr_eqb a b = false <-> a <> b.
Proof.
  unfold pystr_eqb. destruct (list_eq_dec N.eq_dec a b); split; congruence.
Qed.

Lemma username_taken_spec (u : pystr) (d : database) :
  username_taken u d = true
  <-> exists row, In row (users d) /\ u_username row = u.
Proof.
  unfold username_taken. rewrite existsb_exists.
  split; intros (row & I & E); exists row; split; trivial;
    now apply pystr_eqb_eq.
Qed.

Lemma username_free_spec (u : pystr) (d : database) :
  username_taken u d = false
  <-> forall row, In row (users d) -> u_username row <> u.
Proof.
  split.
  - intros F row I E.
    assert (T : username_taken u d = true)
      by (apply username_taken_spec; now exists row).
    congruence.
  - intros F. destruct (username_taken u d) eqn:T; trivial.
    apply username_taken_spec in T. destruct T as (row & I & E).
    now destruct (F row I).
Qed.

Lemma role_check_spec (r : pystr) :
  role_check r = true
  <-> r = str "admin" \/ r = str "doctor" \/ r = str "receptionist".
Proof.
  unfold role_check. cbn [existsb]. rewrite !orb_true_iff, !pystr_eqb_eq.
  intuition discriminate.
Qed.

(** The first row with a user name is the only one when names are
    unique. *)
Lemma find_username (u : pystr) (l : list user_row) (row : user_row) :
  NoDup (map u_username l) -> In row l -> u_username row = u ->
  find (fun r => pystr_eqb (u_username r) u) l = Some row.
Proof.
  induction l as [| x l IH]; cbn [In map find]; [easy |].
  intros N I E. inversion N as [| ? ? Nx Nl]; subst.
  destruct I as [-> | I].
  - now rewrite pystr_eqb_refl.
  - destruct (pystr_eqb (u_username x) (u_username row)) eqn:Q.
    + apply pystr_eqb_eq in Q. destruct Nx. rewrite Q.
      now apply in_map.
    + now apply IH.
Qed.

Lemma find_username_none (u : pystr) (l : list user_row) :
  find (fun r => pystr_eqb (u_username r) u) l = None
  <-> forall row, In row l -> u_username row <> u.
Proof.
  split.
  - intros F row I E. apply (find_none _ _ F) in I.
    apply pystr_eqb_neq in I. contradiction.
  - intros F. destruct (find _ l) as [row |] eqn:Q; trivial.
    apply find_some in Q. destruct Q as (I & E).
    apply pystr_eqb_eq in E. now destruct (F row I).
Qed.

Lemma login_eq (u p : pystr) (w : world) :
  login u p w
  = (Ret
       match find (fun r => pystr_eqb (u_username r) u) (users (db w)) with
       | Some row =>
           if pystr_eqb (hash_password p) (u_password_hash row)
           then Some (mk_CurrentUser (u_id row) (u_username row) (u_role row))
           else None
       | None => None
       end, w).
Proof.
  unfold login, find_user, bind, query, ret.
  destruct (find _ (users (db w))) as [[i n h r] |]; [| reflexivity].
  cbn [u_id u_username u_password_hash u_role].
  now destruct (pystr_eqb (hash_password p) h).
Qed.

(** X15.  [login] answers with a user exactly when the row of the user
    name stores the hash of the password, and then with the id, name and
    role of that row; otherwise it answers [None].  It never raises and
    never changes the state. *)
Theorem login_spec (u p : pystr) (w : world) :
  unique_usernames (db w) ->
  snd (login u p w) = w
  /\ (forall user,
        fst (login u p w) = Ret (Some user)
        <-> exists row,
              In row (users (db w)) /\ u_username row = u
              /\ u_password_hash row = hash_password p
              /\ user = mk_CurrentUser (u_id row) u (u_role row))
  /\ (fst (login u p w) = Ret None
      <-> forall row,
            In row (users (db w)) -> u_username row = u ->
            u_password_hash row <> hash_password p)
  /\ exists answer, fst (login u p w) = Ret answer.
Proof.
  intros U. rewrite login_eq. cbn [fst snd]. split; [reflexivity |].
  destruct (find _ (users (db w))) as [row |] eqn:F.
  - pose proof (find_some _ _ F) as (I & E). apply pystr_eqb_eq in E.
    assert (Only : forall row', In row' (users (db w)) ->
                     u_username row' = u -> row' = row).
    { intros row' I' E'. pose proof (find_username u _ row' U I' E') as F'.
      congruence. }
    destruct (pystr_eqb (hash_password p) (u_password_hash row)) eqn:Q.
    + apply pystr_eqb_eq in Q. split; [| split; [| eauto]].
      * intros user. split.
        -- intros [= <-]. exists row. rewrite E. auto.
        -- intros (row' & I' & E' & H' & ->).
           rewrite (Only row' I' E'). now rewrite E.
      * split; [discriminate |]. intros N. now destruct (N row I E).
    + apply pystr_eqb_neq in Q. split; [| split; [| eauto]].
      * intros user. split; [discriminate |].
        intros (row' & I' & E' & H' & ->).
        rewrite (Only row' I' E') in H'. congruence.
      * split; [| reflexivity]. intros _ row' I' E'.
        rewrite (Only row' I' E'). congruence.
  - pose proof (proj1 (find_username_none u _) F) as N.
    split; [| split; [| eauto]].
    + intros user. split; [discriminate |].
      intros (row' & I' & E' & _). now destruct (N row' I').
    + split; [| reflexivity]. intros _ row' I' E'. now destruct (N row' I').
Qed.

Lemma clinic_unique_usernames : unique_usernames (db clinic).
Proof.
  unfold unique_usernames. cbn. repeat constructor; cbn;
    intuition discriminate.
Qed.

Lemma login_spec_witness :
  unique_usernames (db clinic)
  /\ snd (login (str "admin") (str "admin123") clinic) = clinic.
Proof.
  split; [exact clinic_unique_usernames |].
  exact (proj1 (login_spec (str "admin") (str "admin123") clinic
                  clinic_unique_usernames)).
Defined.

Lemma insert_user_users (u h r : pystr) (s : store) :
  users (tables (insert_user u h r s))
  = users (tables s)
      ++ [mk_user (next_rowid (map u_id (users (tables s))) (users_seq s))
            u h r].
Proof. reflexivity. Qed.

Lemma create_user_cases (u h r : pystr) (s : store) :
  (username_taken u (tables s) = false /\ role_check r = true
   /\ create_user u h r s = (Returned tt, insert_user u h r s))
  \/ ((username_taken u (tables s) = true \/ role_check r = false)
      /\ create_user u h r s = (Raised IntegrityError, s)).
Proof.
  unfold create_user, tables.
  destruct (username_taken u (db (state s))), (role_check r); cbn; auto.
Qed.

Lemma unique_usernames_snoc (l : list user_row) (row : user_row) :
  NoDup (map u_username l) ->
  (forall x, In x l -> u_username x <> u_username row) ->
  NoDup (map u_username (l ++ [row])).
Proof.
  intros N F. rewrite map_app. cbn [map].
  induction l as [| x l IH]; cbn [map app].
  - constructor; [easy | constructor].
  - inversion N as [| ? ? Nx Nl]; subst. constructor.
    + rewrite in_app_iff. intros [I | [E | []]]; [contradiction |].
      symmetry in E. now apply (F x (or_introl eq_refl)).
    + apply IH; [exact Nl |]. intros y I. apply F. now right.
Qed.

Lemma find_snoc_new (u : pystr) (l : list user_row) (row : user_row) :
  (forall x, In x l -> u_username x <> u) -> u_username row = u ->
  find (fun r => pystr_eqb (u_username r) u) (l ++ [row]) = Some row.
Proof.
  intros F E. induction l as [| x l IH]; cbn [app find].
  - now rewrite E, pystr_eqb_refl.
  - destruct (pystr_eqb (u_username x) u) eqn:Q.
    + apply pystr_eqb_eq in Q. now destruct (F x (or_introl eq_refl)).
    + apply IH. intros y I. apply F. now right.
Qed.

Lemma find_snoc_old (u : pystr) (l : list user_row) (row : user_row) :
  (exists x, In x l /\ u_username x = u) ->
  find (fun r => pystr_eqb (u_username r) u) (l ++ [row])
  = find (fun r => pystr_eqb (u_username r) u) l.
Proof.
  intros (x & I & E). induction l as [| y l IH]; [easy |].
  cbn [app find]. destruct (pystr_eqb (u_username y) u) eqn:Q; trivial.
  apply IH. destruct I as [-> | I]; trivial.
  apply pystr_eqb_neq in Q. contradiction.
Qed.

Lemma find_snoc_other (u : pystr) (l : list user_row) (row : user_row) :
  u_username row <> u ->
  find (fun r => pystr_eqb (u_username r) u) (l ++ [row])
  = find (fun r => pystr_eqb (u_username r) u) l.
Proof.
  intros D. induction l as [| y l IH]; cbn [app find].
  - apply pystr_eqb_neq in D. now rewrite D.
  - now destruct (pystr_eqb (u_username y) u).
Qed.

Lemma ids_below_next_rowid (ids : list Z) (seq : Z) :
  seq < next_rowid ids seq /\ forall i, In i ids -> i < next_rowid ids seq.
Proof.
  unfold next_rowid. induction ids as [| x ids IH]; cbn [fold_right In].
  - split; [lia | easy].
  - destruct IH as (S & F). split; [lia |].
    intros i [-> | I]; [lia |]. specialize (F i I). lia.
Qed.

(** X16.  [create_user] succeeds exactly when no row has the user name
    and the role is one of the three the table allows.  It then appends
    one row, with an id above every id of the table and above the
    counter, and keeps user names unique; the other tables, the journal
    and the counter of [doctors] are unchanged.  Otherwise it raises
    IntegrityError and the store is as it was. *)
Theorem create_user_spec (u h r : pystr) (s : store) :
  let s' := snd (create_user u h r s) in
  (fst (create_user u h r s) = Returned tt
   <-> (forall row, In row (users (tables s)) -> u_username row <> u)
       /\ (r = str "admin" \/ r = str "doctor" \/ r = str "receptionist"))
  /\ (fst (create_user u h r s) = Returned tt ->
      exists id,
        users (tables s') = users (tables s) ++ [mk_user id u h r]
        /\ (forall row, In row (users (tables s)) -> u_id row < id)
        /\ users_seq s < id /\ users_seq s' = id
        /\ (unique_usernames (tables s) -> unique_usernames (tables s'))
        /\ patients (tables s') = patients (tables s)
        /\ doctors (tables s') = doctors (tables s)
        /\ appointments (tables s') = appointments (tables s)
        /\ patients_seq (tables s') = patients_seq (tables s)
        /\ appointments_seq (tables s') = appointments_seq (tables s)
        /\ journal (state s') = journal (state s)
        /\ doctors_seq s' = doctors_seq s)
  /\ (fst (create_user u h r s) <> Returned tt ->
      create_user u h r s = (Raised IntegrityError, s)).
Proof.
  cbv zeta.
  destruct (create_user_cases u h r s) as [(T & R & ->) | (B & ->)];
    cbn [fst snd].
  - split; [| split; [| congruence]].
    + split; [| reflexivity]. intros _.
      split; [now apply username_free_spec | now apply role_check_spec].
    + intros _.
      exists (next_rowid (map u_id (users (tables s))) (users_seq s)).
      pose proof (ids_below_next_rowid (map u_id (users (tables s)))
                    (users_seq s)) as (S & F).
      rewrite insert_user_users.
      repeat split; try reflexivity; trivial.
      * intros row I. apply F. now apply in_map.
      * unfold unique_usernames. rewrite insert_user_users. intros N.
        apply unique_usernames_snoc; [exact N |]. cbn [u_username].
        now apply username_free_spec.
  - split; [| split; [discriminate | reflexivity]].
    split; [discriminate |]. intros (F & R).
    pose proof (proj2 (username_free_spec _ _) F).
    pose proof (proj2 (role_check_spec _) R).
    destruct B; congruence.
Qed.

(** X17.  An account that [create_user] has made with the hash of a
    password logs in with that password, as the new row's id, name and
    role; with another password it logs in exactly when the hashes are
    the same.  The accounts that were there log in as before. *)
Theorem create_user_then_login (u p r : pystr) (s : store) :
  fst (create_user u (hash_password p) r s) = Returned tt ->
  let s' := snd (create_user u (hash_password p) r s) in
  fst (login u p (state s'))
  = Ret (Some (mk_CurrentUser (users_seq s') u r))
  /\ (forall p',
        fst (login u p' (state s')) <> Ret None
        <-> hash_password p' = hash_password p)
  /\ (forall u' p',
        u' <> u ->
        fst (login u' p' (state s')) = fst (login u' p' (state s))).
Proof.
  cbv zeta.
  destruct (create_user_cases u (hash_password p) r s)
    as [(T & R & ->) | (B & ->)]; cbn [fst snd]; [| discriminate].
  intros _.
  pose proof (proj1 (username_free_spec _ _) T) as F.
  assert (L : forall u' p',
            fst (login u' p' (state (insert_user u (hash_password p) r s)))
            = Ret
                match
                  find (fun x => pystr_eqb (u_username x) u')
                    (users (tables s)
                       ++ [mk_user
                             (next_rowid (map u_id (users (tables s)))
                                (users_seq s))
                             u (hash_password p) r])
                with
                | Some row =>
                    if pystr_eqb (hash_password p') (u_password_hash row)
                    then Some (mk_CurrentUser (u_id row) (u_username row)
                                 (u_role row))
                    else None
                | None => None
                end).
  { intros u' p'. rewrite login_eq. reflexivity. }
  split; [| split].
  - rewrite L, (find_snoc_new u (users (tables s))); [| exact F | reflexivity].
    cbn [u_id u_username u_password_hash u_role].
    now rewrite pystr_eqb_refl.
  - intros p'.
    rewrite L, (find_snoc_new u (users (tables s)));
      [| exact F | reflexivity].
    cbn [u_id u_username u_password_hash u_role].
    destruct (pystr_eqb (hash_password p') (hash_password p)) eqn:Q.
    + apply pystr_eqb_eq in Q. split; [trivial | discriminate].
    + apply pystr_eqb_neq in Q. split; [congruence | contradiction].
  - intros u' p' D. rewrite L, login_eq. cbn [fst].
    rewrite (find_snoc_other u' (users (tables s))); [reflexivity |].
    cbn [u_username]. congruence.
Qed.

Lemma create_user_then_login_witness :
  fst (create_user (str "nurse") (hash_password (str "pw")) (str "doctor")
         new_file) = Returned tt
  /\ fst (login (str "nurse") (str "pw")
            (state (snd (create_user (str "nurse")
                           (hash_password (str "pw")) (str "doctor")
                           new_file))))
     = Ret (Some (mk_CurrentUser 1 (str "nurse") (str "doctor"))).
Proof.
  assert (H : fst (create_user (str "nurse") (hash_password (str "pw"))
                     (str "doctor") new_file) = Returned tt)
    by reflexivity.
  split; [exact H |].
  exact (proj1 (create_user_then_login (str "nurse") (str "pw")
                  (str "doctor") new_file H)).
Defined.


(** ** Setting up the store: properties *)

Lemma try_create_user (u p r : pystr) (s : store) :
  except_integrity_error (create_user u (hash_password p) r) s
  = (Returned tt, ensure_account s (u, p, r)).
Proof.
  unfold except_integrity_error, ensure_account.
  destruct (create_user_cases u (hash_password p) r s)
    as [(T & R & ->) | (B & ->)].
  - now rewrite T, R.
  - destruct B as [-> | ->]; [reflexivity |].
    now rewrite andb_false_r.
Qed.

Lemma seed_default_doctors_eq (s : store) :
  seed_default_doctors s
  = (Returned tt,
     match doctors (tables s) with
     | [] =>
         mk_store
           (mk_world
              (mk_database (users (tables s)) (patients (tables s))
                 (seeded_doctors (doctors_seq s))
                 (appointments (tables s)) (patients_seq (tables s))
                 (appointments_seq (tables s)))
              (journal (state s)))
           (users_seq s) (doctors_seq s + 3)
     | _ :: _ => s
     end).
Proof.
  unfold seed_default_doctors, tables.
  destruct (doctors (db (state s))) as [| x l] eqn:D.
  - cbn [List.length Z.of_nat Z.eqb fold_left].
    unfold insert_doctor, seeded_doctors.
    cbn [state db users patients doctors appointments patients_seq
         appointments_seq journal users_seq doctors_seq fst snd].
    rewrite D. cbn [app map d_id].
    set (c := doctors_seq s).
    assert (E1 : next_rowid [] c = c + 1)
      by (unfold next_rowid; cbn [fold_right]; lia).
    rewrite E1.
    assert (E2 : next_rowid [c + 1] (c + 1) = c + 2)
      by (unfold next_rowid; cbn [fold_right]; lia).
    rewrite E2.
    assert (E3 : next_rowid [c + 1; c + 2] (c + 2) = c + 3)
      by (unfold next_rowid; cbn [fold_right]; lia).
    rewrite E3. reflexivity.
  - reflexivity.
Qed.

Lemma setup_database_eq (s : store) :
  setup_database s
  = (Returned tt,
     fold_left ensure_account defaults (snd (seed_default_doctors s))).
Proof.
  unfold setup_database, create_table, and_then, pure.
  rewrite seed_default_doctors_eq. cbn [snd].
  unfold defaults. cbn [for_each fold_left]. unfold and_then, pure.
  now rewrite !try_create_user.
Qed.

Lemma login_user_named (u p : pystr) (s : store) :
  fst (login u p (state s))
  = Ret
      match user_named u s with
      | Some row =>
          if pystr_eqb (hash_password p) (u_password_hash row)
          then Some (mk_CurrentUser (u_id row) (u_username row) (u_role row))
          else None
      | None => None
      end.
Proof. now rewrite login_eq. Qed.

Lemma user_named_taken (u : pystr) (s : store) :
  username_taken u (tables s) = true <-> user_named u s <> None.
Proof.
  unfold user_named. split.
  - intros T F. pose proof (proj1 (find_username_none _ _) F) as N.
    apply username_taken_spec in T. destruct T as (row & I & E).
    now destruct (N row I).
  - intros F. destruct (username_taken u (tables s)) eqn:T; trivial.
    destruct F. apply find_username_none.
    now apply username_free_spec.
Qed.

Lemma user_named_free (u : pystr) (s : store) :
  username_taken u (tables s) = false <-> user_named u s = None.
Proof.
  pose proof (user_named_taken u s) as T.
  destruct (username_taken u (tables s)), (user_named u s);
    split; intros; trivial; try discriminate.
  - now destruct (proj1 T eq_refl).
  - assert (false = true) by (apply T; discriminate). discriminate.
Qed.

(** One turn of the loop on the row of a user name. *)
Lemma ensure_account_named (s : store) (u p r v : pystr) :
  role_check r = true ->
  let s' := ensure_account s (u, p, r) in
  (forall row, user_named v s = Some row -> user_named v s' = Some row)
  /\ (v <> u -> user_named v s' = user_named v s)
  /\ (user_named u s = None ->
      exists id,
        users_seq s < id /\ users_seq s' = id
        /\ user_named u s' = Some (mk_user id u (hash_password p) r))
  /\ users_seq s <= users_seq s'.
Proof.
  intros R. cbv zeta. unfold ensure_account. rewrite R, andb_true_r.
  destruct (username_taken u (tables s)) eqn:T; cbn [negb].
  - repeat split; trivial; [| lia].
    intros F. apply user_named_free in F. congruence.
  - pose proof (ids_below_next_rowid (map u_id (users (tables s)))
                  (users_seq s)) as (S & _).
    unfold user_named. rewrite insert_user_users.
    split; [| split; [| split]].
    + intros row F. rewrite find_snoc_old; [exact F |].
      apply find_some in F. destruct F as (I & E).
      apply pystr_eqb_eq in E. now exists row.
    + intros D. apply find_snoc_other. cbn [u_username]. congruence.
    + intros _. eexists. split; [exact S |]. split; [reflexivity |].
      apply find_snoc_new; [| reflexivity].
      now apply username_free_spec.
    + unfold insert_user, tables in *. cbn [users_seq]. lia.
Qed.

(** The loop over accounts with allowed roles and different names. *)
Lemma ensure_accounts_named (l : list (pystr * pystr * pystr)) :
  Forall (fun a => role_check (snd a) = true) l ->
  NoDup (map (fun a => fst (fst a)) l) ->
  forall (s : store) (v : pystr),
    let s' := fold_left ensure_account l s in
    (forall row, user_named v s = Some row -> user_named v s' = Some row)
    /\ ((forall a, In a l -> fst (fst a) <> v) ->
        user_named v s' = user_named v s)
    /\ (user_named v s = None ->
        forall p r, In (v, p, r) l ->
        exists id,
          users_seq s < id
          /\ user_named v s' = Some (mk_user id v (hash_password p) r))
    /\ users_seq s <= users_seq s'.
Proof.
  induction l as [| [[u p] r] l IH]; intros R N s v; cbv zeta.
  - cbn [fold_left In]. repeat split; trivial; [easy | lia].
  - inversion R as [| ? ? Ra Rl]; subst. cbn [snd] in Ra.
    inversion N as [| ? ? Nu Nl]; subst. cbn [fst] in Nu.
    cbn [fold_left].
    pose proof (ensure_account_named s u p r v Ra) as (A1 & A2 & _ & A4).
    pose proof (ensure_account_named s u p r u Ra) as (_ & _ & A3 & _).
    cbv zeta in A1, A2, A3, A4.
    specialize (IH Rl Nl (ensure_account s (u, p, r)) v).
    cbv zeta in IH. destruct IH as (B1 & B2 & B3 & B4).
    split; [| split; [| split]].
    + intros row F. apply B1, A1, F.
    + intros D. rewrite B2; [apply A2 |].
      * intros E. apply (D (u, p, r)); [now left | now symmetry].
      * intros a I. apply D. now right.
    + intros F p' r' [[= -> -> ->] | I].
      * destruct (A3 F) as (id & L & _ & G). exists id. split; [exact L |].
        now apply B1.
      * assert (D : v <> u).
        { intros ->. apply Nu.
          change u with ((fun a : pystr * pystr * pystr => fst (fst a))
                           (u, p', r')).
          now apply in_map. }
        rewrite <- (A2 D) in F. destruct (B3 F p' r' I) as (id & L & G).
        exists id. split; [lia | exact G].
    + lia.
Qed.

Lemma defaults_roles : Forall (fun a => role_check (snd a) = true) defaults.
Proof. repeat constructor. Qed.

Lemma defaults_names : NoDup (map (fun a => fst (fst a)) defaults).
Proof. cbn. repeat constructor; cbn; intuition discriminate. Qed.

Lemma ensure_account_frame (s : store) (a : pystr * pystr * pystr) :
  let s' := ensure_account s a in
  same_records s s'
  /\ doctors (tables s') = doctors (tables s)
  /\ doctors_seq s' = doctors_seq s
  /\ (unique_usernames (tables s) -> unique_usernames (tables s'))
  /\ exists new,
       users (tables s') = users (tables s) ++ new
       /\ Forall
            (fun row =>
               exists p,
                 (u_username row, p, u_role row) = a
                 /\ u_password_hash row = hash_password p)
            new.
Proof.
  cbv zeta. destruct a as [[u p] r]. unfold ensure_account, same_records.
  destruct (username_taken u (tables s)) eqn:T; cbn [negb andb].
  - repeat split; trivial. exists []. now rewrite app_nil_r.
  - destruct (role_check r).
    + rewrite insert_user_users. repeat split; trivial.
      * unfold unique_usernames. rewrite insert_user_users. intros N.
        apply unique_usernames_snoc; [exact N |]. cbn [u_username].
        now apply username_free_spec.
      * eexists. split; [reflexivity |]. constructor; [| constructor].
        exists p. now cbn.
    + repeat split; trivial. exists []. now rewrite app_nil_r.
Qed.

Lemma ensure_accounts_frame (l : list (pystr * pystr * pystr))
  (s : store) :
  let s' := fold_left ensure_account l s in
  same_records s s'
  /\ doctors (tables s') = doctors (tables s)
  /\ doctors_seq s' = doctors_seq s
  /\ (unique_usernames (tables s) -> unique_usernames (tables s'))
  /\ exists new,
       users (tables s') = users (tables s) ++ new
       /\ Forall
            (fun row =>
               exists p,
                 In (u_username row, p, u_role row) l
                 /\ u_password_hash row = hash_password p)
            new.
Proof.
  cbv zeta. revert s. induction l as [| a l IH]; intros s; cbn [fold_left].
  - unfold same_records. repeat split; trivial.
    exists []. now rewrite app_nil_r.
  - pose proof (ensure_account_frame s a) as A. cbv zeta in A.
    destruct A as ((A1 & A2 & A3 & A4 & A5) & Ad & As & Au & n1 & E1 & F1).
    destruct (IH (ensure_account s a))
      as ((B1 & B2 & B3 & B4 & B5) & Bd & Bs & Bu & n2 & E2 & F2).
    unfold same_records.
    repeat split; try congruence; [tauto |].
    exists (n1 ++ n2). split; [rewrite E2, E1; now rewrite app_assoc |].
    apply Forall_app. split.
    + eapply Forall_impl; [| exact F1]. cbv beta.
      intros row (p & E & H). exists p. split; [now left | exact H].
    + eapply Forall_impl; [| exact F2]. cbv beta.
      intros row (p & I & H). exists p. split; [now right | exact H].
Qed.

Lemma seed_default_doctors_frame (s : store) :
  let s' := snd (seed_default_doctors s) in
  same_records s s'
  /\ users (tables s') = users (tables s)
  /\ users_seq s' = users_seq s
  /\ doctors (tables s') <> []
  /\ (doctors (tables s) = [] ->
      doctors (tables s') = seeded_doctors (doctors_seq s)
      /\ doctors_seq s' = doctors_seq s + 3)
  /\ (doctors (tables s) <> [] -> s' = s).
Proof.
  cbv zeta. rewrite seed_default_doctors_eq. cbn [snd].
  unfold same_records.
  destruct (doctors (tables s)) as [| x l] eqn:D.
  - repeat split; trivial; [discriminate | easy].
  - repeat split; trivial; try discriminate; congruence.
Qed.

(** X18.  [setup_database] always returns.  It only adds rows to the
    [users] and [doctors] tables: the rows that were there stay as they
    are, every new user row is one of the default accounts with the hash
    of its password, doctors are added only to an empty table, and user
    names stay unique.  The patients, the appointments, their counters
    and the journal are unchanged. *)
Theorem setup_database_adds (s : store) :
  exists s',
    setup_database s = (Returned tt, s')
    /\ same_records s s'
    /\ (exists new,
          users (tables s') = users (tables s) ++ new
          /\ Forall default_row new)
    /\ (exists new,
          doctors (tables s') = doctors (tables s) ++ new
          /\ (doctors (tables s) <> [] -> new = []))
    /\ doctors (tables s') <> []
    /\ users_seq s <= users_seq s'
    /\ doctors_seq s <= doctors_seq s'
    /\ (unique_usernames (tables s) -> unique_usernames (tables s')).
Proof.
  rewrite setup_database_eq. eexists. split; [reflexivity |].
  pose proof (seed_default_doctors_frame s) as S. cbv zeta in S.
  destruct S as ((S1 & S2 & S3 & S4 & S5) & Su & Sq & Sn & Se & Sf).
  pose proof (ensure_accounts_frame defaults (snd (seed_default_doctors s)))
    as E. cbv zeta in E.
  destruct E as ((E1 & E2 & E3 & E4 & E5) & Ed & Es & Eu & new & En & Ef).
  pose proof (ensure_accounts_named defaults defaults_roles defaults_names
                (snd (seed_default_doctors s)) []) as (_ & _ & _ & Q).
  unfold same_records.
  repeat split; try congruence.
  - exists new. split; [congruence | exact Ef].
  - destruct (doctors (tables s)) as [| x l] eqn:D.
    + eexists. split; [rewrite Ed; reflexivity |]. congruence.
    + exists []. rewrite app_nil_r. split; [| trivial].
      rewrite Ed, Sf; [exact D | discriminate].
  - rewrite Es. destruct (doctors (tables s)) as [| x l] eqn:D.
    + destruct (Se eq_refl) as (_ & ->). lia.
    + rewrite Sf; [lia | discriminate].
  - intros U. apply Eu. unfold unique_usernames. now rewrite Su.
Qed.

Lemma ensure_accounts_taken (l : list (pystr * pystr * pystr))
  (s : store) :
  (forall a, In a l -> user_named (fst (fst a)) s <> None) ->
  fold_left ensure_account l s = s.
Proof.
  induction l as [| [[u p] r] l IH]; intros T; cbn [fold_left]; trivial.
  assert (E : ensure_account s (u, p, r) = s).
  { unfold ensure_account.
    replace (username_taken u (tables s)) with true; trivial.
    symmetry. apply user_named_taken. apply (T (u, p, r)). now left. }
  rewrite E. apply IH. intros a I. apply T. now right.
Qed.

(** X19.  [setup_database] is idempotent: run on the store it has left,
    it returns and changes nothing, neither a table nor a counter. *)
Theorem setup_database_idempotent (s : store) :
  setup_database (snd (setup_database s))
  = (Returned tt, snd (setup_database s)).
Proof.
  rewrite (setup_database_eq (snd (setup_database s))).
  rewrite (setup_database_eq s). cbn [snd]. f_equal.
  set (s1 := snd (seed_default_doctors s)).
  set (s2 := fold_left ensure_account defaults s1).
  pose proof (seed_default_doctors_frame s) as S. cbv zeta in S.
  destruct S as (_ & _ & _ & Sn & _).
  pose proof (ensure_accounts_frame defaults s1) as E. cbv zeta in E.
  destruct E as (_ & Ed & _).
  pose proof (seed_default_doctors_frame s2) as (_ & _ & _ & _ & _ & F).
  cbv zeta in F. rewrite F; [| unfold s2; rewrite Ed; exact Sn].
  apply ensure_accounts_taken. intros [[u p] r] I. cbn [fst].
  pose proof (ensure_accounts_named defaults defaults_roles defaults_names
                s1 u) as (A & _ & B & _).
  cbv zeta in A, B. fold s2 in A, B.
  destruct (user_named u s1) as [row |] eqn:Q.
  - rewrite (A row eq_refl). discriminate.
  - destruct (B eq_refl p r I) as (id & _ & ->). discriminate.
Qed.

(** X20.  After [setup_database] each default account whose user name
    was free logs in with its password and gets its role.  An account
    that was there before logs in exactly as before: its password and
    role are not reset.  A user name that is neither has no account. *)
Theorem setup_database_accounts (s : store) (u p : pystr) :
  let s' := snd (setup_database s) in
  (username_taken u (tables s) = true ->
   fst (login u p (state s')) = fst (login u p (state s)))
  /\ (username_taken u (tables s) = false ->
      forall r, In (u, p, r) defaults ->
      exists id,
        users_seq s < id
        /\ fst (login u p (state s')) = Ret (Some (mk_CurrentUser id u r)))
  /\ (username_taken u (tables s) = false ->
      (forall a, In a defaults -> fst (fst a) <> u) ->
      fst (login u p (state s')) = Ret None).
Proof.
  cbv zeta. rewrite setup_database_eq. cbn [snd].
  set (s1 := snd (seed_default_doctors s)).
  pose proof (seed_default_doctors_frame s) as S. cbv zeta in S.
  destruct S as (_ & Su & Sq & _). fold s1 in Su, Sq.
  assert (N : user_named u s1 = user_named u s)
    by (unfold user_named; now rewrite Su).
  pose proof (ensure_accounts_named defaults defaults_roles defaults_names
                s1 u) as (A & B & C & _).
  cbv zeta in A, B, C. rewrite !login_user_named.
  split; [| split].
  - intros T. apply user_named_taken in T.
    destruct (user_named u s) as [row |] eqn:Q; [| congruence].
    rewrite N in A. now rewrite (A row eq_refl).
  - intros T r I. apply user_named_free in T. rewrite <- N in T.
    destruct (C T p r I) as (id & L & ->). exists id.
    split; [lia |]. cbn [u_id u_username u_password_hash u_role].
    now rewrite pystr_eqb_refl.
  - intros T D. apply user_named_free in T. now rewrite (B D), N, T.
Qed.

(** X21.  On an empty [doctors] table whose counter is [c],
    [setup_database] inserts Dr. Ahmed, Dr. Sara and Dr. Omar with the
    ids [c + 1], [c + 2] and [c + 3], and [list_doctors] then returns
    them in that order; a table that has a row is left as it is, and so
    is its counter. *)
Theorem setup_database_doctors (s : store) :
  let s' := snd (setup_database s) in
  (doctors (tables s) = [] ->
   doctors (tables s') = seeded_doctors (doctors_seq s)
   /\ doctors_seq s' = doctors_seq s + 3
   /\ fst (list_doctors (state s'))
      = Ret [(doctors_seq s + 1, str "Dr. Ahmed", str "General");
             (doctors_seq s + 2, str "Dr. Sara", str "Pediatrics");
             (doctors_seq s + 3, str "Dr. Omar", str "Dermatology")])
  /\ (doctors (tables s) <> [] ->
      doctors (tables s') = doctors (tables s)
      /\ doctors_seq s' = doctors_seq s).
Proof.
  cbv zeta. rewrite setup_database_eq. cbn [snd].
  set (s1 := snd (seed_default_doctors s)).
  pose proof (seed_default_doctors_frame s) as S. cbv zeta in S.
  destruct S as (_ & _ & _ & _ & Se & Sf). fold s1 in Se, Sf.
  pose proof (ensure_accounts_frame defaults s1) as E. cbv zeta in E.
  destruct E as (_ & Ed & Es & _). rewrite Es.
  split.
  - intros D. destruct (Se D) as (D1 & Q1).
    split; [congruence |]. split; [exact Q1 |].
    unfold list_doctors, query. cbn [fst]. f_equal.
    fold (tables (fold_left ensure_account defaults s1)).
    rewrite Ed, D1. unfold seeded_doctors, doctor_line_of.
    cbn [map d_id d_name d_specialty order_by fold_right insert_by].
    unfold doctor_line_id. cbn [fst].
    replace (doctors_seq s + 2 <=? doctors_seq s + 3) with true
      by (symmetry; apply Z.leb_le; lia).
    cbn [insert_by fst].
    replace (doctors_seq s + 1 <=? doctors_seq s + 2) with true
      by (symmetry; apply Z.leb_le; lia).
    reflexivity.
  - intros D. rewrite Ed, (Sf D). auto.
Qed.


(** ** The console *)

#[global] Arguments decimal : simpl never.

Lemma call_eq {A : Type} (m : prog A) (s : session) :
  call m s
  = (match fst (m (state (files s))) with
     | Ret a => Returned a
     | Exc e => Raised (Python e)
     end,
     mk_session
       (mk_store (snd (m (state (files s)))) (users_seq (files s))
          (doctors_seq (files s)))
       (terminal s)).
Proof.
  unfold call, on_database.
  now destruct (m (state (files s))) as [[a | e] w].
Qed.

Lemma call_query {A : Type} (f : database -> A) (s : session) :
  call (query f) s = (Returned (f (tables (files s))), s).
Proof.
  rewrite call_eq. unfold query. cbn [fst snd].
  now destruct s as [[w us ds] t].
Qed.

Section Keeping.

Variable R : session -> session -> Prop.
Variable E : error -> Prop.

Hypothesis R_refl : forall s, R s s.
Hypothesis R_trans : forall s1 s2 s3, R s1 s2 -> R s2 s3 -> R s1 s3.
Hypothesis R_terminal :
  forall s e rest,
    (List.length rest <= List.length (unread (terminal s)))%nat ->
    R s (at_terminal e s rest).

Lemma keeps_pure {A : Type} (a : A) : keeps R E (pure a).
Proof. intros s. split; [apply R_refl | discriminate]. Qed.

Lemma keeps_and_then {A B : Type} (m : ui A) (k : A -> ui B) :
  keeps R E m -> (forall a, keeps R E (k a)) -> keeps R E (and_then m k).
Proof.
  intros Hm Hk s. unfold and_then. destruct (Hm s) as (Rm & Em).
  destruct (m s) as [[a | e] s1]; cbn [fst snd] in *.
  - destruct (Hk a s1) as (Rk & Ek). split; [eauto | exact Ek].
  - split; [exact Rm |]. intros e' [= <-]. now apply Em.
Qed.

Lemma keeps_print (text : pystr) : keeps R E (print text).
Proof.
  intros s. split; [| discriminate]. cbn [print snd]. now apply R_terminal.
Qed.

Lemma keeps_read_line (e : event) : E EOFError -> keeps R E (read_line e).
Proof.
  intros Eof s. unfold read_line.
  destruct (unread (terminal s)) as [| line rest] eqn:U; cbn [fst snd].
  - split; [apply R_terminal; cbn; lia |]. now intros e' [= <-].
  - split; [| discriminate]. apply R_terminal. rewrite U. cbn. lia.
Qed.

Lemma keeps_for_each {A : Type} (l : list A) (body : A -> ui unit) :
  (forall x, keeps R E (body x)) -> keeps R E (for_each l body).
Proof.
  intros H. induction l as [| x l IH]; cbn [for_each].
  - apply keeps_pure.
  - apply keeps_and_then; [apply H | intros _; exact IH].
Qed.

(** The loop ends when every turn that goes on has read a line. *)
Lemma while_true_ends (turn : ui bool) :
  keeps R E turn ->
  (forall s s',
     turn s = (Returned false, s') ->
     (List.length (unread (terminal s'))
      < List.length (unread (terminal s)))%nat) ->
  forall n s,
    (List.length (unread (terminal s)) < n)%nat ->
    exists r s',
      ClinicMenuUI.while_true n turn s = Some (r, s')
      /\ R s s' /\ (r = Returned tt \/ exists e, r = Raised e /\ E e).
Proof.
  intros K D. induction n as [| n IH]; intros s L; [lia |].
  cbn [ClinicMenuUI.while_true]. destruct (K s) as (Rs & Es).
  destruct (turn s) as [[[|] | e] s1] eqn:T; cbn [fst snd] in *.
  - exists (Returned tt), s1. auto.
  - specialize (D s s1 T).
    destruct (IH s1) as (r & s2 & W & R2 & Q); [lia |].
    exists r, s2. split; [exact W |]. split; [eauto | exact Q].
  - exists (Raised e), s1. split; [reflexivity |]. split; [exact Rs |].
    right. exists e. auto.
Qed.


Lemma keeps_call_query {A : Type} (f : database -> A) :
  keeps R E (call (query f)).
Proof.
  intros s. rewrite call_query. split; [apply R_refl | discriminate].
Qed.

Lemma keeps_list_patients_flow : keeps R E ClinicMenuUI.list_patients_flow.
Proof.
  unfold ClinicMenuUI.list_patients_flow.
  apply keeps_and_then; [apply keeps_print | intros _].
  apply keeps_and_then; [apply keeps_call_query | intros rows].
  destruct rows; [apply keeps_print |].
  apply keeps_for_each. intros [[[pid name] age] gender]. apply keeps_print.
Qed.

Lemma keeps_list_doctors_flow : keeps R E ClinicMenuUI.list_doctors_flow.
Proof.
  unfold ClinicMenuUI.list_doctors_flow.
  apply keeps_and_then; [apply keeps_print | intros _].
  apply keeps_and_then; [apply keeps_call_query | intros rows].
  apply keeps_for_each. intros [[did name] specialty]. apply keeps_print.
Qed.

Lemma keeps_list_appointments_flow :
  keeps R E ClinicMenuUI.list_appointments_flow.
Proof.
  unfold ClinicMenuUI.list_appointments_flow.
  apply keeps_and_then; [apply keeps_print | intros _].
  apply keeps_and_then; [apply keeps_call_query | intros rows].
  destruct rows; [apply keeps_print |].
  apply keeps_for_each. intros [[[[aid pn] dn] dt] st]. apply keeps_print.
Qed.

Section Turn.

Variable current_user : CurrentUser.

Hypothesis E_eof : E EOFError.
Hypothesis R_register :
  keeps R E (ClinicMenuUI.register_patient_flow current_user).
Hypothesis R_schedule :
  keeps R E (ClinicMenuUI.schedule_appointment_flow current_user).
Hypothesis R_length :
  forall s s',
    R s s' ->
    (List.length (unread (terminal s'))
     <= List.length (unread (terminal s)))%nat.

Ltac turn_steps :=
  repeat (apply keeps_and_then; [apply keeps_print | intros _]).

Ltac choice_made :=
  repeat match goal with
         | |- keeps _ _ (if ?c then _ else _) => destruct c
         end;
  (apply keeps_and_then;
   [first [ exact R_register | exact R_schedule
          | apply keeps_list_patients_flow | apply keeps_list_doctors_flow
          | apply keeps_list_appointments_flow | apply keeps_print ]
   | intros _; apply keeps_pure ]).

Lemma keeps_menu_turn : keeps R E (ClinicMenuUI.menu_turn current_user).
Proof.
  unfold ClinicMenuUI.menu_turn. turn_steps.
  apply keeps_and_then; [now apply keeps_read_line | intros typed].
  cbv zeta. choice_made.
Qed.

Lemma print_then_reads {A : Type} (text : pystr) (m : ui A) :
  (forall s a s',
     m s = (Returned a, s') ->
     (List.length (unread (terminal s'))
      < List.length (unread (terminal s)))%nat) ->
  forall s a s',
    (print text >> m) s = (Returned a, s') ->
    (List.length (unread (terminal s'))
     < List.length (unread (terminal s)))%nat.
Proof.
  intros H s a s' Q. unfold and_then, print in Q.
  apply H in Q. exact Q.
Qed.

Lemma input_then_reads {A : Type} (prompt : pystr) (k : pystr -> ui A) :
  (forall typed, keeps R E (k typed)) ->
  forall s a s',
    (let* typed := input prompt in k typed) s = (Returned a, s') ->
    (List.length (unread (terminal s'))
     < List.length (unread (terminal s)))%nat.
Proof.
  intros K s a s' Q. unfold and_then, input, read_line in Q.
  destruct (unread (terminal s)) as [| line rest] eqn:U; [discriminate |].
  destruct (K line (at_terminal (Asked prompt) s rest)) as (Rk & _).
  rewrite Q in Rk. cbn [snd] in Rk. apply R_length in Rk.
  cbn in Rk. cbn [List.length]. lia.
Qed.

Lemma menu_turn_reads (s : session) (b : bool) (s' : session) :
  ClinicMenuUI.menu_turn current_user s = (Returned b, s') ->
  (List.length (unread (terminal s'))
   < List.length (unread (terminal s)))%nat.
Proof.
  revert s b s'. unfold ClinicMenuUI.menu_turn.
  do 7 apply print_then_reads.
  apply input_then_reads. intros typed. cbv zeta. choice_made.
Qed.

Lemma show_menu_ends (s : session) :
  exists r s',
    ClinicMenuUI.show_menu current_user s = Some (r, s')
    /\ R s s' /\ (r = Returned tt \/ exists e, r = Raised e /\ E e).
Proof.
  unfold ClinicMenuUI.show_menu.
  apply while_true_ends; [apply keeps_menu_turn | | lia].
  intros s1 s2. apply menu_turn_reads.
Qed.

End Turn.

End Keeping.


Lemma store_kept_refl (s : session) : store_kept s s.
Proof. split; [reflexivity | lia]. Qed.

Lemma store_kept_trans (s1 s2 s3 : session) :
  store_kept s1 s2 -> store_kept s2 s3 -> store_kept s1 s3.
Proof. intros (A & B) (C & D). split; [congruence | lia]. Qed.

Lemma store_kept_terminal (s : session) (e : event) (rest : list pystr) :
  (List.length rest <= List.length (unread (terminal s)))%nat ->
  store_kept s (at_terminal e s rest).
Proof. intros L. split; [reflexivity | exact L]. Qed.

Lemma later_trans (w1 w2 w3 : world) :
  later w1 w2 -> later w2 w3 -> later w1 w3.
Proof.
  intros A B. induction B as [| w3 a _ IH]; [exact A |].
  now apply later_run.
Qed.

Lemma store_run_refl (s : session) : store_run s s.
Proof. repeat split; [apply later_now | lia]. Qed.

Lemma store_run_trans (s1 s2 s3 : session) :
  store_run s1 s2 -> store_run s2 s3 -> store_run s1 s3.
Proof.
  intros (A & B & C & D) (A' & B' & C' & D').
  repeat split; [eapply later_trans; eassumption | congruence ..| lia].
Qed.

Lemma store_run_terminal (s : session) (e : event) (rest : list pystr) :
  (List.length rest <= List.length (unread (terminal s)))%nat ->
  store_run s (at_terminal e s rest).
Proof. intros L. repeat split; [apply later_now | exact L]. Qed.

(** The exceptions of an action: never IntegrityError. *)
Lemma run_exceptions (a : action) (w : world) (e : exn) :
  fst (run a w) = Exc e -> e = ValueError \/ e = OverflowError.
Proof.
  destruct a as [name age gender phone address | p d t r]; cbn [run].
  - pose proof (register_patient_cases name age gender phone address w) as C.
    destruct (validate_patient_data name age gender) as [[[|] msg] | e'] eqn:V.
    + destruct C as (n & _ & _ & ->). discriminate.
    + rewrite C. discriminate.
    + rewrite C. cbn [fst]. intros [= <-].
      apply validate_patient_data_raises in V.
      destruct V as (_ & _ & V). left. eapply py_int_exc, V.
  - pose proof (schedule_appointment_schedules p d t r w) as S.
    intros Q. rewrite Q in S.
    inversion S; subst; auto; left; eapply py_int_exc; eassumption.
Qed.

Lemma keeps_call_run (a : action) : keeps store_run may_escape (call (run a)).
Proof.
  intros s. rewrite call_eq. cbn [fst snd]. split.
  - repeat split; cbn; [| lia]. apply later_run, later_now.
  - intros e. destruct (fst (run a (state (files s)))) as [r | e'] eqn:Q;
      [discriminate |].
    intros [= <-]. apply run_exceptions in Q. unfold may_escape.
    destruct Q as [-> | ->]; auto.
Qed.

Ltac flow_steps R_refl R_trans R_terminal :=
  repeat (apply (keeps_and_then _ _ R_trans);
          [first [ apply (keeps_print _ _ R_terminal)
                 | apply (keeps_read_line _ _ R_terminal); unfold may_escape; auto
                 | apply (keeps_list_patients_flow _ _ R_refl R_trans R_terminal)
                 | apply (keeps_list_doctors_flow _ _ R_refl R_trans R_terminal) ]
          | intros ? ]).

Lemma keeps_register_patient_flow (u : CurrentUser) :
  keeps store_run may_escape (ClinicMenuUI.register_patient_flow u).
Proof.
  unfold ClinicMenuUI.register_patient_flow.
  destruct (ClinicMenuUI.may_write u); cbn [negb];
    [| apply (keeps_print _ _ store_run_terminal)].
  flow_steps store_run_refl store_run_trans store_run_terminal.
  apply (keeps_and_then _ _ store_run_trans).
  - match goal with
    | |- keeps _ _ (call (register_patient ?n ?a ?g ?p ?d)) =>
        apply (keeps_call_run (Register n a g p d))
    end.
  - intros r. apply (keeps_print _ _ store_run_terminal).
Qed.

Lemma keeps_schedule_appointment_flow (u : CurrentUser) :
  keeps store_run may_escape (ClinicMenuUI.schedule_appointment_flow u).
Proof.
  unfold ClinicMenuUI.schedule_appointment_flow.
  destruct (ClinicMenuUI.may_write u); cbn [negb];
    [| apply (keeps_print _ _ store_run_terminal)].
  flow_steps store_run_refl store_run_trans store_run_terminal.
  apply (keeps_and_then _ _ store_run_trans).
  - match goal with
    | |- keeps _ _ (call (schedule_appointment ?p ?d ?t ?r)) =>
        apply (keeps_call_run (Schedule p d t r))
    end.
  - intros r. apply (keeps_print _ _ store_run_terminal).
Qed.

Lemma reader_menu (current_user : CurrentUser) (s : session) :
  ClinicMenuUI.may_write current_user = false ->
  exists r s',
    ClinicMenuUI.show_menu current_user s = Some (r, s')
    /\ files s' = files s
    /\ (r = Returned tt \/ r = Raised EOFError).
Proof.
  intros D.
  destruct (show_menu_ends store_kept (fun e => e = EOFError)
              store_kept_refl store_kept_trans store_kept_terminal
              current_user eq_refl) with (s := s)
    as (r & s' & W & (F & _) & Q).
  - unfold ClinicMenuUI.register_patient_flow. rewrite D. cbn [negb].
    apply (keeps_print _ _ store_kept_terminal).
  - unfold ClinicMenuUI.schedule_appointment_flow. rewrite D. cbn [negb].
    apply (keeps_print _ _ store_kept_terminal).
  - now intros s1 s2 (_ & L).
  - exists r, s'. split; [exact W |]. split; [exact F |].
    destruct Q as [-> | (e & -> & ->)]; auto.
Qed.

(** X22.  A user whose role is neither admin nor receptionist cannot
    change the store from the menu: whatever is typed, [show_menu] comes
    to an end, by logout or by the end of the input, with the store
    exactly as it was and no exception of the layers below. *)
Theorem show_menu_read_only (current_user : CurrentUser) (s : session) :
  ClinicMenuUI.may_write current_user = false ->
  exists r s',
    ClinicMenuUI.show_menu current_user s = Some (r, s')
    /\ files s' = files s
    /\ (r = Returned tt \/ r = Raised EOFError).
Proof. apply reader_menu. Qed.

Lemma show_menu_read_only_witness :
  ClinicMenuUI.may_write a_doctor = false
  /\ exists r s',
       ClinicMenuUI.show_menu a_doctor doctor_session = Some (r, s')
       /\ files s' = files doctor_session
       /\ (r = Returned tt \/ r = Raised EOFError).
Proof.
  split; [reflexivity |].
  exact (show_menu_read_only a_doctor doctor_session eq_refl).
Defined.

(** X23.  Whatever the user and whatever is typed, [show_menu] comes to
    an end: it returns on logout or raises EOFError, ValueError or
    OverflowError, never IntegrityError.  All it has done to the store
    by then is a sequence of [register_patient] and
    [schedule_appointment] calls; the counters of [users] and [doctors]
    are as they were. *)
Theorem show_menu_runs_actions (current_user : CurrentUser) (s : session) :
  exists r s',
    ClinicMenuUI.show_menu current_user s = Some (r, s')
    /\ later (state (files s)) (state (files s'))
    /\ users_seq (files s') = users_seq (files s)
    /\ doctors_seq (files s') = doctors_seq (files s)
    /\ (r = Returned tt \/ exists e, r = Raised e /\ may_escape e).
Proof.
  destruct (show_menu_ends store_run may_escape
              store_run_refl store_run_trans store_run_terminal
              current_user) with (s := s)
    as (r & s' & W & (L & U & D & _) & Q).
  - unfold may_escape. auto.
  - apply keeps_register_patient_flow.
  - apply keeps_schedule_appointment_flow.
  - now intros s1 s2 (_ & _ & _ & L).
  - exists r, s'. auto.
Qed.


(** ** What the flows show *)

Lemma shown_more_nil (s : session) : shown_more s [] = s.
Proof.
  destruct s as [f [un sh]]. unfold shown_more. cbn. now rewrite app_nil_r.
Qed.

Lemma shown_more_more (s : session) (a b : list event) :
  shown_more (shown_more s a) b = shown_more s (a ++ b).
Proof. unfold shown_more. cbn. now rewrite app_assoc. Qed.

Lemma print_eq (text : pystr) (s : session) :
  print text s = (Returned tt, shown_more s [Printed text]).
Proof. reflexivity. Qed.

Lemma for_each_prints {A : Type} (body : A -> ui unit) (l : list A)
  (s : session) :
  (forall x, exists text, forall s, body x s = print text s) ->
  exists more, for_each l body s = (Returned tt, shown_more s more).
Proof.
  intros H. revert s. induction l as [| x l IH]; intros s; cbn [for_each].
  - exists []. now rewrite shown_more_nil.
  - unfold and_then. destruct (H x) as (text & ->). rewrite print_eq.
    destruct (IH (shown_more s [Printed text])) as (more & ->).
    rewrite shown_more_more. eauto.
Qed.

Lemma list_patients_flow_shows (s : session) :
  exists more,
    ClinicMenuUI.list_patients_flow s = (Returned tt, shown_more s more).
Proof.
  unfold ClinicMenuUI.list_patients_flow, and_then, list_patients.
  rewrite print_eq, call_query.
  destruct (order_by _ _) as [| x l].
  - rewrite print_eq, shown_more_more. eauto.
  - match goal with
    | |- context [for_each ?rows ?body ?s1] =>
        destruct (for_each_prints body rows s1) as (more & ->)
    end.
    + intros [[[pid name] age] gender]. eexists. reflexivity.
    + rewrite shown_more_more. eauto.
Qed.

Lemma list_doctors_flow_shows (s : session) :
  exists more,
    ClinicMenuUI.list_doctors_flow s = (Returned tt, shown_more s more).
Proof.
  unfold ClinicMenuUI.list_doctors_flow, and_then, list_doctors.
  rewrite print_eq, call_query.
  match goal with
  | |- context [for_each ?rows ?body ?s1] =>
      destruct (for_each_prints body rows s1) as (more & ->)
  end.
  - intros [[did name] sp]. eexists. reflexivity.
  - rewrite shown_more_more. eauto.
Qed.

Lemma print_then {A : Type} (text : pystr) (k : ui A) (s : session) :
  (print text >> k) s = k (shown_more s [Printed text]).
Proof. reflexivity. Qed.

Lemma returned_then {A B : Type} (m : ui A) (k : A -> ui B)
  (s : session) (a : A) (s1 : session) :
  m s = (Returned a, s1) -> and_then m k s = k a s1.
Proof. intros H. unfold and_then. now rewrite H. Qed.

Lemma last_shown_snoc (f : store) (un : list pystr) (sh : list event)
  (e : event) :
  last_shown (mk_session f (mk_console un (sh ++ [e]))) = Some e.
Proof.
  unfold last_shown. cbn [terminal shown]. rewrite map_app. cbn [map].
  apply last_last.
Qed.

Ltac console_steps :=
  cbn [and_then print input read_line at_terminal unread terminal files
       shown fst snd];
  unfold print, input, read_line, at_terminal;
  cbn [unread terminal files shown fst snd].

(** X24.  [register_patient_flow] shows the check mark exactly when it
    has written a patient row.  When it returns, either the user may
    write, the last line shown is the check mark with "Patient
    registered successfully." and one row has been added to [patients],
    or the last line shown starts with the cross mark and the store is
    exactly as it was.  When it raises, by the end of the input or a
    ValueError of the age, the store is exactly as it was. *)
Theorem register_patient_flow_marks (current_user : CurrentUser)
  (s : session) :
  let r := fst (ClinicMenuUI.register_patient_flow current_user s) in
  let s' := snd (ClinicMenuUI.register_patient_flow current_user s) in
  (r = Returned tt
   /\ ClinicMenuUI.may_write current_user = true
   /\ last_shown s'
      = Some (Printed (check_mark
                       ++ str " Patient registered successfully."))
   /\ (exists row,
         patients (tables (files s')) = patients (tables (files s)) ++ [row])
   /\ users (tables (files s')) = users (tables (files s))
   /\ doctors (tables (files s')) = doctors (tables (files s))
   /\ appointments (tables (files s')) = appointments (tables (files s)))
  \/ (r = Returned tt
      /\ (exists text, last_shown s' = Some (Printed (cross_mark ++ text)))
      /\ files s' = files s)
  \/ ((r = Raised EOFError \/ r = Raised (Python ValueError))
      /\ files s' = files s).
Proof.
  cbv zeta. unfold ClinicMenuUI.register_patient_flow.
  destruct s as [[w us ds] [un sh]].
  destruct (ClinicMenuUI.may_write current_user) eqn:W; cbn [negb].
  2:{ right. left. console_steps. split; [reflexivity |].
      split; [| reflexivity]. rewrite last_shown_snoc. eauto. }
  unfold and_then at 1. console_steps.
  destruct un as [| name [| age [| gender [| phone [| address rest]]]]];
    unfold and_then; console_steps;
    try (right; right; split; [left |]; reflexivity).
  rewrite call_eq. cbn [files state users_seq doctors_seq terminal fst snd].
  pose proof (register_patient_cases name age gender phone address w) as C.
  destruct (validate_patient_data name age gender) as [[[|] msg] | e] eqn:V.
  - destruct C as (n & _ & _ & ->). left. console_steps.
    split; [reflexivity |]. split; [reflexivity |].
    split; [apply last_shown_snoc |].
    unfold tables. cbn [files state db]. unfold insert_patient.
    cbn [patients users doctors appointments]. repeat split. eauto.
  - rewrite C. right. left. console_steps.
    split; [reflexivity |]. split.
    + rewrite last_shown_snoc. unfold ClinicMenuUI.marked. cbn [fst snd].
      eauto.
    + reflexivity.
  - rewrite C. right. right. cbn [fst snd]. split; [| reflexivity].
    right. apply validate_patient_data_raises in V.
    destruct V as (_ & _ & V). apply py_int_exc in V. now subst e.
Qed.

(** X25.  [schedule_appointment_flow] shows the check mark exactly when
    it has written an appointment row.  When it returns, either the
    user may write, the last line shown is the check mark with
    "Appointment scheduled successfully." and one row, with status
    Scheduled, has been added to [appointments], or the last line shown
    starts with the cross mark and the tables are as they were.  When
    it raises, by the end of the input, a ValueError or an
    OverflowError of an id, the tables are as they were. *)
Theorem schedule_appointment_flow_marks (current_user : CurrentUser)
  (s : session) :
  let r := fst (ClinicMenuUI.schedule_appointment_flow current_user s) in
  let s' := snd (ClinicMenuUI.schedule_appointment_flow current_user s) in
  (r = Returned tt
   /\ ClinicMenuUI.may_write current_user = true
   /\ last_shown s'
      = Some (Printed (check_mark
                       ++ str " Appointment scheduled successfully."))
   /\ (exists row,
         appointments (tables (files s'))
         = appointments (tables (files s)) ++ [row]
         /\ a_status row = str "Scheduled")
   /\ users (tables (files s')) = users (tables (files s))
   /\ patients (tables (files s')) = patients (tables (files s))
   /\ doctors (tables (files s')) = doctors (tables (files s)))
  \/ (r = Returned tt
      /\ (exists text, last_shown s' = Some (Printed (cross_mark ++ text)))
      /\ tables (files s') = tables (files s))
  \/ ((r = Raised EOFError \/ r = Raised (Python ValueError)
       \/ r = Raised (Python OverflowError))
      /\ tables (files s') = tables (files s)).
Proof.
  cbv zeta.
  destruct (ClinicMenuUI.schedule_appointment_flow current_user s)
    as [r s'] eqn:Q.
  cbn [fst snd]. revert Q. unfold ClinicMenuUI.schedule_appointment_flow.
  destruct (ClinicMenuUI.may_write current_user) eqn:W; cbn [negb].
  2:{ destruct s as [[w us ds] [un sh]]. console_steps. intros [= <- <-].
      right. left. split; [reflexivity |]. split; [| reflexivity].
      rewrite last_shown_snoc. eexists. reflexivity. }
  rewrite print_then.
  destruct (list_patients_flow_shows (shown_more s [Printed
              (nl ++ str "--- Schedule Appointment ---")]))
    as (more1 & L1).
  rewrite (returned_then _ _ _ _ _ L1). clear L1.
  rewrite shown_more_more.
  destruct s as [[w us ds] [un sh]]. unfold shown_more.
  cbn [files terminal unread shown].
  destruct un as [| p un];
    [unfold and_then; console_steps; intros [= <- <-]; right; right;
     split; [left |]; reflexivity |].
  unfold and_then at 1. console_steps.
  match goal with
  | |- context [and_then ClinicMenuUI.list_doctors_flow _ ?s1] =>
      destruct (list_doctors_flow_shows s1) as (more2 & L2);
      rewrite (returned_then _ _ _ _ _ L2); clear L2
  end.
  unfold shown_more. cbn [files terminal unread shown].
  destruct un as [| d [| t [| reason rest]]];
    unfold and_then; console_steps;
    try (intros [= <- <-]; right; right; split; [left |]; reflexivity).
  rewrite call_eq. cbn [files state users_seq doctors_seq terminal fst snd].
  pose proof (schedule_appointment_schedules p d t reason w) as S.
  pose proof (run_exceptions (Schedule p d t reason) w) as X. cbn [run] in X.
  apply schedules_db in S.
  destruct (schedule_appointment p d t reason w) as [[[ok msg] | e] w1];
    cbn [fst snd] in *.
  - destruct S as [([= -> ->] & pid & did & _ & _ & _ & D) | (N & D)].
    + console_steps. intros [= <- <-]. left.
      split; [reflexivity |]. split; [reflexivity |].
      split; [apply last_shown_snoc |].
      unfold tables. cbn [files state]. rewrite D. unfold insert_appointment.
      cbn [appointments users patients doctors]. repeat split.
      eexists. split; reflexivity.
    + console_steps. intros [= <- <-]. right. left. split; [reflexivity |].
      unfold tables. cbn [files state]. split; [| exact D].
      rewrite last_shown_snoc. unfold ClinicMenuUI.marked. cbn [fst snd].
      destruct ok; [now destruct (N msg) | eexists; reflexivity].
  - intros [= <- <-]. right. right. unfold tables. cbn [files state].
    destruct S as [(S & _) | (_ & D)]; [discriminate |].
    split; [| exact D].
    destruct (X e eq_refl) as [-> | ->]; auto.
Qed.


(** ** Logging in at the console *)

Lemma show_eq (f : store) (typed password : pystr) (rest : list pystr)
  (sh : list event) :
  exists answer line,
    fst (login (strip typed) password (state f)) = Ret answer
    /\ line
       = match answer with
         | Some user =>
             check_mark ++ str " Welcome " ++ username user ++ str " ("
             ++ role user ++ str ")"
         | None => cross_mark ++ str " Invalid username or password."
         end
    /\ LoginUI.show
         (mk_session f (mk_console (typed :: password :: rest) sh))
       = (Returned answer,
          mk_session f
            (mk_console rest
               (sh ++ [Printed (nl ++ str "=== Login ===");
                       Asked (str "Username: ");
                       AskedPassword (str "Password: ");
                       Printed line]))).
Proof.
  unfold LoginUI.show. unfold and_then at 1. console_steps.
  unfold and_then at 1. console_steps.
  unfold and_then at 1. unfold getpass. console_steps.
  unfold and_then at 1. rewrite call_eq.
  cbn [files terminal]. destruct f as [w us ds].
  cbn [state users_seq doctors_seq]. rewrite !login_eq. cbn [fst snd].
  match goal with
  | |- context [@Ret (option CurrentUser) ?o] => set (answer := o)
  end.
  exists answer. eexists. split; [reflexivity |]. split; [reflexivity |].
  destruct answer as [user |]; unfold and_then; console_steps;
    rewrite <- !app_assoc; reflexivity.
Qed.

(** X26.  A session from start to end.  After [setup_database], a
    default account whose user name was free logs in at the console with
    its name, typed with or without white space around it, and its
    password, and gets its role; the store is the one [setup_database]
    left.  If the role is doctor, nothing typed at the menu afterwards
    changes that store. *)
Theorem default_account_session (st : store) (u p r typed : pystr)
  (rest : list pystr) :
  In (u, p, r) defaults ->
  username_taken u (tables st) = false ->
  strip typed = u ->
  let st' := snd (setup_database st) in
  exists user s1,
    LoginUI.show (mk_session st' (mk_console (typed :: p :: rest) []))
    = (Returned (Some user), s1)
    /\ username user = u /\ role user = r
    /\ files s1 = st' /\ unread (terminal s1) = rest
    /\ (r = str "doctor" ->
        exists r' s2,
          ClinicMenuUI.show_menu user s1 = Some (r', s2)
          /\ files s2 = st'
          /\ (r' = Returned tt \/ r' = Raised EOFError)).
Proof.
  intros I T S. cbv zeta.
  destruct (show_eq (snd (setup_database st)) typed p rest [])
    as (answer & line & L & _ & ->).
  rewrite S, setup_database_eq in L. cbn [snd] in L.
  rewrite login_user_named in L.
  pose proof (seed_default_doctors_frame st) as F. cbv zeta in F.
  destruct F as (_ & Fu & _).
  pose proof (ensure_accounts_named defaults defaults_roles defaults_names
                (snd (seed_default_doctors st)) u) as (_ & _ & C & _).
  cbv zeta in C. apply user_named_free in T.
  assert (N : user_named u (snd (seed_default_doctors st)) = None)
    by (unfold user_named; rewrite Fu; exact T).
  destruct (C N p r I) as (id & _ & Q). rewrite Q in L.
  cbn [u_id u_username u_password_hash u_role] in L.
  rewrite pystr_eqb_refl in L. injection L as <-.
  eexists. eexists. split; [reflexivity |].
  cbn [username role files terminal unread]. repeat split.
  intros ->.
  apply (reader_menu (mk_CurrentUser id u (str "doctor"))). reflexivity.
Qed.

Lemma default_account_session_witness :
  In (str "doctor", str "doc123", str "doctor") defaults
  /\ username_taken (str "doctor") (tables new_file) = false
  /\ strip (str " doctor ") = str "doctor"
  /\ exists user s1,
       LoginUI.show
         (mk_session (snd (setup_database new_file))
            (mk_console [str " doctor "; str "doc123"; str "1"; str "0"] []))
       = (Returned (Some user), s1)
       /\ role user = str "doctor".
Proof.
  assert (I : In (str "doctor", str "doc123", str "doctor") defaults)
    by (right; right; left; reflexivity).
  assert (T : username_taken (str "doctor") (tables new_file) = false)
    by reflexivity.
  assert (S : strip (str " doctor ") = str "doctor") by reflexivity.
  split; [exact I |]. split; [exact T |]. split; [exact S |].
  destruct (default_account_session new_file (str "doctor") (str "doc123")
              (str "doctor") (str " doctor ") [str "1"; str "0"] I T S)
    as (user & s1 & Q & _ & R & _).
  exists user, s1. split; [exact Q | exact R].
Defined.
